(** * mautrix-telegram: the configuration document, permission resolution,
      configuration migration and the intent API

    A shallow embedding of [mautrix_telegram/config.py] and
    [mautrix_appservice/intent_api.py], and the properties of them that
    the specification states. *)

From Stdlib Require Import ZArith Lia Ascii String.
From Equations.Prop Require Import Equations Logic.
From stdpp Require Import base option list strings gmap fin_maps.

#[local] Set Warnings "-register-all".
Local Open Scope string_scope.

(** ** Python values, exceptions and the state-and-exception monad *)

Module Py.

(** The values a YAML document holds, and the values the code builds from
    them: [None], booleans, integers, strings, lists and string-keyed
    mappings ([CommentedMap], [dict]).  Floating-point scalars are left
    out; no modelled code path inspects one. *)
Inductive value : Type :=
| VNone
| VBool (b : bool)
| VInt (z : Z)
| VStr (s : string)
| VList (l : list value)
| VMap (m : gmap string value).

(** The exception classes raised by the modelled code.  [IntentError]
    carries its message and the exception it wraps.  [OutsideModel] is not
    a Python exception: it ends a run that would build an object [value]
    has no constructor for (a mapping with a key that is not a string). *)
Inductive exn : Type :=
| TypeError
| AttributeError
| KeyError
| IndexError
| ValueError (msg : string)
| OSError
| YAMLError
| MatrixRequestError (content : string)
| IntentError (msg : string) (source : exn)
| OutsideModel.

(** A computation returns a value or raises. *)
Inductive result (A : Type) : Type :=
| Ret (a : A)
| Raise (e : exn).
Arguments Ret {A} a.
Arguments Raise {A} e.

Definition rbind {A B} (r : result A) (k : A -> result B) : result B :=
  match r with
  | Ret a => k a
  | Raise e => Raise e
  end.

(** Truth value of an object ([bool(x)], [x or y], [if x]). *)
Definition truthy (v : value) : bool :=
  match v with
  | VNone => false
  | VBool b => b
  | VInt z => negb (Z.eqb z 0)
  | VStr s => negb (String.eqb s "")
  | VList l => match l with [] => false | _ => true end
  | VMap m => negb (Nat.eqb (size m) 0)
  end.

(** [x or y]. *)
Definition or_else (x y : value) : value := if truthy x then x else y.

(** [x is not None]. *)
Definition is_not_None (v : value) : bool :=
  match v with VNone => false | _ => true end.

(** [v == s] for a string literal [s]. *)
Definition eq_str (v : value) (s : string) : bool :=
  match v with VStr t => String.eqb t s | _ => false end.

(** [k in s] on two strings: substring test. *)
Fixpoint is_substring (k s : string) : bool :=
  String.prefix k s ||
  match s with
  | EmptyString => false
  | String _ s' => is_substring k s'
  end.

(** [key in data] for a string [key]: key membership on a mapping,
    substring on a string, element on a list; other objects are not
    iterable. *)
Definition contains (data : value) (key : string) : result bool :=
  match data with
  | VMap m => Ret (bool_decide (is_Some (m !! key)))
  | VStr s => Ret (is_substring key s)
  | VList l => Ret (existsb (fun x => eq_str x key) l)
  | _ => Raise TypeError
  end.

(** [data.get(key, default)]: only mappings have the method. *)
Definition dict_get (data : value) (key : string) (default_value : value) : result value :=
  match data with
  | VMap m => Ret (match m !! key with Some v => v | None => default_value end)
  | _ => Raise AttributeError
  end.

(** [data[key]] for a string [key]. *)
Definition getitem (data : value) (key : string) : result value :=
  match data with
  | VMap m => match m !! key with Some v => Ret v | None => Raise KeyError end
  | _ => Raise TypeError
  end.

(** [data[key] = v] for a string [key]; the result is the object after the
    assignment. *)
Definition setitem (data : value) (key : string) (v : value) : result value :=
  match data with
  | VMap m => Ret (VMap (<[key := v]> m))
  | _ => Raise TypeError
  end.

(** [del data[key]] for a string [key]. *)
Definition delitem (data : value) (key : string) : result value :=
  match data with
  | VMap m => match m !! key with
              | Some _ => Ret (VMap (delete key m))
              | None => Raise KeyError
              end
  | _ => Raise TypeError
  end.

(** ['.' in key], and [key.split('.', 1)] when it is: the text before the
    first dot and the text after it. *)
Fixpoint split1 (key : string) : option (string * string) :=
  match key with
  | EmptyString => None
  | String c rest =>
      if Ascii.eqb c "."%char then Some (EmptyString, rest)
      else match split1 rest with
           | Some (k, next_key) => Some (String c k, next_key)
           | None => None
           end
  end.

(** [s.index(sub)]: the least position at which [sub] occurs, or
    [ValueError]. *)
Fixpoint find (sub s : string) : option nat :=
  if String.prefix sub s then Some 0
  else match s with
       | EmptyString => None
       | String _ s' => S <$> find sub s'
       end.

Definition index (s sub : string) : result nat :=
  match find sub s with
  | Some i => Ret i
  | None => Raise (ValueError "substring not found")
  end.

(** [s[n:]]. *)
Fixpoint slice_from (n : nat) (s : string) : string :=
  match n, s with
  | 0, _ => s
  | S n', String _ s' => slice_from n' s'
  | S _, EmptyString => EmptyString
  end.

(** The objects a [for] loop draws from [v]: the elements of a list, the
    characters of a string, the keys of a mapping; other objects are not
    iterable. *)
Definition iterate (v : value) : result (list value) :=
  match v with
  | VList l => Ret l
  | VStr s => Ret ((fun c => VStr (String c EmptyString)) <$> list_ascii_of_string s)
  | VMap m => Ret (VStr <$> (map_to_list m).*1)
  | _ => Raise TypeError
  end.

(** [l[i] = v] on a list: a negative index counts from the end, an index
    out of range raises [IndexError]. *)
Definition list_setitem (l : list value) (i : Z) (v : value) : result value :=
  let n := Z.of_nat (length l) in
  let j := if (i <? 0)%Z then (i + n)%Z else i in
  if ((0 <=? j)%Z && (j <? n)%Z)%bool
  then Ret (VList (<[Z.to_nat j := v]> l))
  else Raise IndexError.

(** [data[entry] = v] where the key is an object.  On a mapping a string
    is a key, a list or a mapping is unhashable, and any other key would
    give a mapping outside the model.  On a list an integer is an index,
    and so is a boolean ([False] is 0 and [True] is 1); every other key is
    a [TypeError].  No other object supports item assignment. *)
Definition setitem_obj (data : value) (entry : value) (v : value) : result value :=
  match entry with
  | VStr key => setitem data key v
  | VList _ | VMap _ => Raise TypeError
  | VInt i =>
      match data with
      | VMap _ => Raise OutsideModel
      | VList l => list_setitem l i v
      | _ => Raise TypeError
      end
  | VBool b =>
      match data with
      | VMap _ => Raise OutsideModel
      | VList l => list_setitem l (if b then 1 else 0)%Z v
      | _ => Raise TypeError
      end
  | VNone => match data with VMap _ => Raise OutsideModel | _ => Raise TypeError end
  end.

(** [v.items()]. *)
Definition items (v : value) : result (list (string * value)) :=
  match v with
  | VMap m => Ret (map_to_list m)
  | _ => Raise AttributeError
  end.

(** *** Stateful computations

    A method runs on a state and returns or raises; what it did to the
    state before raising stays done. *)
Definition M (S A : Type) : Type := S -> result A * S.

Definition ret {S A} (a : A) : M S A := fun s => (Ret a, s).
Definition raise {S A} (e : exn) : M S A := fun s => (Raise e, s).
Definition bind {S A B} (c : M S A) (k : A -> M S B) : M S B :=
  fun s => match c s with
           | (Ret a, s') => k a s'
           | (Raise e, s') => (Raise e, s')
           end.
Definition lift {S A} (r : result A) : M S A := fun s => (r, s).
Definition gets {S A} (f : S -> A) : M S A := fun s => (Ret (f s), s).
Definition modify {S} (f : S -> S) : M S unit := fun s => (Ret tt, f s).

(** [try: c except: h], for the exceptions [h] handles. *)
Definition try_except {S A} (c : M S A) (h : exn -> option (M S A)) : M S A :=
  fun s => match c s with
           | (Ret a, s') => (Ret a, s')
           | (Raise e, s') => match h e with
                              | Some k => k s'
                              | None => (Raise e, s')
                              end
           end.

Lemma bind_Ret {S A B} (c : M S A) (k : A -> M S B) s b s' :
  bind c k s = (Ret b, s') -> exists a s1, c s = (Ret a, s1) /\ k a s1 = (Ret b, s').
Proof.
  unfold bind. destruct (c s) as [[a|e] s1]; [eauto|discriminate].
Qed.

Lemma lift_Ret {S A} (r : result A) (s s' : S) a :
  lift r s = (Ret a, s') -> r = Ret a /\ s' = s.
Proof. unfold lift. by intros [= -> ->]. Qed.


End Py.

Declare Scope py_scope.
Delimit Scope py_scope with py.
Notation "x <- r ;; k" := (Py.rbind r (fun x => k))
  (at level 100, r at next level, right associativity) : py_scope.

Declare Scope pym_scope.
Delimit Scope pym_scope with pym.
Notation "x <- c ;; k" := (Py.bind c (fun x => k))
  (at level 100, c at next level, right associativity) : pym_scope.
Notation "c ;;; k" := (Py.bind c (fun _ => k))
  (at level 100, right associativity) : pym_scope.

Local Open Scope py_scope.

(** ** [DictWithRecursion]: dotted-path access to a nested document *)

Module DictWithRecursion.
Import Py.

Lemma split1_shorter key k next_key :
  split1 key = Some (k, next_key) -> String.length next_key < String.length key.
Proof.
  revert k next_key. induction key as [|c rest IH]; intros k nk; simpl; [discriminate|].
  destruct (Ascii.eqb c "."%char).
  - intros [= <- <-]. lia.
  - destruct (split1 rest) as [[k' nk']|] eqn:E; [|discriminate].
    intros [= <- <-]. specialize (IH _ _ eq_refl). lia.
Qed.

(** The recursive call of [_recursive_set] and [_recursive_del] works on
    the object held at [data[key]] and mutates it in place; in the
    value-passing model the changed object is put back under its key. *)
Definition put_back (data : value) (key : string) (next_data : value) : value :=
  match data with
  | VMap m => VMap (<[key := next_data]> m)
  | _ => data
  end.

(** [DictWithRecursion._recursive_get]. *)
Equations? _recursive_get (data : value) (key : string) (default_value : value)
  : result value by wf (String.length key) lt :=
_recursive_get data key default_value with inspect (split1 key) := {
  | exist _ (Some (k, next_key)) _ =>
      next_data <- dict_get data k (VMap ∅) ;;
      _recursive_get next_data next_key default_value
  | exist _ None _ => dict_get data key default_value }.
Proof. eapply split1_shorter; eassumption. Qed.

(** [DictWithRecursion._recursive_set]; the result is [data] after the
    call. *)
Equations? _recursive_set (data : value) (key : string) (v : value)
  : result value by wf (String.length key) lt :=
_recursive_set data key v with inspect (split1 key) := {
  | exist _ (Some (k, next_key)) _ =>
      present <- contains data k ;;
      data1 <- (if present then Ret data else setitem data k (VMap ∅)) ;;
      next_data <- dict_get data1 k (VMap ∅) ;;
      next_data' <- _recursive_set next_data next_key v ;;
      Ret (put_back data1 k next_data')
  | exist _ None _ => setitem data key v }.
Proof. eapply split1_shorter; eassumption. Qed.

(** [del data[key]] inside [try ... except KeyError: pass].  The second
    statement of the [try] block removes the comment attached to the key,
    which is not part of the value. *)
Definition del_quiet (data : value) (key : string) : result value :=
  match delitem data key with
  | Raise KeyError => Ret data
  | r => r
  end.

(** [DictWithRecursion._recursive_del]; the result is [data] after the
    call. *)
Equations? _recursive_del (data : value) (key : string)
  : result value by wf (String.length key) lt :=
_recursive_del data key with inspect (split1 key) := {
  | exist _ (Some (k, next_key)) _ =>
      present <- contains data k ;;
      if present then
        next_data <- getitem data k ;;
        next_data' <- _recursive_del next_data next_key ;;
        Ret (put_back data k next_data')
      else Ret data
  | exist _ None _ => del_quiet data key }.
Proof. eapply split1_shorter; eassumption. Qed.

(** [DictWithRecursion.__init__]: [self._data = data or CommentedMap()]. *)
Definition init (data : value) : value := or_else data (VMap ∅).

(** [DictWithRecursion.get], on the backing store [_data]. *)
Definition get (_data : value) (key : string) (default_value : value)
  (allow_recursion : bool) : result value :=
  if allow_recursion && bool_decide (is_Some (split1 key))
  then _recursive_get _data key default_value
  else dict_get _data key default_value.

(** [DictWithRecursion.__getitem__]. *)
Definition getitem_ (_data : value) (key : string) : result value :=
  get _data key VNone true.

(** [DictWithRecursion.__contains__]. *)
Definition contains_ (_data : value) (key : string) : result bool :=
  v <- getitem_ _data key ;; Ret (is_not_None v).

(** [DictWithRecursion.set]; the result is the backing store after the
    call. *)
Definition set (_data : value) (key : string) (v : value)
  (allow_recursion : bool) : result value :=
  if allow_recursion && bool_decide (is_Some (split1 key))
  then _recursive_set _data key v
  else setitem _data key v.

(** [DictWithRecursion.__setitem__]. *)
Definition setitem_ (_data : value) (key : string) (v : value) : result value :=
  set _data key v true.

(** [DictWithRecursion.delete]. *)
Definition delete (_data : value) (key : string) (allow_recursion : bool)
  : result value :=
  if allow_recursion && bool_decide (is_Some (split1 key))
  then _recursive_del _data key
  else del_quiet _data key.

(** [DictWithRecursion.__delitem__]. *)
Definition delitem_ (_data : value) (key : string) : result value :=
  delete _data key true.

(** *** Unfolding equations, in terms of [split1] *)

Lemma _recursive_get_dotted data key d k next_key :
  split1 key = Some (k, next_key) ->
  _recursive_get data key d =
    (next_data <- dict_get data k (VMap ∅) ;; _recursive_get next_data next_key d).
Proof.
  intros H. simp _recursive_get.
  generalize (inspect (split1 key)). intros [o e]. simpl.
  destruct o as [[k' nk']|]; simpl; [|congruence].
  assert (k' = k /\ nk' = next_key) as [-> ->] by (split; congruence).
  reflexivity.
Qed.

Lemma _recursive_get_plain data key d :
  split1 key = None -> _recursive_get data key d = dict_get data key d.
Proof.
  intros H. simp _recursive_get.
  generalize (inspect (split1 key)). intros [o e]. simpl.
  destruct o as [[k' nk']|]; simpl; [congruence|reflexivity].
Qed.

Lemma _recursive_set_dotted data key v k next_key :
  split1 key = Some (k, next_key) ->
  _recursive_set data key v =
    (present <- contains data k ;;
     data1 <- (if present then Ret data else setitem data k (VMap ∅)) ;;
     next_data <- dict_get data1 k (VMap ∅) ;;
     next_data' <- _recursive_set next_data next_key v ;;
     Ret (put_back data1 k next_data')).
Proof.
  intros H. simp _recursive_set.
  generalize (inspect (split1 key)). intros [o e]. simpl.
  destruct o as [[k' nk']|]; simpl; [|congruence].
  assert (k' = k /\ nk' = next_key) as [-> ->] by (split; congruence).
  reflexivity.
Qed.

Lemma _recursive_set_plain data key v :
  split1 key = None -> _recursive_set data key v = setitem data key v.
Proof.
  intros H. simp _recursive_set.
  generalize (inspect (split1 key)). intros [o e]. simpl.
  destruct o as [[k' nk']|]; simpl; [congruence|reflexivity].
Qed.

Lemma _recursive_del_dotted data key k next_key :
  split1 key = Some (k, next_key) ->
  _recursive_del data key =
    (present <- contains data k ;;
     if present then
       next_data <- getitem data k ;;
       next_data' <- _recursive_del next_data next_key ;;
       Ret (put_back data k next_data')
     else Ret data).
Proof.
  intros H. simp _recursive_del.
  generalize (inspect (split1 key)). intros [o e]. simpl.
  destruct o as [[k' nk']|]; simpl; [|congruence].
  assert (k' = k /\ nk' = next_key) as [-> ->] by (split; congruence).
  reflexivity.
Qed.

Lemma _recursive_del_plain data key :
  split1 key = None -> _recursive_del data key = del_quiet data key.
Proof.
  intros H. simp _recursive_del.
  generalize (inspect (split1 key)). intros [o e]. simpl.
  destruct o as [[k' nk']|]; simpl; [congruence|reflexivity].
Qed.

(** With recursion allowed, the three entry points are the recursive
    walkers: on a key without a dot the walker is the plain access. *)
Lemma get_recursive data key d : get data key d true = _recursive_get data key d.
Proof.
  unfold get. simpl. destruct (split1 key) as [[k nk]|] eqn:E.
  - rewrite bool_decide_eq_true_2 by eauto. reflexivity.
  - rewrite bool_decide_eq_false_2 by (intros [? ?]; discriminate).
    symmetry. by apply _recursive_get_plain.
Qed.

Lemma set_recursive data key v : set data key v true = _recursive_set data key v.
Proof.
  unfold set. simpl. destruct (split1 key) as [[k nk]|] eqn:E.
  - rewrite bool_decide_eq_true_2 by eauto. reflexivity.
  - rewrite bool_decide_eq_false_2 by (intros [? ?]; discriminate).
    symmetry. by apply _recursive_set_plain.
Qed.

Lemma delete_recursive data key : delete data key true = _recursive_del data key.
Proof.
  unfold delete. simpl. destruct (split1 key) as [[k nk]|] eqn:E.
  - rewrite bool_decide_eq_true_2 by eauto. reflexivity.
  - rewrite bool_decide_eq_false_2 by (intros [? ?]; discriminate).
    symmetry. by apply _recursive_del_plain.
Qed.

(** *** Paths through a document *)

(** [path_ok data key]: walking [key] through [data], every node the walk
    enters is a mapping; the walk may stop early at an absent segment. *)
Inductive path_ok : value -> string -> Prop :=
| path_plain m key :
    split1 key = None -> path_ok (VMap m) key
| path_absent m key k next_key :
    split1 key = Some (k, next_key) -> m !! k = None -> path_ok (VMap m) key
| path_step m key k next_key next_data :
    split1 key = Some (k, next_key) -> m !! k = Some next_data ->
    path_ok next_data next_key -> path_ok (VMap m) key.

(** [absent_at data key]: the walk of [key] through [data] meets an
    absent intermediate segment, after mappings only. *)
Inductive absent_at : value -> string -> Prop :=
| absent_here m key k next_key :
    split1 key = Some (k, next_key) -> m !! k = None -> absent_at (VMap m) key
| absent_deeper m key k next_key next_data :
    split1 key = Some (k, next_key) -> m !! k = Some next_data ->
    absent_at next_data next_key -> absent_at (VMap m) key.

Lemma absent_at_path_ok data key : absent_at data key -> path_ok data key.
Proof. induction 1; eauto using path_ok. Qed.

(** [p] is a proper dotted prefix of [key]: [key] is [p], a dot, and more. *)
Definition dotted_prefix (p key : string) : Prop :=
  exists rest, key = p +:+ "." +:+ rest.

Lemma split1_app p rest :
  split1 (p +:+ "." +:+ rest) =
    match split1 p with
    | Some (k, p') => Some (k, p' +:+ "." +:+ rest)
    | None => Some (p, rest)
    end.
Proof.
  induction p as [|c p IH]; simpl; [reflexivity|].
  destruct (Ascii.eqb c "."%char); [reflexivity|].
  unfold String.app in *. simpl in IH. rewrite IH.
  destruct (split1 p) as [[k p']|]; reflexivity.
Qed.

(** Induction on a key along its splits at the first dot. *)
Lemma key_ind (P : string -> Prop) :
  (forall key, split1 key = None -> P key) ->
  (forall key k next_key, split1 key = Some (k, next_key) -> P next_key -> P key) ->
  forall key, P key.
Proof.
  intros Hplain Hdot key.
  remember (String.length key) as n eqn:Hn.
  revert key Hn. induction n as [n IH] using lt_wf_ind. intros key ->.
  destruct (split1 key) as [[k nk]|] eqn:E.
  - eapply Hdot; [exact E|]. eapply IH; [|reflexivity].
    eapply split1_shorter; eassumption.
  - by apply Hplain.
Qed.

Lemma path_ok_empty key : path_ok (VMap ∅) key.
Proof.
  destruct (split1 key) as [[k nk]|] eqn:E.
  - eapply path_absent; [exact E|]. apply lookup_empty.
  - by apply path_plain.
Qed.

Lemma get_returns key : forall data d,
  path_ok data key -> exists r, _recursive_get data key d = Ret r.
Proof.
  induction key as [key E|key k nk E IH] using key_ind; intros data d Hok.
  - rewrite _recursive_get_plain by done. inversion Hok; subst; simpl; eauto.
  - rewrite (_recursive_get_dotted _ _ _ _ _ E).
    inversion Hok as [m ? E'|m ? k' nk' E' Hk|m ? k' nk' nd E' Hk Hnd]; subst;
      [congruence| |]; rewrite E in E'; injection E' as <- <-; simpl; rewrite Hk.
    + apply IH, path_ok_empty.
    + by apply IH.
Qed.

Lemma get_empty_default key : forall d, _recursive_get (VMap ∅) key d = Ret d.
Proof.
  induction key as [key E|key k nk E IH] using key_ind; intros d.
  - rewrite _recursive_get_plain by done. simpl. by rewrite lookup_empty.
  - rewrite (_recursive_get_dotted _ _ _ _ _ E). simpl. rewrite lookup_empty. apply IH.
Qed.

Lemma get_absent key : forall data d,
  absent_at data key -> _recursive_get data key d = Ret d.
Proof.
  induction key as [key E|key k nk E IH] using key_ind; intros data d Hab.
  - inversion Hab; congruence.
  - rewrite (_recursive_get_dotted _ _ _ _ _ E).
    inversion Hab as [m ? k' nk' E' Hk|m ? k' nk' nd E' Hk Hnd]; subst;
      rewrite E in E'; injection E' as <- <-; simpl; rewrite Hk.
    + apply get_empty_default.
    + by apply IH.
Qed.

Lemma del_returns key : forall data,
  path_ok data key -> exists data', _recursive_del data key = Ret data'.
Proof.
  induction key as [key E|key k nk E IH] using key_ind; intros data Hok.
  - rewrite _recursive_del_plain by done. inversion Hok; subst; try congruence.
    unfold del_quiet, delitem. destruct (m !! key); eauto.
  - rewrite (_recursive_del_dotted _ _ _ _ E).
    inversion Hok as [m ? E'|m ? k' nk' E' Hk|m ? k' nk' nd E' Hk Hnd]; subst;
      [congruence| |]; rewrite E in E'; injection E' as <- <-; simpl.
    + rewrite bool_decide_eq_false_2 by (rewrite Hk; intros [? ?]; discriminate). eauto.
    + rewrite bool_decide_eq_true_2 by (rewrite Hk; eauto). rewrite Hk. simpl.
      destruct (IH _ Hnd) as [nd' ->]. simpl. eauto.
Qed.

Lemma del_absent key : forall data,
  absent_at data key -> _recursive_del data key = Ret data.
Proof.
  induction key as [key E|key k nk E IH] using key_ind; intros data Hab.
  - inversion Hab; congruence.
  - rewrite (_recursive_del_dotted _ _ _ _ E).
    inversion Hab as [m ? k' nk' E' Hk|m ? k' nk' nd E' Hk Hnd]; subst;
      rewrite E in E'; injection E' as <- <-; simpl.
    + rewrite bool_decide_eq_false_2 by (rewrite Hk; intros [? ?]; discriminate). done.
    + rewrite bool_decide_eq_true_2 by (rewrite Hk; eauto). rewrite Hk. simpl.
      rewrite (IH _ Hnd). simpl. by rewrite insert_id.
Qed.

(** A successful [set] is read back by [get], whatever the document. *)
Lemma set_get key : forall data v data' d,
  _recursive_set data key v = Ret data' -> _recursive_get data' key d = Ret v.
Proof.
  induction key as [key E|key k nk E IH] using key_ind; intros data v data' d.
  - rewrite _recursive_set_plain, _recursive_get_plain by done.
    destruct data; simpl; try discriminate. intros [= <-]. simpl.
    by rewrite lookup_insert_eq.
  - rewrite (_recursive_set_dotted _ _ _ _ _ E), (_recursive_get_dotted _ _ _ _ _ E).
    destruct (contains data k) as [present|] eqn:Hc; simpl; [|discriminate].
    destruct (if present then Ret data else setitem data k (VMap ∅)) as [data1|] eqn:H1;
      simpl; [|discriminate].
    destruct data1 as [| | | | |m1]; simpl; try discriminate.
    destruct (_recursive_set _ nk v) as [nd'|] eqn:Hs; simpl; [|discriminate].
    intros [= <-]. simpl. rewrite lookup_insert_eq. eapply IH, Hs.
Qed.

Lemma set_returns key : forall data v,
  path_ok data key -> exists m', _recursive_set data key v = Ret (VMap m').
Proof.
  induction key as [key E|key k nk E IH] using key_ind; intros data v Hok.
  - rewrite _recursive_set_plain by done. inversion Hok; subst; simpl; eauto; congruence.
  - rewrite (_recursive_set_dotted _ _ _ _ _ E).
    inversion Hok as [m ? E'|m ? k' nk' E' Hk|m ? k' nk' nd E' Hk Hnd]; subst;
      [congruence| |]; rewrite E in E'; injection E' as <- <-; simpl.
    + rewrite bool_decide_eq_false_2 by (rewrite Hk; intros [? ?]; discriminate).
      simpl. rewrite lookup_insert_eq.
      destruct (IH (VMap ∅) v (path_ok_empty _)) as [m' ->]. simpl. eauto.
    + rewrite bool_decide_eq_true_2 by (rewrite Hk; eauto). simpl. rewrite Hk.
      destruct (IH _ v Hnd) as [m' ->]. simpl. eauto.
Qed.

(** After a successful [set], every proper dotted prefix of the key holds
    a mapping. *)
Lemma set_materializes key : forall data v data' p,
  _recursive_set data key v = Ret data' -> dotted_prefix p key ->
  exists mp, _recursive_get data' p VNone = Ret (VMap mp).
Proof.
  induction key as [key E|key k nk E IH] using key_ind; intros data v data' p Hs [rest ->].
  - rewrite split1_app in E. destruct (split1 p) as [[? ?]|]; discriminate.
  - rewrite (_recursive_set_dotted _ _ _ _ _ E) in Hs.
    destruct (contains data k) as [present|] eqn:Hc; simpl in Hs; [|discriminate].
    destruct (if present then Ret data else setitem data k (VMap ∅)) as [data1|] eqn:H1;
      simpl in Hs; [|discriminate].
    destruct data1 as [| | | | |m1]; simpl in Hs; try discriminate.
    destruct (_recursive_set _ nk v) as [nd'|] eqn:Hs'; simpl in Hs; [|discriminate].
    injection Hs as <-.
    rewrite split1_app in E. destruct (split1 p) as [[k0 p']|] eqn:Ep.
    + injection E as -> <-. rewrite (_recursive_get_dotted _ _ _ _ _ Ep). simpl.
      rewrite lookup_insert_eq. eapply IH; [exact Hs'|]. by exists rest.
    + injection E as -> <-. rewrite _recursive_get_plain by done. simpl.
      rewrite lookup_insert_eq.
      destruct (split1 rest) as [[k1 r1]|] eqn:Er.
      * rewrite (_recursive_set_dotted _ _ _ _ _ Er) in Hs'.
        destruct (contains _ k1) as [pr|]; simpl in Hs'; [|discriminate].
        destruct (if pr then _ else _) as [d1|]; simpl in Hs'; [|discriminate].
        destruct d1; simpl in Hs'; try discriminate.
        destruct (_recursive_set _ r1 v); simpl in Hs'; [|discriminate].
        injection Hs' as <-. eauto.
      * rewrite _recursive_set_plain in Hs' by done.
        destruct (match m1 !! k with Some v0 => v0 | None => VMap ∅ end);
          simpl in Hs'; try discriminate. injection Hs' as <-. eauto.
Qed.

(** *** Keys that part ways *)

(** The first segment of a key. *)
Definition head (key : string) : string :=
  match split1 key with Some (k, _) => k | None => key end.

(** [diverge p q]: the walks of [p] and [q] share their first segments and
    then go through different ones. *)
Inductive diverge : string -> string -> Prop :=
| diverge_here p q : head p <> head q -> diverge p q
| diverge_later p q k next_p next_q :
    split1 p = Some (k, next_p) -> split1 q = Some (k, next_q) ->
    diverge next_p next_q -> diverge p q.

(** The first step of a read: the node under the first segment. *)
Lemma _recursive_get_head data key d :
  _recursive_get data key d =
    match split1 key with
    | Some (k, next_key) =>
        (next_data <- dict_get data k (VMap ∅) ;; _recursive_get next_data next_key d)
    | None => dict_get data key d
    end.
Proof.
  destruct (split1 key) as [[k nk]|] eqn:E.
  - by apply _recursive_get_dotted.
  - by apply _recursive_get_plain.
Qed.

(** Reads of [q] that see the same node under the first segment of [q]
    agree. *)
Lemma get_same_head q m m' d :
  m' !! head q = m !! head q ->
  _recursive_get (VMap m') q d = _recursive_get (VMap m) q d.
Proof.
  intros Hh. rewrite !(_recursive_get_head _ q). unfold head in Hh.
  destruct (split1 q) as [[k nk]|]; simpl; by rewrite Hh.
Qed.

(** A successful [set] leaves the reads of diverging keys as they were. *)
Lemma set_frame key : forall data v data' q d,
  _recursive_set data key v = Ret data' -> diverge key q ->
  _recursive_get data' q d = _recursive_get data q d.
Proof.
  induction key as [key E|key k nk E IH] using key_ind; intros data v data' q d Hs Hdiv.
  - rewrite _recursive_set_plain in Hs by done.
    destruct data as [| | | | |m]; simpl in Hs; try discriminate. injection Hs as <-.
    inversion Hdiv as [? ? Hne|? ? k' np nq Ep]; subst; [|congruence].
    apply get_same_head. unfold head in Hne at 1. rewrite E in Hne.
    by rewrite lookup_insert_ne.
  - rewrite (_recursive_set_dotted _ _ _ _ _ E) in Hs.
    destruct data as [| | |s|l|m]; simpl in Hs; try discriminate.
    { destruct (is_substring k s); simpl in Hs; discriminate. }
    { destruct (existsb _ l); simpl in Hs; discriminate. }
    set (m1 := if bool_decide (is_Some (m !! k)) then m else <[k := VMap ∅]> m).
    assert (Hm1 : (if bool_decide (is_Some (m !! k)) then Ret (VMap m)
                   else Ret (VMap (<[k := VMap ∅]> m))) = Ret (VMap m1))
      by (unfold m1; destruct (bool_decide _); reflexivity).
    rewrite Hm1 in Hs. simpl in Hs.
    destruct (_recursive_set _ nk v) as [nd'|] eqn:Hs'; simpl in Hs; [|discriminate].
    injection Hs as <-.
    inversion Hdiv as [? ? Hne|? ? k' np nq Ep Eq Hd]; subst.
    + apply get_same_head. unfold head in Hne at 1. rewrite E in Hne.
      rewrite lookup_insert_ne by done. unfold m1.
      destruct (bool_decide _); [done|]. by rewrite lookup_insert_ne.
    + rewrite E in Ep. injection Ep as <- <-.
      rewrite !(_recursive_get_dotted _ q _ _ _ Eq). simpl. rewrite lookup_insert_eq.
      rewrite (IH _ _ _ _ d Hs' Hd). f_equal. unfold m1.
      destruct (m !! k) as [x|] eqn:Hk.
      * rewrite bool_decide_eq_true_2 by eauto. by rewrite Hk.
      * rewrite bool_decide_eq_false_2 by (intros [? ?]; discriminate).
        by rewrite lookup_insert_eq.
Qed.

(** A [delete] that returns leaves the reads of diverging keys as they
    were. *)
Lemma del_frame key : forall data data' q d,
  _recursive_del data key = Ret data' -> diverge key q ->
  _recursive_get data' q d = _recursive_get data q d.
Proof.
  induction key as [key E|key k nk E IH] using key_ind; intros data data' q d Hs Hdiv.
  - rewrite _recursive_del_plain in Hs by done. unfold del_quiet in Hs.
    destruct data as [| | | | |m]; simpl in Hs; try discriminate.
    destruct (m !! key) eqn:Hk; injection Hs as <-; [|done].
    inversion Hdiv as [? ? Hne|? ? k' np nq Ep]; subst; [|congruence].
    apply get_same_head. unfold head in Hne at 1. rewrite E in Hne.
    by rewrite lookup_delete_ne.
  - rewrite (_recursive_del_dotted _ _ _ _ E) in Hs.
    destruct data as [| | |s|l|m]; simpl in Hs; try discriminate.
    { destruct (is_substring k s); simpl in Hs; [discriminate|]. by injection Hs as <-. }
    { destruct (existsb _ l); simpl in Hs; [discriminate|]. by injection Hs as <-. }
    destruct (m !! k) as [nd|] eqn:Hk.
    2:{ rewrite bool_decide_eq_false_2 in Hs by (intros [? ?]; discriminate).
        by injection Hs as <-. }
    rewrite bool_decide_eq_true_2 in Hs by eauto. simpl in Hs.
    destruct (_recursive_del nd nk) as [nd'|] eqn:Hs'; simpl in Hs; [|discriminate].
    injection Hs as <-.
    inversion Hdiv as [? ? Hne|? ? k' np nq Ep Eq Hd]; subst.
    + apply get_same_head. unfold head in Hne at 1. rewrite E in Hne.
      by rewrite lookup_insert_ne.
    + rewrite E in Ep. injection Ep as <- <-.
      rewrite !(_recursive_get_dotted _ q _ _ _ Eq). simpl. rewrite lookup_insert_eq, Hk.
      eapply IH; eassumption.
Qed.

(** A successful [set] leaves diverging keys walkable. *)
Lemma set_path_ok_frame key : forall data v data' q,
  _recursive_set data key v = Ret data' -> diverge key q ->
  path_ok data q -> path_ok data' q.
Proof.
  induction key as [key E|key k nk E IH] using key_ind; intros data v data' q Hs Hdiv Hok.
  - rewrite _recursive_set_plain in Hs by done.
    destruct data as [| | | | |m]; simpl in Hs; try discriminate. injection Hs as <-.
    inversion Hdiv as [? ? Hne|? ? k' np nq Ep]; subst; [|congruence].
    unfold head in Hne. rewrite E in Hne.
    inversion Hok as [? ? Eq|? ? kq nq Eq Hk|? ? kq nq nd Eq Hk Hnd]; subst.
    + by apply path_plain.
    + rewrite Eq in Hne. eapply path_absent; [exact Eq|]. by rewrite lookup_insert_ne.
    + rewrite Eq in Hne. eapply path_step; [exact Eq| |exact Hnd].
      by rewrite lookup_insert_ne.
  - rewrite (_recursive_set_dotted _ _ _ _ _ E) in Hs.
    destruct data as [| | |s|l|m]; simpl in Hs; try discriminate.
    { destruct (is_substring k s); simpl in Hs; discriminate. }
    { destruct (existsb _ l); simpl in Hs; discriminate. }
    set (m1 := if bool_decide (is_Some (m !! k)) then m else <[k := VMap ∅]> m).
    assert (Hm1 : (if bool_decide (is_Some (m !! k)) then Ret (VMap m)
                   else Ret (VMap (<[k := VMap ∅]> m))) = Ret (VMap m1))
      by (unfold m1; destruct (bool_decide _); reflexivity).
    rewrite Hm1 in Hs. simpl in Hs.
    assert (Hnext : match m1 !! k with Some x => x | None => VMap ∅ end =
                    match m !! k with Some x => x | None => VMap ∅ end).
    { unfold m1. destruct (m !! k) as [x|] eqn:Hk.
      - rewrite bool_decide_eq_true_2 by eauto. by rewrite Hk.
      - rewrite bool_decide_eq_false_2 by (intros [? ?]; discriminate).
        by rewrite lookup_insert_eq. }
    rewrite Hnext in Hs.
    destruct (_recursive_set _ nk v) as [nd'|] eqn:Hs'; simpl in Hs; [|discriminate].
    injection Hs as <-.
    assert (Hother : forall kq, kq <> k -> <[k := nd']> m1 !! kq = m !! kq).
    { intros kq Hne. rewrite lookup_insert_ne by done. unfold m1.
      destruct (bool_decide _); [done|]. by rewrite lookup_insert_ne. }
    assert (Hlater : forall nq, split1 q = Some (k, nq) -> diverge nk nq).
    { intros nq Eq. inversion Hdiv as [? ? Hne|? ? k' np nq' Ep Eq' Hd]; subst.
      - unfold head in Hne. rewrite E, Eq in Hne. done.
      - rewrite E in Ep. injection Ep as <- <-. rewrite Eq in Eq'. by injection Eq' as <-. }
    inversion Hok as [? ? Eq|? ? kq nq Eq Hk|? ? kq nq nd Eq Hk Hnd]; subst.
    + by apply path_plain.
    + destruct (decide (kq = k)) as [->|Hne].
      * eapply path_step; [exact Eq|apply lookup_insert_eq|].
        rewrite Hk in Hs'. eapply IH; [exact Hs'|by apply Hlater|apply path_ok_empty].
      * eapply path_absent; [exact Eq|]. by rewrite Hother.
    + destruct (decide (kq = k)) as [->|Hne].
      * eapply path_step; [exact Eq|apply lookup_insert_eq|].
        rewrite Hk in Hs'. eapply IH; [exact Hs'|by apply Hlater|exact Hnd].
      * eapply path_step; [exact Eq| |exact Hnd]. by rewrite Hother.
Qed.

Lemma setitem__path_ok_frame data key v data' q :
  setitem_ data key v = Ret data' -> diverge key q ->
  path_ok data q -> path_ok data' q.
Proof. unfold setitem_. rewrite set_recursive. apply set_path_ok_frame. Qed.

Lemma getitem__returns data key :
  path_ok data key -> exists r, getitem_ data key = Ret r.
Proof. unfold getitem_. rewrite get_recursive. apply get_returns. Qed.

Lemma setitem__returns data key v :
  path_ok data key -> exists data', setitem_ data key v = Ret data'.
Proof.
  unfold setitem_. rewrite set_recursive. intros Hok.
  destruct (set_returns key data v Hok) as [m' ->]. eauto.
Qed.


Lemma setitem__frame data key v data' q :
  setitem_ data key v = Ret data' -> diverge key q ->
  getitem_ data' q = getitem_ data q.
Proof.
  unfold setitem_, getitem_. rewrite set_recursive, !get_recursive. apply set_frame.
Qed.

Lemma delitem__frame data key data' q :
  delitem_ data key = Ret data' -> diverge key q ->
  getitem_ data' q = getitem_ data q.
Proof.
  unfold delitem_, getitem_. rewrite delete_recursive, !get_recursive. apply del_frame.
Qed.

Lemma setitem__getitem_ data key v data' :
  setitem_ data key v = Ret data' -> getitem_ data' key = Ret v.
Proof.
  unfold setitem_, getitem_. rewrite set_recursive, get_recursive. apply set_get.
Qed.

Lemma contains__getitem_ data key v :
  getitem_ data key = Ret v -> contains_ data key = Ret (is_not_None v).
Proof. unfold contains_. by intros ->. Qed.


(** Settles [diverge] on two given keys. *)
Ltac solve_diverge :=
  first [ apply diverge_here; vm_compute; discriminate
        | eapply diverge_later;
          [vm_compute; reflexivity | vm_compute; reflexivity | solve_diverge] ].


(** *** When the walkers return *)

(** A read that returns has walked through mappings only. *)
Lemma get_Ret_path_ok key : forall data d r,
  _recursive_get data key d = Ret r -> path_ok data key.
Proof.
  induction key as [key E|key k nk E IH] using key_ind; intros data d r.
  - rewrite _recursive_get_plain by done.
    destruct data; simpl; try discriminate. intros _. by apply path_plain.
  - rewrite (_recursive_get_dotted _ _ _ _ _ E).
    destruct data as [| | | | |m]; simpl; try discriminate.
    destruct (m !! k) as [nd|] eqn:Hk; intros Hr.
    + eapply path_step; [exact E|exact Hk|]. eapply IH, Hr.
    + by eapply path_absent.
Qed.

(** A read raises nothing but [AttributeError]. *)
Lemma get_Raise key : forall data d e,
  _recursive_get data key d = Raise e -> e = AttributeError.
Proof.
  induction key as [key E|key k nk E IH] using key_ind; intros data d e.
  - rewrite _recursive_get_plain by done. destruct data; simpl; congruence.
  - rewrite (_recursive_get_dotted _ _ _ _ _ E).
    destruct data as [| | | | |m]; simpl; try congruence. apply IH.
Qed.

(** A write that returns has walked through mappings only. *)
Lemma set_Ret_path_ok key : forall data v data',
  _recursive_set data key v = Ret data' -> path_ok data key.
Proof.
  induction key as [key E|key k nk E IH] using key_ind; intros data v data'.
  - rewrite _recursive_set_plain by done.
    destruct data; simpl; try discriminate. intros _. by apply path_plain.
  - rewrite (_recursive_set_dotted _ _ _ _ _ E).
    destruct data as [| | |s|l|m]; simpl; try discriminate.
    { destruct (is_substring k s); simpl; discriminate. }
    { destruct (existsb _ l); simpl; discriminate. }
    destruct (m !! k) as [nd|] eqn:Hk.
    + rewrite bool_decide_eq_true_2 by eauto. simpl. rewrite Hk.
      destruct (_recursive_set nd nk v) as [nd'|] eqn:Hs; simpl; [|discriminate].
      intros _. eapply path_step; [exact E|exact Hk|]. eapply IH, Hs.
    + intros _. by eapply path_absent.
Qed.

(** A write raises [TypeError] or [AttributeError], nothing else. *)
Lemma set_Raise key : forall data v e,
  _recursive_set data key v = Raise e -> e = TypeError \/ e = AttributeError.
Proof.
  induction key as [key E|key k nk E IH] using key_ind; intros data v e.
  - rewrite _recursive_set_plain by done. destruct data; simpl; intros [= <-]; by left.
  - rewrite (_recursive_set_dotted _ _ _ _ _ E).
    destruct data as [| | |s|l|m]; simpl; try (intros [= <-]; by left).
    { destruct (is_substring k s); simpl; intros [= <-]; [by right|by left]. }
    { destruct (existsb _ l); simpl; intros [= <-]; [by right|by left]. }
    destruct (bool_decide (is_Some (m !! k))); simpl;
      destruct (_recursive_set _ nk v) as [nd'|e'] eqn:Hs; simpl; try discriminate;
      intros [= <-]; eapply IH, Hs.
Qed.

(** On a walkable path, [delete] returns a document in which the key
    reads as the default and the path is walkable still. *)
Lemma del_get key : forall data d,
  path_ok data key ->
  exists data', _recursive_del data key = Ret data' /\
                _recursive_get data' key d = Ret d /\ path_ok data' key.
Proof.
  induction key as [key E|key k nk E IH] using key_ind; intros data d Hok.
  - rewrite _recursive_del_plain by done.
    inversion Hok as [m ? E'|m ? k' nk' E' Hk|m ? k' nk' nd E' Hk Hnd]; subst;
      try congruence.
    unfold del_quiet, delitem. destruct (m !! key) eqn:Hk; eexists;
      (split; [reflexivity|]); rewrite _recursive_get_plain by done; simpl.
    + rewrite lookup_delete_eq. split; [done|by apply path_plain].
    + rewrite Hk. split; [done|by apply path_plain].
  - rewrite (_recursive_del_dotted _ _ _ _ E).
    inversion Hok as [m ? E'|m ? k' nk' E' Hk|m ? k' nk' nd E' Hk Hnd]; subst;
      [congruence| |]; rewrite E in E'; injection E' as <- <-; simpl.
    + rewrite bool_decide_eq_false_2 by (rewrite Hk; intros [? ?]; discriminate).
      eexists. split; [reflexivity|]. split; [|exact Hok].
      apply get_absent. by eapply absent_here.
    + rewrite bool_decide_eq_true_2 by (rewrite Hk; eauto). rewrite Hk. simpl.
      destruct (IH nd d Hnd) as (nd' & -> & Hget & Hok'). simpl.
      eexists. split; [reflexivity|].
      rewrite (_recursive_get_dotted _ _ _ _ _ E). simpl. rewrite lookup_insert_eq.
      split; [exact Hget|]. eapply path_step; [exact E|apply lookup_insert_eq|exact Hok'].
Qed.

(** A walkable path is walkable up to each of its dotted prefixes. *)
Lemma path_ok_prefix key : forall data p,
  dotted_prefix p key -> path_ok data key -> path_ok data p.
Proof.
  induction key as [key E|key k nk E IH] using key_ind; intros data p [rest ->] Hok.
  - rewrite split1_app in E. destruct (split1 p) as [[? ?]|]; discriminate.
  - rewrite split1_app in E. destruct (split1 p) as [[k0 p']|] eqn:Ep.
    + injection E as -> <-.
      inversion Hok as [m ? E'|m ? k' nk' E' Hk|m ? k' nk' nd E' Hk Hnd]; subst;
        rewrite split1_app, Ep in E'; try discriminate; injection E' as <- <-.
      * by eapply path_absent.
      * eapply path_step; [exact Ep|exact Hk|]. eapply IH; [|exact Hnd]. by exists rest.
    + inversion Hok; subst; by apply path_plain.
Qed.

(** [set] keeps the path of its key walkable. *)
Lemma set_path_ok key : forall data v data',
  _recursive_set data key v = Ret data' -> path_ok data' key.
Proof.
  intros data v data' Hs. eapply get_Ret_path_ok. eapply (set_get _ _ _ _ VNone), Hs.
Qed.


(** Deleting a second time changes nothing. *)
Lemma del_del key : forall data data',
  _recursive_del data key = Ret data' -> _recursive_del data' key = Ret data'.
Proof.
  induction key as [key E|key k nk E IH] using key_ind; intros data data'.
  - rewrite !_recursive_del_plain by done. unfold del_quiet, delitem.
    destruct data as [| | | | |m]; try discriminate.
    destruct (m !! key) eqn:Hk.
    + intros [= <-]. by rewrite lookup_delete_eq.
    + intros [= <-]. by rewrite Hk.
  - rewrite !(_recursive_del_dotted _ _ _ _ E).
    destruct data as [| | |s|l|m]; try discriminate; simpl.
    + destruct (is_substring k s) eqn:Hs; simpl; [discriminate|].
      intros [= <-]. simpl. by rewrite Hs.
    + destruct (existsb _ l) eqn:Hl; simpl; [discriminate|].
      intros [= <-]. simpl. by rewrite Hl.
    + destruct (m !! k) as [nd|] eqn:Hk.
      * rewrite bool_decide_eq_true_2 by eauto. simpl.
        destruct (_recursive_del nd nk) as [nd'|] eqn:Hdel; simpl; [|discriminate].
        intros [= <-]. simpl.
        rewrite bool_decide_eq_true_2 by (rewrite lookup_insert_eq; eauto).
        rewrite lookup_insert_eq. simpl. rewrite (IH _ _ Hdel). simpl.
        by rewrite insert_insert_eq.
      * rewrite bool_decide_eq_false_2 by (intros [? ?]; discriminate).
        intros [= <-]. simpl. rewrite Hk.
        by rewrite bool_decide_eq_false_2 by (intros [? ?]; discriminate).
Qed.

(** *** Flat and dotted names *)

Lemma split1_head_shorter key k next_key :
  split1 key = Some (k, next_key) -> String.length k < String.length key.
Proof.
  revert k next_key. induction key as [|c rest IH]; intros k nk; simpl; [discriminate|].
  destruct (Ascii.eqb c "."%char).
  - intros [= <- <-]. simpl. lia.
  - destruct (split1 rest) as [[k' nk']|] eqn:E; [|discriminate].
    intros [= <- <-]. specialize (IH _ _ eq_refl). simpl. lia.
Qed.

Lemma head_dotted key : is_Some (split1 key) -> head key <> key.
Proof.
  intros [[k nk] E] Heq. unfold head in Heq. rewrite E in Heq. subst k.
  apply split1_head_shorter in E. lia.
Qed.

(** A write under the flat name of a dotted key, with the recursion
    switched off, is read back under the flat name and leaves the dotted
    reading of the key as it was. *)
Lemma set_flat_get data key v data' d :
  is_Some (split1 key) -> set data key v false = Ret data' ->
  get data' key d false = Ret v /\
  get data' key d true = get data key d true.
Proof.
  intros Hdot. unfold set. simpl. destruct data as [| | | | |m]; try discriminate.
  intros [= <-]. split.
  - unfold get. simpl. by rewrite lookup_insert_eq.
  - rewrite !get_recursive. apply get_same_head.
    apply lookup_insert_ne. intros Heq. by apply (head_dotted key).
Qed.

(** A write along a dotted key leaves the flat name of the key as it
    was. *)
Lemma set_dotted_get_flat data key v data' d :
  is_Some (split1 key) -> set data key v true = Ret data' ->
  get data' key d false = get data key d false.
Proof.
  intros Hdot. pose proof (head_dotted _ Hdot) as Hne.
  destruct Hdot as [[k nk] E]. unfold head in Hne. rewrite E in Hne.
  rewrite set_recursive, (_recursive_set_dotted _ _ _ _ _ E).
  unfold get. simpl.
  destruct data as [| | |s|l|m]; try discriminate; simpl.
  - destruct (is_substring k s); discriminate.
  - destruct (existsb _ l); discriminate.
  - destruct (m !! k) as [nd|] eqn:Hk.
    + rewrite bool_decide_eq_true_2 by eauto. simpl. rewrite Hk.
      destruct (_recursive_set nd nk v) as [nd'|]; simpl; [|discriminate].
      intros [= <-]. simpl. by rewrite lookup_insert_ne.
    + rewrite bool_decide_eq_false_2 by (intros [? ?]; discriminate). simpl.
      rewrite lookup_insert_eq.
      destruct (_recursive_set (VMap ∅) nk v) as [nd'|]; simpl; [|discriminate].
      intros [= <-]. simpl. by rewrite !lookup_insert_ne.
Qed.

(** Whether a key is [in] the document after a write: a key that holds
    [None] is not. *)
Lemma setitem__contains_ data key v data' :
  setitem_ data key v = Ret data' -> contains_ data' key = Ret (is_not_None v).
Proof. intros Hset. apply contains__getitem_. eapply setitem__getitem_, Hset. Qed.


End DictWithRecursion.

(** ** [Config]: loading, migration and permission resolution *)

Module Config.
Import Py.

(** What the code takes from its libraries. *)
Class Runtime := {
  (** [yaml.load(stream)] on the text of a file. *)
  yaml_load : string -> result value;
  (** [yaml.dump(data, stream)]: the text written. *)
  yaml_dump : value -> string;
  (** The token the [n]-th call of [_new_token] draws: 64 characters chosen
      by [random.choice]. *)
  new_token : nat -> string;
  (** The text an f-string puts for [{v}]. *)
  format : value -> string;
  (** Whether [open(path, 'w')] succeeds. *)
  writable : string -> bool;
}.

(** A [Config] object, the files it works on, and how many tokens have
    been drawn. *)
Record state := {
  _data : value;
  path : string;
  registration_path : string;
  base_path : string;
  _registration : value;
  files : gmap string string;
  drawn : nat;
}.

Definition with_data (d : value) (s : state) : state :=
  {| _data := d; path := path s; registration_path := registration_path s;
     base_path := base_path s; _registration := _registration s;
     files := files s; drawn := drawn s |}.

Definition with_files (f : gmap string string) (s : state) : state :=
  {| _data := _data s; path := path s; registration_path := registration_path s;
     base_path := base_path s; _registration := _registration s;
     files := f; drawn := drawn s |}.

Definition with_drawn (n : nat) (s : state) : state :=
  {| _data := _data s; path := path s; registration_path := registration_path s;
     base_path := base_path s; _registration := _registration s;
     files := files s; drawn := n |}.

(** [Config.__init__]. *)
Definition init (path registration_path base_path : string)
  (files : gmap string string) (drawn : nat) : state :=
  {| _data := DictWithRecursion.init VNone; path := path;
     registration_path := registration_path; base_path := base_path;
     _registration := VNone; files := files; drawn := drawn |}.

(** [v] is the list of strings [l], or is absent and [l] is empty. *)
Definition string_list (v : value) (l : list string) : Prop :=
  (v = VNone /\ l = []) \/ v = VList (VStr <$> l).

(** A source document that holds the two legacy lists and nothing else. *)
Definition legacy_source (whitelist admins : list string) : value :=
  VMap {["bridge" := VMap {["whitelist" := VList (VStr <$> whitelist);
                           "admins" := VList (VStr <$> admins)]}]}.

Section WithRuntime.
Context `{Runtime}.
Local Open Scope pym_scope.

(** [open(p, 'r')] and reading the stream. *)
Definition open_read (p : string) : M state string :=
  fun s => match files s !! p with
           | Some text => (Ret text, s)
           | None => (Raise OSError, s)
           end.

(** [with open(p, 'w') as stream: yaml.dump(v, stream)]. *)
Definition dump_to (p : string) (v : value) : M state unit :=
  fun s => if writable p
           then (Ret tt, with_files (<[p := yaml_dump v]> (files s)) s)
           else (Raise OSError, s).

(** [Config.load]. *)
Definition load : M state unit :=
  p <- gets path ;;
  text <- open_read p ;;
  v <- lift (yaml_load text) ;;
  modify (with_data v).

(** [Config.load_base]: the backing store of the loaded template, or
    [None]. *)
Definition load_base : M state (option value) :=
  try_except
    (p <- gets base_path ;;
     text <- open_read p ;;
     v <- lift (yaml_load text) ;;
     ret (Some (DictWithRecursion.init v)))
    (fun e => match e with OSError => Some (ret None) | _ => None end).

(** [Config.save]. *)
Definition save : M state unit :=
  p <- gets path ;;
  d <- gets _data ;;
  dump_to p d ;;;
  reg <- gets _registration ;;
  rp <- gets registration_path ;;
  if truthy reg && negb (String.eqb rp "") then dump_to rp reg else ret tt.

(** [Config._new_token]. *)
Definition _new_token : M state string :=
  n <- gets drawn ;;
  modify (with_drawn (S n)) ;;;
  ret (new_token n).

(** [self[key]], [key in self] and [del self[key]] on the object. *)
Definition self_getitem (key : string) : M state value :=
  d <- gets _data ;; lift (DictWithRecursion.getitem_ d key).

Definition self_contains (key : string) : M state bool :=
  d <- gets _data ;; lift (DictWithRecursion.contains_ d key).

Definition self_delitem (key : string) : M state unit :=
  d <- gets _data ;;
  d' <- lift (DictWithRecursion.delitem_ d key) ;;
  modify (with_data d').

(** *** The steps of [update]

    A step takes the backing store of [base] and returns it as the step
    leaves it. *)
Definition step : Type := value -> M state value.

(** The local function [copy] of [update]. *)
Definition copy (from_path : string) (to_path : option string) : step :=
  fun base =>
    c <- self_contains from_path ;;
    if c then
      v <- self_getitem from_path ;;
      lift (DictWithRecursion.setitem_ base (default from_path to_path) v)
    else ret base.

(** [base[to_path][key] = value]: the object read from [base] is changed
    in place; when it is a mapping it is the one held at [to_path]. *)
Definition base_set_entry (to_path : string) (base : value) (kv : string * value)
  : result value :=
  (target <- DictWithRecursion.getitem_ base to_path ;;
   target' <- setitem target (fst kv) (snd kv) ;;
   DictWithRecursion.setitem_ base to_path target')%py.

(** A [for] loop whose body may raise. *)
Fixpoint for_each {A B} (body : B -> A -> result B) (l : list A) (acc : B) : result B :=
  match l with
  | [] => Ret acc
  | x :: l' => (acc' <- body acc x ;; for_each body l' acc')%py
  end.

(** The local function [copy_dict] of [update]. *)
Definition copy_dict (from_path : string) (to_path : option string)
  (override_existing_map : bool) : step :=
  fun base =>
    c <- self_contains from_path ;;
    if c then
      let to_path := default from_path to_path in
      fresh <- (if override_existing_map then ret true
                else (cb <- lift (DictWithRecursion.contains_ base to_path) ;; ret (negb cb))) ;;
      base1 <- (if fresh : bool
                then lift (DictWithRecursion.setitem_ base to_path (VMap ∅))
                else ret base) ;;
      src <- self_getitem from_path ;;
      kvs <- lift (items src) ;;
      lift (for_each (base_set_entry to_path) kvs base1)
    else ret base.

(** The unified appservice address. *)
Definition step_address : step :=
  fun base =>
    has_protocol <- self_contains "appservice.protocol" ;;
    legacy <- (if has_protocol : bool
               then (has_address <- self_contains "appservice.address" ;; ret (negb has_address))
               else ret false) ;;
    if legacy : bool then
      protocol <- self_getitem "appservice.protocol" ;;
      hostname <- self_getitem "appservice.hostname" ;;
      port <- self_getitem "appservice.port" ;;
      lift (DictWithRecursion.setitem_ base "appservice.address"
              (VStr (format protocol +:+ "://" +:+ format hostname +:+ ":" +:+ format port)))
    else copy "appservice.address" None base.

(** The provisioning secret: the sentinel is replaced by a new token. *)
Definition step_shared_secret : step :=
  fun base =>
    secret <- lift (DictWithRecursion.getitem_ base "appservice.provisioning.shared_secret") ;;
    if eq_str secret "generate" then
      token <- _new_token ;;
      lift (DictWithRecursion.setitem_ base "appservice.provisioning.shared_secret" (VStr token))
    else ret base.

(** The message formats: a legacy flat key drops the source's subtree. *)
Definition step_message_formats : step :=
  fun base =>
    legacy <- self_contains "bridge.message_formats.m_text" ;;
    (if legacy : bool then self_delitem "bridge.message_formats" else ret tt) ;;;
    copy_dict "bridge.message_formats" None false base.

(** A [for] loop of a method. *)
Fixpoint for_eachM {A B} (body : B -> A -> M state B) (l : list A) (acc : B) : M state B :=
  match l with
  | [] => ret acc
  | x :: l' => acc' <- body acc x ;; for_eachM body l' acc'
  end.

(** [for entry in entries: permissions[entry] = level].  When the source
    has a permission map, [permissions] is that very object ([aliased]),
    and each assignment shows in the source document too. *)
Definition assign_all (level : string) (aliased : bool) (entries : list value)
  (permissions : value) : M state value :=
  for_eachM
    (fun perms entry =>
       perms' <- lift (setitem_obj perms entry (VStr level)) ;;
       (if aliased then
          d <- gets _data ;;
          d' <- lift (DictWithRecursion.setitem_ d "bridge.permissions" perms') ;;
          modify (with_data d')
        else ret tt) ;;;
       ret perms')
    entries permissions.

(** The permission map. *)
Definition step_permissions : step :=
  fun base =>
    has_permissions <- self_contains "bridge.permissions" ;;
    migrate_permissions <-
      (if has_permissions : bool then
         has_whitelist <- self_contains "bridge.whitelist" ;;
         if has_whitelist : bool then ret true else self_contains "bridge.admins"
       else ret true) ;;
    if migrate_permissions : bool then
      p <- self_getitem "bridge.permissions" ;;
      let aliased := truthy p in
      let permissions := or_else p (VMap ∅) in
      w <- self_getitem "bridge.whitelist" ;;
      whitelist <- lift (iterate (or_else w (VList []))) ;;
      permissions <- assign_all "full" aliased whitelist permissions ;;
      a <- self_getitem "bridge.admins" ;;
      admins <- lift (iterate (or_else a (VList []))) ;;
      permissions <- assign_all "admin" aliased admins permissions ;;
      lift (DictWithRecursion.setitem_ base "bridge.permissions" permissions)
    else copy_dict "bridge.permissions" None true base.

(** Steps in sequence. *)
Fixpoint run_steps (steps : list step) (base : value) : M state value :=
  match steps with
  | [] => ret base
  | f :: steps' => base' <- f base ;; run_steps steps' base'
  end.

(** The relay bot settings. *)
Definition step_relaybot : step :=
  fun base =>
    has_relaybot <- self_contains "bridge.relaybot" ;;
    if has_relaybot : bool then
      run_steps
        [ copy "bridge.relaybot.authless_portals" None;
          copy "bridge.relaybot.whitelist_group_admins" None;
          copy "bridge.relaybot.whitelist" None;
          copy "bridge.relaybot.ignore_own_incoming_events" None ] base
    else
      copy "bridge.authless_relaybot_portals" (Some "bridge.relaybot.authless_portals") base.

(** The logging configuration. *)
Definition step_logging : step :=
  fun base =>
    has_debug <- self_contains "appservice.debug" ;;
    legacy <- (if has_debug : bool
               then (has_logging <- self_contains "logging" ;; ret (negb has_logging))
               else ret false) ;;
    if legacy : bool then
      debug <- self_getitem "appservice.debug" ;;
      let level := VStr (if truthy debug then "DEBUG" else "INFO") in
      base <- lift (DictWithRecursion.setitem_ base "logging.root.level" level) ;;
      base <- lift (DictWithRecursion.setitem_ base "logging.loggers.mau.level" level) ;;
      lift (DictWithRecursion.setitem_ base "logging.loggers.telethon.level" level)
    else copy "logging" None base.

(** The body of [update] before the permission map, in source order. *)
Definition steps_before_permissions : list step :=
  [ copy "homeserver.address" None;
    copy "homeserver.verify_ssl" None;
    copy "homeserver.domain" None;
    step_address;
    copy "appservice.hostname" None;
    copy "appservice.port" None;
    copy "appservice.database" None;
    copy "appservice.public.enabled" None;
    copy "appservice.public.prefix" None;
    copy "appservice.public.external" None;
    copy "appservice.provisioning.enabled" None;
    copy "appservice.provisioning.prefix" None;
    copy "appservice.provisioning.shared_secret" None;
    step_shared_secret;
    copy "appservice.id" None;
    copy "appservice.bot_username" None;
    copy "appservice.bot_displayname" None;
    copy "appservice.bot_avatar" None;
    copy "appservice.as_token" None;
    copy "appservice.hs_token" None;
    copy "bridge.username_template" None;
    copy "bridge.alias_template" None;
    copy "bridge.displayname_template" None;
    copy "bridge.displayname_preference" None;
    copy "bridge.edits_as_replies" None;
    copy "bridge.highlight_edits" None;
    copy "bridge.bridge_notices" None;
    copy "bridge.bot_messages_as_notices" None;
    copy "bridge.max_initial_member_sync" None;
    copy "bridge.sync_channel_members" None;
    copy "bridge.max_telegram_delete" None;
    copy "bridge.allow_matrix_login" None;
    copy "bridge.inline_images" None;
    copy "bridge.plaintext_highlights" None;
    copy "bridge.public_portals" None;
    copy "bridge.native_stickers" None;
    copy "bridge.catch_up" None;
    copy "bridge.sync_with_custom_puppets" None;
    step_message_formats;
    copy "bridge.state_event_formats.join" None;
    copy "bridge.state_event_formats.leave" None;
    copy "bridge.state_event_formats.name_change" None;
    copy "bridge.filter.mode" None;
    copy "bridge.filter.list" None;
    copy "bridge.command_prefix" None ].

(** The body of [update] after the permission map, in source order. *)
Definition steps_after_permissions : list step :=
  [ step_relaybot;
    copy "telegram.api_id" None;
    copy "telegram.api_hash" None;
    copy "telegram.bot_token" None;
    copy "telegram.proxy.type" None;
    copy "telegram.proxy.address" None;
    copy "telegram.proxy.port" None;
    copy "telegram.proxy.rdns" None;
    copy "telegram.proxy.username" None;
    copy "telegram.proxy.password" None;
    step_logging ].

(** [Config.update].  [base] is an object or [None], so [not base] holds
    for [None] only. *)
Definition update : M state unit :=
  base <- load_base ;;
  match base with
  | None => ret tt
  | Some base =>
      base <- run_steps
                (steps_before_permissions ++ step_permissions :: steps_after_permissions)
                base ;;
      modify (with_data base) ;;;
      save
  end.

(** *** What the steps of [update] leave alone *)

Lemma self_contains_run key s :
  self_contains key s = (DictWithRecursion.contains_ (_data s) key, s).
Proof. reflexivity. Qed.

Lemma self_getitem_run key s :
  self_getitem key s = (DictWithRecursion.getitem_ (_data s) key, s).
Proof. reflexivity. Qed.

(** Case analysis along an unfolded run. *)
Ltac run_cases :=
  repeat (match goal with
          | |- context [match ?x with _ => _ end] =>
              lazymatch x with
              | context [match _ with _ => _ end] => fail
              | _ => destruct x eqn:?
              end
          end; simpl).

Ltac unfold_run :=
  unfold bind, self_contains, self_getitem, gets, lift, ret, modify; simpl.

Lemma copy_state from_path to_path base s r s' :
  copy from_path to_path base s = (r, s') -> s' = s.
Proof. unfold copy. unfold_run. run_cases. all: congruence. Qed.

Lemma copy_dict_state from_path to_path override base s r s' :
  copy_dict from_path to_path override base s = (r, s') -> s' = s.
Proof. unfold copy_dict. unfold_run. run_cases. all: congruence. Qed.

Lemma step_address_state base s r s' :
  step_address base s = (r, s') -> s' = s.
Proof. unfold step_address, copy. unfold_run. run_cases. all: congruence. Qed.

Lemma step_shared_secret_data base s r s' :
  step_shared_secret base s = (r, s') -> _data s' = _data s.
Proof.
  unfold step_shared_secret, bind, lift.
  destruct (DictWithRecursion.getitem_ _ _) as [secret|]; simpl; [|by intros [= _ <-]].
  destruct (eq_str secret "generate"); simpl; [|by intros [= _ <-]].
  destruct (DictWithRecursion.setitem_ _ _ _); by intros [= _ <-].
Qed.

(** [s'] reads as [s] at the key [q] of the source document. *)
Definition same_source_at (q : string) (s s' : state) : Prop :=
  DictWithRecursion.getitem_ (_data s') q = DictWithRecursion.getitem_ (_data s) q.

(** A step keeps the source at [q]. *)
Definition keeps_source (q : string) (f : step) : Prop :=
  forall base s r s', f base s = (r, s') -> same_source_at q s s'.

Lemma same_data_source q s s' : _data s' = _data s -> same_source_at q s s'.
Proof. unfold same_source_at. by intros ->. Qed.

Lemma copy_keeps_source q from_path to_path : keeps_source q (copy from_path to_path).
Proof. intros base s r s' Hrun. apply copy_state in Hrun. by subst. Qed.

Lemma step_address_keeps_source q : keeps_source q step_address.
Proof. intros base s r s' Hrun. apply step_address_state in Hrun. by subst. Qed.

Lemma step_shared_secret_keeps_source q : keeps_source q step_shared_secret.
Proof.
  intros base s r s' Hrun. apply same_data_source. eapply step_shared_secret_data, Hrun.
Qed.

Lemma step_message_formats_keeps_source q :
  DictWithRecursion.diverge "bridge.message_formats" q ->
  keeps_source q step_message_formats.
Proof.
  intros Hdiv base s r s'. unfold step_message_formats, bind. rewrite self_contains_run.
  destruct (DictWithRecursion.contains_ _ _) as [[|]|]; simpl; unfold ret.
  - unfold self_delitem, bind, gets, lift. simpl.
    destruct (DictWithRecursion.delitem_ _ _) as [d'|] eqn:Hdel; simpl.
    + intros Hrun. apply copy_dict_state in Hrun. subst s'. unfold same_source_at. simpl.
      eapply DictWithRecursion.delitem__frame; eassumption.
    + intros [= _ <-]. reflexivity.
  - intros Hrun. apply copy_dict_state in Hrun. by subst.
  - intros [= _ <-]. reflexivity.
Qed.

Lemma run_steps_keeps_source q steps :
  Forall (keeps_source q) steps -> keeps_source q (run_steps steps).
Proof.
  induction 1 as [|f steps Hf _ IH]; intros base s r s'; simpl.
  - unfold ret. by intros [= _ <-].
  - unfold bind. destruct (f base s) as [[base1|e] s1] eqn:Hrun.
    + intros Hrest. unfold same_source_at.
      rewrite (IH _ _ _ _ Hrest). eapply Hf, Hrun.
    + intros [= _ <-]. eapply Hf, Hrun.
Qed.

Lemma steps_before_permissions_keep_source q :
  DictWithRecursion.diverge "bridge.message_formats" q ->
  keeps_source q (run_steps steps_before_permissions).
Proof.
  intros Hdiv. apply run_steps_keeps_source. unfold steps_before_permissions.
  repeat (apply Forall_cons; split;
          [first [ apply copy_keeps_source | apply step_address_keeps_source
                 | apply step_shared_secret_keeps_source
                 | by apply step_message_formats_keeps_source ]|]).
  apply Forall_nil_2.
Qed.

(** A step keeps what [base] holds at [q]. *)
Definition keeps_base (q : string) (f : step) : Prop :=
  forall base s base' s', f base s = (Ret base', s') ->
    DictWithRecursion.getitem_ base' q = DictWithRecursion.getitem_ base q.

Lemma copy_keeps_base q from_path to_path :
  DictWithRecursion.diverge (default from_path to_path) q ->
  keeps_base q (copy from_path to_path).
Proof.
  intros Hdiv base s base' s'. unfold copy. unfold_run. run_cases.
  all: intros [= Hset _]; subst; try reflexivity.
  eapply DictWithRecursion.setitem__frame; eassumption.
Qed.

Lemma run_steps_keeps_base q steps :
  Forall (keeps_base q) steps -> keeps_base q (run_steps steps).
Proof.
  induction 1 as [|f steps Hf _ IH]; intros base s base' s'; simpl.
  - unfold ret. by intros [= <- _].
  - intros Hrun. apply bind_Ret in Hrun as (base1 & s1 & Hf1 & Hrest).
    rewrite (IH _ _ _ _ Hrest). eapply Hf, Hf1.
Qed.

Lemma run_steps_app steps1 steps2 base s :
  run_steps (steps1 ++ steps2) base s =
    (base1 <- run_steps steps1 base ;; run_steps steps2 base1) s.
Proof.
  revert base s. induction steps1 as [|f steps1 IH]; intros base s; simpl.
  - reflexivity.
  - unfold bind in *. destruct (f base s) as [[base1|e] s1]; [|reflexivity].
    apply IH.
Qed.


Lemma step_relaybot_keeps_base : keeps_base "bridge.permissions" step_relaybot.
Proof.
  intros base s base' s' Hrun. unfold step_relaybot in Hrun.
  apply bind_Ret in Hrun as (c & s1 & _ & Hrun). destruct c.
  - eapply run_steps_keeps_base; [|exact Hrun].
    repeat (apply Forall_cons; split;
            [apply copy_keeps_base; DictWithRecursion.solve_diverge|]).
    apply Forall_nil_2.
  - eapply copy_keeps_base; [|exact Hrun]. DictWithRecursion.solve_diverge.
Qed.

Lemma step_logging_keeps_base : keeps_base "bridge.permissions" step_logging.
Proof.
  intros base s base' s' Hrun. unfold step_logging in Hrun.
  apply bind_Ret in Hrun as (c & s1 & _ & Hrun).
  apply bind_Ret in Hrun as (legacy & s2 & _ & Hrun). destruct legacy.
  - apply bind_Ret in Hrun as (debug & s3 & _ & Hrun).
    apply bind_Ret in Hrun as (base1 & s4 & [H1 _]%lift_Ret & Hrun).
    apply bind_Ret in Hrun as (base2 & s5 & [H2 _]%lift_Ret & Hrun).
    apply lift_Ret in Hrun as [H3 _].
    rewrite (DictWithRecursion.setitem__frame _ _ _ _ _ H3) by DictWithRecursion.solve_diverge.
    rewrite (DictWithRecursion.setitem__frame _ _ _ _ _ H2) by DictWithRecursion.solve_diverge.
    apply (DictWithRecursion.setitem__frame _ _ _ _ _ H1). DictWithRecursion.solve_diverge.
  - eapply copy_keeps_base; [|exact Hrun]. DictWithRecursion.solve_diverge.
Qed.

Lemma steps_after_permissions_keep_base :
  keeps_base "bridge.permissions" (run_steps steps_after_permissions).
Proof.
  apply run_steps_keeps_base. unfold steps_after_permissions.
  repeat (apply Forall_cons; split;
          [first [ apply step_relaybot_keeps_base | apply step_logging_keeps_base
                 | apply copy_keeps_base; DictWithRecursion.solve_diverge ]|]).
  apply Forall_nil_2.
Qed.

(** *** The permission step *)

Lemma iterate_string_list v l :
  string_list v l -> iterate (or_else v (VList [])) = Ret (VStr <$> l).
Proof.
  intros [[-> ->]| ->]; [reflexivity|]. destruct l; reflexivity.
Qed.


(** The map after [for e in entries: permissions[e] = level]. *)
Definition assigned (level : string) (entries : list string) (m : gmap string value)
  : gmap string value :=
  foldl (fun acc e => <[e := VStr level]> acc) m entries.

Lemma assign_all_run level aliased entries : forall m s perms' s',
  assign_all level aliased (VStr <$> entries) (VMap m) s = (Ret perms', s') ->
  perms' = VMap (assigned level entries m) /\
  forall q, DictWithRecursion.diverge "bridge.permissions" q -> same_source_at q s s'.
Proof.
  induction entries as [|e entries IH]; intros m s perms' s'; unfold assign_all; simpl.
  - unfold ret. intros [= <- <-]. done.
  - intros Hrun. apply bind_Ret in Hrun as (perms1 & s1 & Hbody & Hrest).
    apply bind_Ret in Hbody as (perms1' & s0 & [Hset ->]%lift_Ret & Hbody).
    simpl in Hset. injection Hset as <-.
    apply bind_Ret in Hbody as ([] & s2 & Hwrite & Hret).
    unfold ret in Hret. injection Hret as <- <-.
    apply IH in Hrest as [-> Hsrc]. split; [reflexivity|].
    intros q Hq. unfold same_source_at in *. rewrite (Hsrc q Hq).
    destruct aliased.
    + apply bind_Ret in Hwrite as (d & s3 & Hd & Hwrite).
      unfold gets in Hd. injection Hd as <- <-.
      apply bind_Ret in Hwrite as (d' & s4 & [Hd' ->]%lift_Ret & Hmod).
      unfold modify in Hmod. injection Hmod as <-. simpl.
      eapply DictWithRecursion.setitem__frame; eassumption.
    + unfold ret in Hwrite. by injection Hwrite as <-.
Qed.

Lemma step_permissions_run base s base' s' p w a m0 whitelist admins :
  DictWithRecursion.getitem_ (_data s) "bridge.permissions" = Ret p ->
  DictWithRecursion.getitem_ (_data s) "bridge.whitelist" = Ret w ->
  DictWithRecursion.getitem_ (_data s) "bridge.admins" = Ret a ->
  p = VNone \/ w <> VNone \/ a <> VNone ->
  or_else p (VMap ∅) = VMap m0 ->
  string_list w whitelist ->
  string_list a admins ->
  step_permissions base s = (Ret base', s') ->
  DictWithRecursion.getitem_ base' "bridge.permissions" =
    Ret (VMap (assigned "admin" admins (assigned "full" whitelist m0))).
Proof.
  intros Hp Hw Ha Hmig Hm0 Hwl Had Hrun. unfold step_permissions in Hrun.
  apply bind_Ret in Hrun as (has_p & s1 & H1 & Hrun).
  rewrite self_contains_run, (DictWithRecursion.contains__getitem_ _ _ _ Hp) in H1.
  injection H1 as <- <-.
  apply bind_Ret in Hrun as (mig & s1 & Hmigrate & Hrun).
  assert (mig = true /\ s1 = s) as [-> ->].
  { destruct (is_not_None p) eqn:Ep.
    - apply bind_Ret in Hmigrate as (has_w & s2 & H2 & Hmigrate).
      rewrite self_contains_run, (DictWithRecursion.contains__getitem_ _ _ _ Hw) in H2.
      injection H2 as <- <-.
      destruct (is_not_None w) eqn:Ew.
      + unfold ret in Hmigrate. by injection Hmigrate as <- <-.
      + rewrite self_contains_run, (DictWithRecursion.contains__getitem_ _ _ _ Ha)
          in Hmigrate.
        injection Hmigrate as <- <-. split; [|done].
        destruct Hmig as [->|[Hne|Hne]]; [discriminate| |].
        * destruct w; done.
        * destruct a; done.
    - unfold ret in Hmigrate. by injection Hmigrate as <- <-. }
  apply bind_Ret in Hrun as (p' & s1 & Hp' & Hrun).
  rewrite self_getitem_run, Hp in Hp'. injection Hp' as <- <-.
  apply bind_Ret in Hrun as (w' & s1 & Hw' & Hrun).
  rewrite self_getitem_run, Hw in Hw'. injection Hw' as <- <-.
  apply bind_Ret in Hrun as (wl & s1 & [Hiw ->]%lift_Ret & Hrun).
  rewrite (iterate_string_list _ _ Hwl) in Hiw. injection Hiw as <-.
  apply bind_Ret in Hrun as (perms1 & s1 & Hfull & Hrun).
  rewrite Hm0 in Hfull. apply assign_all_run in Hfull as [-> Hsrc].
  apply bind_Ret in Hrun as (a' & s2 & Ha' & Hrun).
  rewrite self_getitem_run in Ha'. injection Ha' as Ha' <-.
  rewrite (Hsrc "bridge.admins"), Ha in Ha' by DictWithRecursion.solve_diverge.
  injection Ha' as <-.
  apply bind_Ret in Hrun as (ad & s2 & [Hia ->]%lift_Ret & Hrun).
  rewrite (iterate_string_list _ _ Had) in Hia. injection Hia as <-.
  apply bind_Ret in Hrun as (perms2 & s2 & Hadmin & Hrun).
  apply assign_all_run in Hadmin as [-> _].
  apply lift_Ret in Hrun as [Hset _].
  eapply DictWithRecursion.setitem__getitem_, Hset.
Qed.


Lemma save_data s r s' : save s = (r, s') -> _data s' = _data s.
Proof.
  unfold save, dump_to. unfold_run. run_cases.
  all: intros [= _ <-]; reflexivity.
Qed.

Lemma load_base_run s text template :
  files s !! base_path s = Some text -> yaml_load text = Ret template ->
  load_base s = (Ret (Some (DictWithRecursion.init template)), s).
Proof.
  intros Hfile Hyaml. unfold load_base, try_except, bind, gets, open_read, lift, ret.
  simpl. rewrite Hfile, Hyaml. reflexivity.
Qed.

Lemma load_base_unavailable s :
  files s !! base_path s = None \/
  (exists text, files s !! base_path s = Some text /\ yaml_load text = Raise OSError) ->
  load_base s = (Ret None, s).
Proof.
  unfold load_base, try_except, bind, gets, open_read, lift, ret. simpl.
  intros [->|(text & -> & ->)]; reflexivity.
Qed.

(** What a completed [update] leaves at ["bridge.permissions"] when it
    takes the migrating branch. *)
Lemma update_permissions_run s s' text template p w a m0 whitelist admins :
  files s !! base_path s = Some text -> yaml_load text = Ret template ->
  DictWithRecursion.getitem_ (_data s) "bridge.permissions" = Ret p ->
  DictWithRecursion.getitem_ (_data s) "bridge.whitelist" = Ret w ->
  DictWithRecursion.getitem_ (_data s) "bridge.admins" = Ret a ->
  p = VNone \/ w <> VNone \/ a <> VNone ->
  or_else p (VMap ∅) = VMap m0 ->
  string_list w whitelist ->
  string_list a admins ->
  update s = (Ret tt, s') ->
  DictWithRecursion.getitem_ (_data s') "bridge.permissions" =
    Ret (VMap (assigned "admin" admins (assigned "full" whitelist m0))).
Proof.
  intros Hfile Hyaml Hp Hw Ha Hmig Hm0 Hwl Had Hrun. unfold update in Hrun.
  apply bind_Ret in Hrun as (b & s0 & Hload & Hrun).
  rewrite (load_base_run _ _ _ Hfile Hyaml) in Hload. injection Hload as <- <-.
  apply bind_Ret in Hrun as (base3 & s3 & Hsteps & Hrun).
  rewrite run_steps_app in Hsteps.
  apply bind_Ret in Hsteps as (base1 & s1 & Hbefore & Hsteps).
  simpl in Hsteps.
  apply bind_Ret in Hsteps as (base2 & s2 & Hperm & Hafter).
  apply bind_Ret in Hrun as ([] & s4 & Hmod & Hsave).
  unfold modify in Hmod. injection Hmod as <-.
  apply save_data in Hsave. rewrite Hsave. simpl.
  rewrite (steps_after_permissions_keep_base _ _ _ _ Hafter).
  eapply step_permissions_run; [| | |exact Hmig|exact Hm0|exact Hwl|exact Had|exact Hperm].
  - rewrite <- Hp. eapply steps_before_permissions_keep_source; [|exact Hbefore].
    DictWithRecursion.solve_diverge.
  - rewrite <- Hw. eapply steps_before_permissions_keep_source; [|exact Hbefore].
    DictWithRecursion.solve_diverge.
  - rewrite <- Ha. eapply steps_before_permissions_keep_source; [|exact Hbefore].
    DictWithRecursion.solve_diverge.
Qed.


(** *** Migration of a source with the legacy lists only *)

(** A step that, from the state [s], returns [base] as it got it. *)
Definition leaves_base (s : state) (f : step) : Prop :=
  forall base, f base s = (Ret base, s).

Lemma bind_leaves_base {B} s (f : step) base (k : value -> M state B) :
  leaves_base s f -> bind (f base) k s = k base s.
Proof. intros Hf. unfold bind. by rewrite Hf. Qed.

Lemma copy_absent from_path to_path s :
  DictWithRecursion.contains_ (_data s) from_path = Ret false ->
  leaves_base s (copy from_path to_path).
Proof.
  intros Hc base. unfold copy, bind. rewrite self_contains_run, Hc. reflexivity.
Qed.

Lemma copy_dict_absent from_path to_path override s :
  DictWithRecursion.contains_ (_data s) from_path = Ret false ->
  leaves_base s (copy_dict from_path to_path override).
Proof.
  intros Hc base. unfold copy_dict, bind. rewrite self_contains_run, Hc. reflexivity.
Qed.

Lemma step_address_absent s :
  DictWithRecursion.contains_ (_data s) "appservice.protocol" = Ret false ->
  DictWithRecursion.contains_ (_data s) "appservice.address" = Ret false ->
  leaves_base s step_address.
Proof.
  intros Hp Ha base. unfold step_address, bind at 1 2. rewrite self_contains_run, Hp.
  simpl. by apply copy_absent.
Qed.

Lemma step_message_formats_absent s :
  DictWithRecursion.contains_ (_data s) "bridge.message_formats.m_text" = Ret false ->
  DictWithRecursion.contains_ (_data s) "bridge.message_formats" = Ret false ->
  leaves_base s step_message_formats.
Proof.
  intros Hm Hf base. unfold step_message_formats, bind at 1 2.
  rewrite self_contains_run, Hm. simpl. by apply copy_dict_absent.
Qed.

Lemma step_relaybot_absent s :
  DictWithRecursion.contains_ (_data s) "bridge.relaybot" = Ret false ->
  DictWithRecursion.contains_ (_data s) "bridge.authless_relaybot_portals" = Ret false ->
  leaves_base s step_relaybot.
Proof.
  intros Hr Ha base. unfold step_relaybot, bind at 1. rewrite self_contains_run, Hr.
  simpl. by apply copy_absent.
Qed.

Lemma step_logging_absent s :
  DictWithRecursion.contains_ (_data s) "appservice.debug" = Ret false ->
  DictWithRecursion.contains_ (_data s) "logging" = Ret false ->
  leaves_base s step_logging.
Proof.
  intros Hd Hl base. unfold step_logging, bind at 1 2. rewrite self_contains_run, Hd.
  simpl. by apply copy_absent.
Qed.

(** Settles [leaves_base] for a step on a state whose document is a
    [legacy_source], by [Hdata]. *)
Ltac absent_in Hdata := rewrite Hdata; vm_compute; reflexivity.

Ltac leaves_legacy Hdata :=
  first [ apply copy_absent; absent_in Hdata
        | apply step_address_absent; absent_in Hdata
        | apply step_message_formats_absent; absent_in Hdata
        | apply step_relaybot_absent; absent_in Hdata
        | apply step_logging_absent; absent_in Hdata ].

Lemma step_shared_secret_returns base s :
  DictWithRecursion.path_ok base "appservice.provisioning.shared_secret" ->
  exists base' n,
    step_shared_secret base s = (Ret base', with_drawn n s) /\
    (DictWithRecursion.path_ok base "bridge.permissions" ->
     DictWithRecursion.path_ok base' "bridge.permissions").
Proof.
  intros Hok. unfold step_shared_secret, bind at 1, lift at 1.
  destruct (DictWithRecursion.getitem__returns _ _ Hok) as [secret ->].
  destruct (eq_str secret "generate").
  - unfold bind, _new_token, bind, gets, modify, ret, lift. simpl.
    destruct (DictWithRecursion.setitem__returns base
                "appservice.provisioning.shared_secret" (VStr (new_token (drawn s))) Hok)
      as [base' Hset].
    rewrite Hset. exists base', (S (drawn s)). split; [reflexivity|].
    eapply DictWithRecursion.setitem__path_ok_frame; [exact Hset|].
    DictWithRecursion.solve_diverge.
  - exists base, (drawn s). split; [|done]. unfold ret. by destruct s.
Qed.

Lemma assign_all_unaliased level entries : forall m s,
  assign_all level false (VStr <$> entries) (VMap m) s =
    (Ret (VMap (assigned level entries m)), s).
Proof.
  unfold assign_all, assigned.
  induction entries as [|e entries IH]; intros m s; simpl; [reflexivity|].
  unfold bind at 1. unfold bind at 1, lift at 1. simpl. unfold bind at 1, ret at 1 2.
  apply IH.
Qed.

Lemma step_permissions_legacy whitelist admins base s :
  _data s = legacy_source whitelist admins ->
  DictWithRecursion.path_ok base "bridge.permissions" ->
  exists base', step_permissions base s = (Ret base', s).
Proof.
  intros Hdata Hok. unfold step_permissions.
  unfold bind at 1. rewrite self_contains_run.
  assert (DictWithRecursion.contains_ (_data s) "bridge.permissions" = Ret false) as ->
    by absent_in Hdata.
  simpl. unfold bind at 1, ret at 1. unfold bind at 1. rewrite self_getitem_run.
  assert (DictWithRecursion.getitem_ (_data s) "bridge.permissions" = Ret VNone) as ->
    by absent_in Hdata.
  simpl. unfold bind at 1. rewrite self_getitem_run.
  assert (DictWithRecursion.getitem_ (_data s) "bridge.whitelist"
          = Ret (VList (VStr <$> whitelist))) as -> by absent_in Hdata.
  unfold bind at 1, lift at 1.
  rewrite (iterate_string_list _ whitelist) by (by right).
  change (or_else VNone (VMap ∅)) with (VMap ∅).
  unfold bind at 1. rewrite assign_all_unaliased.
  unfold bind at 1. rewrite self_getitem_run.
  assert (DictWithRecursion.getitem_ (_data s) "bridge.admins"
          = Ret (VList (VStr <$> admins))) as -> by absent_in Hdata.
  unfold bind at 1, lift at 1.
  rewrite (iterate_string_list _ admins) by (by right).
  unfold bind at 1. rewrite assign_all_unaliased. unfold lift.
  destruct (DictWithRecursion.setitem__returns base "bridge.permissions"
              (VMap (assigned "admin" admins (assigned "full" whitelist ∅))) Hok)
    as [base' ->].
  eauto.
Qed.

Lemma steps_before_permissions_legacy whitelist admins base s :
  _data s = legacy_source whitelist admins ->
  DictWithRecursion.path_ok base "appservice.provisioning.shared_secret" ->
  DictWithRecursion.path_ok base "bridge.permissions" ->
  exists base' n,
    run_steps steps_before_permissions base s = (Ret base', with_drawn n s) /\
    DictWithRecursion.path_ok base' "bridge.permissions".
Proof.
  intros Hdata Hsecret Hperm. unfold steps_before_permissions. cbn [run_steps].
  repeat (rewrite bind_leaves_base by leaves_legacy Hdata).
  destruct (step_shared_secret_returns base s Hsecret) as (base' & n & Hrun & Hok).
  unfold bind at 1. rewrite Hrun.
  assert (Hdata' : _data (with_drawn n s) = legacy_source whitelist admins) by exact Hdata.
  repeat (rewrite bind_leaves_base by leaves_legacy Hdata').
  exists base', n. split; [reflexivity|by apply Hok].
Qed.

Lemma steps_after_permissions_legacy whitelist admins s :
  _data s = legacy_source whitelist admins ->
  leaves_base s (run_steps steps_after_permissions).
Proof.
  intros Hdata base. unfold steps_after_permissions. cbn [run_steps].
  repeat (rewrite bind_leaves_base by leaves_legacy Hdata). reflexivity.
Qed.

Lemma save_returns s :
  writable (path s) = true -> writable (registration_path s) = true ->
  exists s', save s = (Ret tt, s') /\ _data s' = _data s.
Proof.
  intros Hp Hr. unfold save, dump_to, bind, gets, ret. simpl. rewrite Hp. simpl.
  destruct (truthy (_registration s) && negb (String.eqb (registration_path s) ""));
    [rewrite Hr|]; eauto.
Qed.

(** A source with the two lists only migrates to completion on any
    template on which the two keys written can be walked. *)
Lemma update_legacy_returns whitelist admins s text template :
  _data s = legacy_source whitelist admins ->
  files s !! base_path s = Some text -> yaml_load text = Ret template ->
  DictWithRecursion.path_ok (DictWithRecursion.init template)
    "appservice.provisioning.shared_secret" ->
  DictWithRecursion.path_ok (DictWithRecursion.init template) "bridge.permissions" ->
  writable (path s) = true -> writable (registration_path s) = true ->
  exists s', update s = (Ret tt, s').
Proof.
  intros Hdata Hfile Hyaml Hsecret Hperm Hwp Hwr. unfold update.
  unfold bind at 1. rewrite (load_base_run _ _ _ Hfile Hyaml).
  unfold bind at 1. rewrite run_steps_app.
  destruct (steps_before_permissions_legacy whitelist admins _ s Hdata Hsecret Hperm)
    as (base1 & n & Hbefore & Hok1).
  unfold bind at 1. rewrite Hbefore. cbn [run_steps].
  assert (Hdata' : _data (with_drawn n s) = legacy_source whitelist admins) by exact Hdata.
  destruct (step_permissions_legacy whitelist admins base1 _ Hdata' Hok1) as [base2 Hstep].
  unfold bind at 1. rewrite Hstep.
  rewrite (steps_after_permissions_legacy whitelist admins _ Hdata').
  unfold bind at 1, modify at 1.
  destruct (save_returns (with_data base2 (with_drawn n s)) Hwp Hwr) as (s' & -> & _).
  eauto.
Qed.


End WithRuntime.

(** [Config._get_permissions], on the backing store. *)
Definition _get_permissions (data : value) (key : string)
  : result (bool * bool * bool * bool * bool * value) :=
  (permissions <- DictWithRecursion.getitem_ data "bridge.permissions" ;;
   level <- dict_get permissions key (VStr "") ;;
   let admin := eq_str level "admin" in
   let matrix_puppeting := eq_str level "full" || admin in
   let puppeting := eq_str level "puppeting" || matrix_puppeting in
   let user := eq_str level "user" || puppeting in
   let relaybot := eq_str level "relaybot" || user in
   Ret (relaybot, user, puppeting, matrix_puppeting, admin, level))%py.

(** [Config.get_permissions], on the backing store. *)
Definition get_permissions (data : value) (mxid : string)
  : result (bool * bool * bool * bool * bool * value) :=
  (p <- DictWithRecursion.getitem_ data "bridge.permissions" ;;
   let permissions := or_else p (VMap ∅) in
   exact <- contains permissions mxid ;;
   if exact : bool then _get_permissions data mxid
   else
     i <- index mxid ":" ;;
     let homeserver := slice_from (i + 1) mxid in
     by_server <- contains permissions homeserver ;;
     if by_server : bool then _get_permissions data homeserver
     else _get_permissions data "*")%py.

Lemma lookup_assigned_in level entries e : forall m,
  e ∈ entries -> assigned level entries m !! e = Some (VStr level).
Proof.
  unfold assigned. induction entries as [|x entries IH] using rev_ind; intros m Hin.
  - by apply elem_of_nil in Hin.
  - rewrite foldl_app. simpl. destruct (decide (x = e)) as [->|Hne].
    + apply lookup_insert_eq.
    + rewrite lookup_insert_ne by done. apply IH.
      apply elem_of_app in Hin as [Hin|Hin]; [done|].
      apply list_elem_of_singleton in Hin. congruence.
Qed.

Lemma lookup_assigned_notin level entries e : forall m,
  e ∉ entries -> assigned level entries m !! e = m !! e.
Proof.
  unfold assigned. induction entries as [|x entries IH]; intros m Hin; simpl; [done|].
  rewrite IH by (intros ?; apply Hin; by right).
  apply lookup_insert_ne. intros ->. apply Hin. by left.
Qed.


(** *** What each step of [update] touches *)

Section Migration.
Context `{Runtime}.
Local Open Scope pym_scope.

(** From [s] to [s'] the source document reads the same at [q], and the
    files, the paths and the registration are the same. *)
Definition quiet (q : string) (s s' : state) : Prop :=
  DictWithRecursion.getitem_ (_data s') q = DictWithRecursion.getitem_ (_data s) q /\
  files s' = files s /\ path s' = path s /\ registration_path s' = registration_path s /\
  base_path s' = base_path s /\ _registration s' = _registration s.

Lemma quiet_refl q s : quiet q s s.
Proof. by repeat split. Qed.

Lemma quiet_trans q s1 s2 s3 : quiet q s1 s2 -> quiet q s2 s3 -> quiet q s1 s3.
Proof.
  intros (? & ? & ? & ? & ? & ?) (? & ? & ? & ? & ? & ?). repeat split; congruence.
Qed.

(** A computation whose runs are all [quiet] at [q]. *)
Definition preserves {A} (q : string) (c : M state A) : Prop :=
  forall s r s', c s = (r, s') -> quiet q s s'.

Lemma preserves_ret {A} q (a : A) : preserves q (ret a).
Proof. intros s r s'. unfold ret. intros [= _ <-]. apply quiet_refl. Qed.

Lemma preserves_lift {A} q (x : result A) : preserves q (lift x).
Proof. intros s r s'. unfold lift. intros [= _ <-]. apply quiet_refl. Qed.

Lemma preserves_gets {A} q (f : state -> A) : preserves q (gets f).
Proof. intros s r s'. unfold gets. intros [= _ <-]. apply quiet_refl. Qed.

Lemma preserves_bind {A B} q (c : M state A) (k : A -> M state B) :
  preserves q c -> (forall a, preserves q (k a)) -> preserves q (bind c k).
Proof.
  intros Hc Hk s r s'. unfold bind. destruct (c s) as [[a|e] s1] eqn:Hrun.
  - intros Hrest. eapply quiet_trans; [eapply Hc, Hrun|eapply Hk, Hrest].
  - intros [= _ <-]. eapply Hc, Hrun.
Qed.

Lemma preserves_if {A} q (b : bool) (c1 c2 : M state A) :
  preserves q c1 -> preserves q c2 -> preserves q (if b then c1 else c2).
Proof. by destruct b. Qed.

Lemma preserves_with_drawn q n : preserves q (modify (with_drawn n)).
Proof. intros s r s'. unfold modify. intros [= _ <-]. by repeat split. Qed.

(** Writing the source document at [key] is quiet at the keys that
    diverge from it. *)
Lemma preserves_source_write q key v :
  DictWithRecursion.diverge key q ->
  preserves q (d <- gets _data ;;
               d' <- lift (DictWithRecursion.setitem_ d key v) ;;
               modify (with_data d')).
Proof.
  intros Hdiv s r s'. unfold bind, gets, lift, modify. simpl.
  destruct (DictWithRecursion.setitem_ (_data s) key v) as [d'|e] eqn:Hset.
  - intros [= _ <-]. repeat split. simpl.
    eapply DictWithRecursion.setitem__frame; eassumption.
  - intros [= _ <-]. apply quiet_refl.
Qed.

Lemma preserves_self_delitem q key :
  DictWithRecursion.diverge key q -> preserves q (self_delitem key).
Proof.
  intros Hdiv s r s'. unfold self_delitem, bind, gets, lift, modify. simpl.
  destruct (DictWithRecursion.delitem_ (_data s) key) as [d'|e] eqn:Hdel.
  - intros [= _ <-]. repeat split. simpl.
    eapply DictWithRecursion.delitem__frame; eassumption.
  - intros [= _ <-]. apply quiet_refl.
Qed.

Create HintDb quiet discriminated.
#[local] Hint Resolve preserves_ret preserves_lift preserves_gets preserves_bind
  preserves_if preserves_with_drawn : quiet.

Lemma preserves_self_contains q key : preserves q (self_contains key).
Proof. unfold self_contains. auto with quiet. Qed.

Lemma preserves_self_getitem q key : preserves q (self_getitem key).
Proof. unfold self_getitem. auto with quiet. Qed.
#[local] Hint Resolve preserves_self_contains preserves_self_getitem : quiet.

Lemma preserves_copy q from_path to_path base : preserves q (copy from_path to_path base).
Proof. unfold copy. auto 10 with quiet. Qed.

Lemma preserves_copy_dict q from_path to_path override base :
  preserves q (copy_dict from_path to_path override base).
Proof. unfold copy_dict. destruct override; auto 20 with quiet. Qed.
#[local] Hint Resolve preserves_copy preserves_copy_dict : quiet.

Lemma preserves_run_steps q steps :
  Forall (fun f : step => forall base, preserves q (f base)) steps ->
  forall base, preserves q (run_steps steps base).
Proof.
  induction 1 as [|f steps Hf _ IH]; intros base; simpl; auto with quiet.
Qed.

Lemma preserves_step_address q base : preserves q (step_address base).
Proof. unfold step_address. auto 20 with quiet. Qed.

Lemma preserves_step_shared_secret q base : preserves q (step_shared_secret base).
Proof. unfold step_shared_secret, _new_token. auto 20 with quiet. Qed.

Lemma preserves_step_message_formats q base :
  DictWithRecursion.diverge "bridge.message_formats" q ->
  preserves q (step_message_formats base).
Proof.
  intros Hdiv. unfold step_message_formats.
  auto 20 using preserves_self_delitem with quiet.
Qed.

Lemma preserves_assign_all q level aliased entries :
  DictWithRecursion.diverge "bridge.permissions" q ->
  forall permissions, preserves q (assign_all level aliased entries permissions).
Proof.
  intros Hdiv. unfold assign_all.
  induction entries as [|e entries IH]; intros permissions; simpl; [auto with quiet|].
  apply preserves_bind; [|exact IH].
  apply preserves_bind; [auto with quiet|]. intros perms'.
  apply preserves_bind; [|auto with quiet].
  destruct aliased; [by apply preserves_source_write|auto with quiet].
Qed.

Lemma preserves_step_permissions q base :
  DictWithRecursion.diverge "bridge.permissions" q ->
  preserves q (step_permissions base).
Proof.
  intros Hdiv. unfold step_permissions.
  auto 30 using preserves_assign_all with quiet.
Qed.

Lemma preserves_step_relaybot q base : preserves q (step_relaybot base).
Proof. unfold step_relaybot. simpl. auto 30 with quiet. Qed.

Lemma preserves_step_logging q base : preserves q (step_logging base).
Proof. unfold step_logging. auto 30 with quiet. Qed.

(** Settles that a step of [update] is quiet at a given key. *)
Ltac step_quiet :=
  intros ?;
  first [ apply preserves_copy | apply preserves_step_address
        | apply preserves_step_shared_secret
        | apply preserves_step_message_formats; DictWithRecursion.solve_diverge
        | apply preserves_step_permissions; DictWithRecursion.solve_diverge
        | apply preserves_step_relaybot | apply preserves_step_logging ].

(** **** What a step leaves in [base] *)

Lemma for_each_set_entry_frame to_path q kvs : forall base base',
  DictWithRecursion.diverge to_path q ->
  for_each (base_set_entry to_path) kvs base = Ret base' ->
  DictWithRecursion.getitem_ base' q = DictWithRecursion.getitem_ base q.
Proof.
  induction kvs as [|kv kvs IH]; intros base base' Hdiv; simpl.
  - by intros [= <-].
  - unfold base_set_entry at 1.
    destruct (DictWithRecursion.getitem_ base to_path) as [target|]; simpl; [|discriminate].
    destruct (setitem target kv.1 kv.2) as [target'|]; simpl; [|discriminate].
    destruct (DictWithRecursion.setitem_ base to_path target') as [base1|] eqn:Hset;
      simpl; [|discriminate].
    intros Hrest. rewrite (IH _ _ Hdiv Hrest).
    eapply DictWithRecursion.setitem__frame; eassumption.
Qed.

Lemma copy_dict_keeps_base q from_path to_path override :
  DictWithRecursion.diverge (default from_path to_path) q ->
  keeps_base q (copy_dict from_path to_path override).
Proof.
  intros Hdiv base s base' s' Hrun. unfold copy_dict in Hrun.
  apply bind_Ret in Hrun as (c & s1 & _ & Hrun). destruct c.
  2:{ unfold ret in Hrun. by injection Hrun as <- _. }
  apply bind_Ret in Hrun as (fresh & s2 & _ & Hrun).
  apply bind_Ret in Hrun as (base1 & s3 & Hfresh & Hrun).
  apply bind_Ret in Hrun as (src & s4 & _ & Hrun).
  apply bind_Ret in Hrun as (kvs & s5 & _ & Hrun).
  apply lift_Ret in Hrun as [Hloop _].
  rewrite (for_each_set_entry_frame _ _ _ _ _ Hdiv Hloop).
  destruct fresh.
  - apply lift_Ret in Hfresh as [Hset _].
    eapply DictWithRecursion.setitem__frame; eassumption.
  - unfold ret in Hfresh. by injection Hfresh as <- _.
Qed.

Lemma step_address_keeps_base q :
  DictWithRecursion.diverge "appservice.address" q -> keeps_base q step_address.
Proof.
  intros Hdiv base s base' s' Hrun. unfold step_address in Hrun.
  apply bind_Ret in Hrun as (c & s1 & _ & Hrun).
  apply bind_Ret in Hrun as (legacy & s2 & _ & Hrun). destruct legacy.
  - apply bind_Ret in Hrun as (p & s3 & _ & Hrun).
    apply bind_Ret in Hrun as (h & s4 & _ & Hrun).
    apply bind_Ret in Hrun as (po & s5 & _ & Hrun).
    apply lift_Ret in Hrun as [Hset _].
    eapply DictWithRecursion.setitem__frame; eassumption.
  - eapply copy_keeps_base; [|exact Hrun]. exact Hdiv.
Qed.

Lemma step_shared_secret_keeps_base q :
  DictWithRecursion.diverge "appservice.provisioning.shared_secret" q ->
  keeps_base q step_shared_secret.
Proof.
  intros Hdiv base s base' s' Hrun. unfold step_shared_secret in Hrun.
  apply bind_Ret in Hrun as (secret & s1 & _ & Hrun).
  destruct (eq_str secret "generate").
  - apply bind_Ret in Hrun as (token & s2 & _ & Hrun).
    apply lift_Ret in Hrun as [Hset _].
    eapply DictWithRecursion.setitem__frame; eassumption.
  - unfold ret in Hrun. by injection Hrun as <- _.
Qed.

Lemma step_message_formats_keeps_base q :
  DictWithRecursion.diverge "bridge.message_formats" q ->
  keeps_base q step_message_formats.
Proof.
  intros Hdiv base s base' s' Hrun. unfold step_message_formats in Hrun.
  apply bind_Ret in Hrun as (c & s1 & _ & Hrun).
  apply bind_Ret in Hrun as (u & s2 & _ & Hrun).
  eapply copy_dict_keeps_base; [|exact Hrun]. exact Hdiv.
Qed.

Lemma step_permissions_keeps_base q :
  DictWithRecursion.diverge "bridge.permissions" q ->
  keeps_base q step_permissions.
Proof.
  intros Hdiv base s base' s' Hrun. unfold step_permissions in Hrun.
  apply bind_Ret in Hrun as (c & s1 & _ & Hrun).
  apply bind_Ret in Hrun as (mig & s2 & _ & Hrun). destruct mig.
  - apply bind_Ret in Hrun as (p & s3 & _ & Hrun).
    apply bind_Ret in Hrun as (w & s4 & _ & Hrun).
    apply bind_Ret in Hrun as (wl & s5 & _ & Hrun).
    apply bind_Ret in Hrun as (perms1 & s6 & _ & Hrun).
    apply bind_Ret in Hrun as (a & s7 & _ & Hrun).
    apply bind_Ret in Hrun as (ad & s8 & _ & Hrun).
    apply bind_Ret in Hrun as (perms2 & s9 & _ & Hrun).
    apply lift_Ret in Hrun as [Hset _].
    eapply DictWithRecursion.setitem__frame; eassumption.
  - eapply copy_dict_keeps_base; [|exact Hrun]. exact Hdiv.
Qed.

Lemma step_relaybot_keeps_base_at q :
  DictWithRecursion.diverge "bridge.relaybot.authless_portals" q ->
  DictWithRecursion.diverge "bridge.relaybot.whitelist_group_admins" q ->
  DictWithRecursion.diverge "bridge.relaybot.whitelist" q ->
  DictWithRecursion.diverge "bridge.relaybot.ignore_own_incoming_events" q ->
  keeps_base q step_relaybot.
Proof.
  intros H1 H2 H3 H4 base s base' s' Hrun. unfold step_relaybot in Hrun.
  apply bind_Ret in Hrun as (c & s1 & _ & Hrun). destruct c.
  - eapply run_steps_keeps_base; [|exact Hrun].
    repeat (apply Forall_cons; split; [by apply copy_keeps_base|]).
    apply Forall_nil_2.
  - eapply copy_keeps_base; [|exact Hrun]. exact H1.
Qed.

Lemma step_logging_keeps_base_at q :
  DictWithRecursion.diverge "logging.root.level" q ->
  DictWithRecursion.diverge "logging.loggers.mau.level" q ->
  DictWithRecursion.diverge "logging.loggers.telethon.level" q ->
  DictWithRecursion.diverge "logging" q ->
  keeps_base q step_logging.
Proof.
  intros Hr Hm Ht Hl base s base' s' Hrun. unfold step_logging in Hrun.
  apply bind_Ret in Hrun as (c & s1 & _ & Hrun).
  apply bind_Ret in Hrun as (legacy & s2 & _ & Hrun). destruct legacy.
  - apply bind_Ret in Hrun as (debug & s3 & _ & Hrun).
    apply bind_Ret in Hrun as (base1 & s4 & [H1 _]%lift_Ret & Hrun).
    apply bind_Ret in Hrun as (base2 & s5 & [H2 _]%lift_Ret & Hrun).
    apply lift_Ret in Hrun as [H3 _].
    rewrite (DictWithRecursion.setitem__frame _ _ _ _ _ H3 Ht).
    rewrite (DictWithRecursion.setitem__frame _ _ _ _ _ H2 Hm).
    apply (DictWithRecursion.setitem__frame _ _ _ _ _ H1 Hr).
  - eapply copy_keeps_base; [|exact Hrun]. exact Hl.
Qed.

(** Settles that a step of [update] keeps [base] at a given key. *)
Ltac step_keeps_base :=
  first [ apply copy_keeps_base; DictWithRecursion.solve_diverge
        | apply step_address_keeps_base; DictWithRecursion.solve_diverge
        | apply step_shared_secret_keeps_base; DictWithRecursion.solve_diverge
        | apply step_message_formats_keeps_base; DictWithRecursion.solve_diverge
        | apply step_permissions_keeps_base; DictWithRecursion.solve_diverge
        | apply step_relaybot_keeps_base_at; DictWithRecursion.solve_diverge
        | apply step_logging_keeps_base_at; DictWithRecursion.solve_diverge ].

(** **** Runs of [update] *)

(** The steps of [update], in source order. *)
Definition all_steps : list step :=
  steps_before_permissions ++ step_permissions :: steps_after_permissions.

Lemma run_steps_Ret_app steps1 steps2 base s base' s' :
  run_steps (steps1 ++ steps2) base s = (Ret base', s') ->
  exists base1 s1,
    run_steps steps1 base s = (Ret base1, s1) /\
    run_steps steps2 base1 s1 = (Ret base', s').
Proof. rewrite run_steps_app. apply bind_Ret. Qed.

(** A completed run of [update], cut at its [i]-th step [f]. *)
Lemma update_at i f s s' text template :
  all_steps !! i = Some f ->
  files s !! base_path s = Some text -> yaml_load text = Ret template ->
  update s = (Ret tt, s') ->
  exists b1 s1 b2 s2 b3 s3,
    run_steps (take i all_steps) (DictWithRecursion.init template) s = (Ret b1, s1) /\
    f b1 s1 = (Ret b2, s2) /\
    run_steps (drop (S i) all_steps) b2 s2 = (Ret b3, s3) /\
    save (with_data b3 s3) = (Ret tt, s') /\ _data s' = b3.
Proof.
  intros Hi Hfile Hyaml Hrun. unfold update in Hrun.
  apply bind_Ret in Hrun as (b & s0 & Hload & Hrun).
  rewrite (load_base_run _ _ _ Hfile Hyaml) in Hload. injection Hload as <- <-.
  apply bind_Ret in Hrun as (b3 & s3 & Hsteps & Hrun).
  apply bind_Ret in Hrun as ([] & s4 & Hmod & Hsave).
  unfold modify in Hmod. injection Hmod as <-.
  fold all_steps in Hsteps.
  rewrite <- (take_drop_middle all_steps i f Hi) in Hsteps.
  apply run_steps_Ret_app in Hsteps as (b1 & s1 & Hpre & Hsteps).
  cbn [run_steps] in Hsteps.
  apply bind_Ret in Hsteps as (b2 & s2 & Hf & Hpost).
  exists b1, s1, b2, s2, b3, s3. repeat split; try assumption.
  apply save_data in Hsave. by rewrite Hsave.
Qed.

(** What [copy] does, by the value the source holds. *)
Lemma copy_run from_path to_path base s base' s' v :
  DictWithRecursion.getitem_ (_data s) from_path = Ret v ->
  copy from_path to_path base s = (Ret base', s') ->
  (v = VNone -> base' = base) /\
  (v <> VNone ->
   DictWithRecursion.getitem_ base' (default from_path to_path) = Ret v).
Proof.
  intros Hv Hrun. unfold copy in Hrun.
  apply bind_Ret in Hrun as (c & s1 & Hc & Hrun).
  rewrite self_contains_run, (DictWithRecursion.contains__getitem_ _ _ _ Hv) in Hc.
  injection Hc as <- <-. destruct v; simpl in Hrun;
    try (apply bind_Ret in Hrun as (v' & s2 & Hv' & Hrun);
         rewrite self_getitem_run, Hv in Hv'; injection Hv' as <- <-;
         apply lift_Ret in Hrun as [Hset _];
         split; [discriminate|intros _];
         eapply DictWithRecursion.setitem__getitem_, Hset).
  unfold ret in Hrun. injection Hrun as <- _. split; [done|by intros []].
Qed.

(** The plain settings: the keys [update] copies under their own name and
    writes nowhere else, with the place of their step. *)
Definition copy_table : list (nat * string) :=
  [ (0, "homeserver.address");
    (1, "homeserver.verify_ssl");
    (2, "homeserver.domain");
    (4, "appservice.hostname");
    (5, "appservice.port");
    (6, "appservice.database");
    (7, "appservice.public.enabled");
    (8, "appservice.public.prefix");
    (9, "appservice.public.external");
    (10, "appservice.provisioning.enabled");
    (11, "appservice.provisioning.prefix");
    (14, "appservice.id");
    (15, "appservice.bot_username");
    (16, "appservice.bot_displayname");
    (17, "appservice.bot_avatar");
    (18, "appservice.as_token");
    (19, "appservice.hs_token");
    (20, "bridge.username_template");
    (21, "bridge.alias_template");
    (22, "bridge.displayname_template");
    (23, "bridge.displayname_preference");
    (24, "bridge.edits_as_replies");
    (25, "bridge.highlight_edits");
    (26, "bridge.bridge_notices");
    (27, "bridge.bot_messages_as_notices");
    (28, "bridge.max_initial_member_sync");
    (29, "bridge.sync_channel_members");
    (30, "bridge.max_telegram_delete");
    (31, "bridge.allow_matrix_login");
    (32, "bridge.inline_images");
    (33, "bridge.plaintext_highlights");
    (34, "bridge.public_portals");
    (35, "bridge.native_stickers");
    (36, "bridge.catch_up");
    (37, "bridge.sync_with_custom_puppets");
    (39, "bridge.state_event_formats.join");
    (40, "bridge.state_event_formats.leave");
    (41, "bridge.state_event_formats.name_change");
    (42, "bridge.filter.mode");
    (43, "bridge.filter.list");
    (44, "bridge.command_prefix");
    (47, "telegram.api_id");
    (48, "telegram.api_hash");
    (49, "telegram.bot_token");
    (50, "telegram.proxy.type");
    (51, "telegram.proxy.address");
    (52, "telegram.proxy.port");
    (53, "telegram.proxy.rdns");
    (54, "telegram.proxy.username");
    (55, "telegram.proxy.password") ].

Definition plain_settings : list string := copy_table.*2.

(** At its place, a plain setting is copied; the steps before are quiet at
    it and, like the steps after, keep [base] at it. *)
Definition plain_at (ik : nat * string) : Prop :=
  all_steps !! ik.1 = Some (copy ik.2 None) /\
  Forall (fun f : step => forall base, preserves ik.2 (f base)) (take ik.1 all_steps) /\
  Forall (keeps_base ik.2) (take ik.1 all_steps) /\
  Forall (keeps_base ik.2) (drop (S ik.1) all_steps).

Ltac unfold_steps :=
  cbv [all_steps steps_before_permissions steps_after_permissions app take drop fst snd].

Ltac all_quiet :=
  unfold_steps; repeat (apply Forall_cons; split; [step_quiet|]); apply Forall_nil_2.

Ltac all_keep_base :=
  unfold_steps; repeat (apply Forall_cons; split; [step_keeps_base|]); apply Forall_nil_2.

Lemma copy_table_plain : Forall plain_at copy_table.
Proof.
  unfold copy_table.
  repeat (apply Forall_cons; split;
          [split; [reflexivity|split; [all_quiet|split; all_keep_base]]|]).
  apply Forall_nil_2.
Qed.

Lemma preserves_take_source i k s b1 s1 base v :
  Forall (fun f : step => forall base, preserves k (f base)) (take i all_steps) ->
  run_steps (take i all_steps) base s = (Ret b1, s1) ->
  DictWithRecursion.getitem_ (_data s) k = Ret v ->
  DictWithRecursion.getitem_ (_data s1) k = Ret v.
Proof.
  intros Hq Hrun Hv. destruct (preserves_run_steps _ _ Hq _ _ _ _ Hrun) as [Hsrc _].
  by rewrite Hsrc.
Qed.

(** A plain setting after a completed [update]: the value of the source
    when it has one, the value of the template otherwise. *)
Lemma update_plain_setting k s s' text template v :
  k ∈ plain_settings ->
  files s !! base_path s = Some text -> yaml_load text = Ret template ->
  DictWithRecursion.getitem_ (_data s) k = Ret v ->
  update s = (Ret tt, s') ->
  DictWithRecursion.getitem_ (_data s') k =
    if is_not_None v then Ret v
    else DictWithRecursion.getitem_ (DictWithRecursion.init template) k.
Proof.
  intros Hk Hfile Hyaml Hv Hrun.
  unfold plain_settings in Hk. apply list_elem_of_fmap in Hk as ([i k'] & -> & Hik).
  pose proof (proj1 (Forall_forall _ _) copy_table_plain _ Hik) as (Hi & Hq & Hpre & Hpost).
  simpl in *.
  destruct (update_at _ _ _ _ _ _ Hi Hfile Hyaml Hrun)
    as (b1 & s1 & b2 & s2 & b3 & s3 & Hbefore & Hcopy & Hafter & _ & ->).
  rewrite (run_steps_keeps_base _ _ Hpost _ _ _ _ Hafter).
  pose proof (preserves_take_source _ _ _ _ _ _ _ Hq Hbefore Hv) as Hv1.
  destruct (copy_run _ _ _ _ _ _ _ Hv1 Hcopy) as [Hnone Hsome].
  destruct v; simpl; try (apply Hsome; discriminate).
  rewrite Hnone by done. apply (run_steps_keeps_base _ _ Hpre _ _ _ _ Hbefore).
Qed.


(** **** The special cases of [update] *)

Lemma step_address_run base s base' s' p a h po :
  DictWithRecursion.getitem_ (_data s) "appservice.protocol" = Ret p ->
  DictWithRecursion.getitem_ (_data s) "appservice.address" = Ret a ->
  DictWithRecursion.getitem_ (_data s) "appservice.hostname" = Ret h ->
  DictWithRecursion.getitem_ (_data s) "appservice.port" = Ret po ->
  step_address base s = (Ret base', s') ->
  if is_not_None a then
    DictWithRecursion.getitem_ base' "appservice.address" = Ret a
  else if is_not_None p then
    DictWithRecursion.getitem_ base' "appservice.address" =
      Ret (VStr (format p +:+ "://" +:+ format h +:+ ":" +:+ format po))
  else base' = base.
Proof.
  intros Hp Ha Hh Hpo Hrun. unfold step_address in Hrun.
  apply bind_Ret in Hrun as (c & s1 & Hc & Hrun).
  rewrite self_contains_run, (DictWithRecursion.contains__getitem_ _ _ _ Hp) in Hc.
  injection Hc as <- <-.
  apply bind_Ret in Hrun as (legacy & s1 & Hlegacy & Hrun).
  assert (legacy = (is_not_None p && negb (is_not_None a)) /\ s1 = s) as [-> ->].
  { destruct (is_not_None p).
    - apply bind_Ret in Hlegacy as (c & s2 & Hc & Hlegacy).
      rewrite self_contains_run, (DictWithRecursion.contains__getitem_ _ _ _ Ha) in Hc.
      injection Hc as <- <-. unfold ret in Hlegacy. by injection Hlegacy as <- <-.
    - unfold ret in Hlegacy. by injection Hlegacy as <- <-. }
  destruct (is_not_None a) eqn:Ea.
  - rewrite andb_false_r in Hrun.
    destruct (copy_run _ _ _ _ _ _ _ Ha Hrun) as [_ Hsome].
    apply Hsome. by destruct a.
  - rewrite andb_true_r in Hrun. destruct (is_not_None p).
    + apply bind_Ret in Hrun as (p' & s1 & Hp' & Hrun).
      rewrite self_getitem_run, Hp in Hp'. injection Hp' as <- <-.
      apply bind_Ret in Hrun as (h' & s1 & Hh' & Hrun).
      rewrite self_getitem_run, Hh in Hh'. injection Hh' as <- <-.
      apply bind_Ret in Hrun as (po' & s1 & Hpo' & Hrun).
      rewrite self_getitem_run, Hpo in Hpo'. injection Hpo' as <- <-.
      apply lift_Ret in Hrun as [Hset _].
      eapply DictWithRecursion.setitem__getitem_, Hset.
    + destruct (copy_run _ _ _ _ _ _ _ Ha Hrun) as [Hnone _].
      apply Hnone. by destruct a.
Qed.

(** The unified address after a completed [update]. *)
Lemma update_address s s' text template p a h po :
  files s !! base_path s = Some text -> yaml_load text = Ret template ->
  DictWithRecursion.getitem_ (_data s) "appservice.protocol" = Ret p ->
  DictWithRecursion.getitem_ (_data s) "appservice.address" = Ret a ->
  DictWithRecursion.getitem_ (_data s) "appservice.hostname" = Ret h ->
  DictWithRecursion.getitem_ (_data s) "appservice.port" = Ret po ->
  update s = (Ret tt, s') ->
  DictWithRecursion.getitem_ (_data s') "appservice.address" =
    if is_not_None a then Ret a
    else if is_not_None p
         then Ret (VStr (format p +:+ "://" +:+ format h +:+ ":" +:+ format po))
         else DictWithRecursion.getitem_ (DictWithRecursion.init template)
                "appservice.address".
Proof.
  intros Hfile Hyaml Hp Ha Hh Hpo Hrun.
  destruct (update_at 3 step_address _ _ _ _ eq_refl Hfile Hyaml Hrun)
    as (b1 & s1 & b2 & s2 & b3 & s3 & Hbefore & Hstep & Hafter & _ & ->).
  assert (Hpost : Forall (keeps_base "appservice.address") (drop 4 all_steps))
    by all_keep_base.
  assert (Hpre : Forall (keeps_base "appservice.address") (take 3 all_steps))
    by all_keep_base.
  rewrite (run_steps_keeps_base _ _ Hpost _ _ _ _ Hafter).
  assert (Hq : forall k, Forall (fun f : step => forall base, preserves k (f base))
                                 (take 3 all_steps)) by (intros k; all_quiet).
  pose proof (step_address_run _ _ _ _ _ _ _ _
                (preserves_take_source _ _ _ _ _ _ _ (Hq _) Hbefore Hp)
                (preserves_take_source _ _ _ _ _ _ _ (Hq _) Hbefore Ha)
                (preserves_take_source _ _ _ _ _ _ _ (Hq _) Hbefore Hh)
                (preserves_take_source _ _ _ _ _ _ _ (Hq _) Hbefore Hpo) Hstep) as Hres.
  destruct (is_not_None a); [exact Hres|]. destruct (is_not_None p); [exact Hres|].
  rewrite Hres. apply (run_steps_keeps_base _ _ Hpre _ _ _ _ Hbefore).
Qed.

(** A step that leaves the state as it is. *)
Definition stable (f : step) : Prop :=
  forall base s r s', f base s = (r, s') -> s' = s.

Lemma run_steps_stable steps : Forall stable steps -> stable (run_steps steps).
Proof.
  induction 1 as [|f steps Hf _ IH]; intros base s r s'; simpl.
  - unfold ret. by intros [= _ <-].
  - unfold bind. destruct (f base s) as [[b|e] s1] eqn:Hrun.
    + intros Hrest. apply IH in Hrest. apply Hf in Hrun. congruence.
    + intros [= _ <-]. eapply Hf, Hrun.
Qed.

Lemma copy_stable from_path to_path : stable (copy from_path to_path).
Proof. intros base s r s'. apply copy_state. Qed.

Lemma step_address_stable : stable step_address.
Proof. intros base s r s'. apply step_address_state. Qed.

Lemma step_shared_secret_run base s base' s' v :
  DictWithRecursion.getitem_ base "appservice.provisioning.shared_secret" = Ret v ->
  step_shared_secret base s = (Ret base', s') ->
  if eq_str v "generate" then
    DictWithRecursion.getitem_ base' "appservice.provisioning.shared_secret" =
      Ret (VStr (new_token (drawn s))) /\ drawn s' = S (drawn s)
  else base' = base /\ s' = s.
Proof.
  intros Hv Hrun. unfold step_shared_secret in Hrun.
  apply bind_Ret in Hrun as (v' & s1 & [Hv' ->]%lift_Ret & Hrun).
  rewrite Hv in Hv'. injection Hv' as <-.
  destruct (eq_str v "generate").
  - apply bind_Ret in Hrun as (token & s2 & Htoken & Hrun).
    unfold _new_token, bind, gets, modify, ret in Htoken. simpl in Htoken.
    injection Htoken as <- <-.
    apply lift_Ret in Hrun as [Hset ->]. split; [|reflexivity].
    eapply DictWithRecursion.setitem__getitem_, Hset.
  - unfold ret in Hrun. by injection Hrun as <- <-.
Qed.

(** The provisioning secret after a completed [update]: [v] is what the
    source holds and [t] what the template holds. *)
Lemma update_shared_secret s s' text template v t :
  files s !! base_path s = Some text -> yaml_load text = Ret template ->
  DictWithRecursion.getitem_ (_data s) "appservice.provisioning.shared_secret" = Ret v ->
  DictWithRecursion.getitem_ (DictWithRecursion.init template)
    "appservice.provisioning.shared_secret" = Ret t ->
  update s = (Ret tt, s') ->
  let effective := if is_not_None v then v else t in
  DictWithRecursion.getitem_ (_data s') "appservice.provisioning.shared_secret" =
    Ret (if eq_str effective "generate" then VStr (new_token (drawn s)) else effective).
Proof.
  intros Hfile Hyaml Hv Ht Hrun effective.
  destruct (update_at 13 step_shared_secret _ _ _ _ eq_refl Hfile Hyaml Hrun)
    as (b1 & s1 & b2 & s2 & b3 & s3 & Hbefore & Hstep & Hafter & _ & ->).
  assert (Hpost : Forall (keeps_base "appservice.provisioning.shared_secret")
                    (drop 14 all_steps)) by all_keep_base.
  rewrite (run_steps_keeps_base _ _ Hpost _ _ _ _ Hafter).
  change (take 13 all_steps)
    with (take 12 all_steps ++ [copy "appservice.provisioning.shared_secret" None])%list
    in Hbefore.
  apply run_steps_Ret_app in Hbefore as (b0 & s0 & Hbefore & Hcopy).
  cbn [run_steps] in Hcopy. apply bind_Ret in Hcopy as (b1' & s1' & Hcopy & Hret).
  unfold ret in Hret. injection Hret as -> ->.
  assert (Hstable : Forall stable (take 12 all_steps)).
  { unfold_steps.
    repeat (apply Forall_cons; split;
            [first [apply copy_stable | apply step_address_stable]|]).
    apply Forall_nil_2. }
  pose proof (run_steps_stable _ Hstable _ _ _ _ Hbefore) as ->.
  pose proof (copy_state _ _ _ _ _ _ Hcopy) as ->.
  assert (Hpre : Forall (keeps_base "appservice.provisioning.shared_secret")
                   (take 12 all_steps)) by all_keep_base.
  pose proof (run_steps_keeps_base _ _ Hpre _ _ _ _ Hbefore) as Hb0.
  destruct (copy_run _ _ _ _ _ _ _ Hv Hcopy) as [Hnone Hsome].
  assert (Hb1 : DictWithRecursion.getitem_ b1 "appservice.provisioning.shared_secret"
                = Ret effective).
  { unfold effective. destruct v; simpl; try (apply Hsome; discriminate).
    rewrite Hnone by done. by rewrite Hb0. }
  pose proof (step_shared_secret_run _ _ _ _ _ Hb1 Hstep) as Hres.
  destruct (eq_str effective "generate").
  - by destruct Hres as [-> _].
  - destruct Hres as [-> _]. exact Hb1.
Qed.


Lemma step_logging_run base s base' s' d l :
  DictWithRecursion.getitem_ (_data s) "appservice.debug" = Ret d ->
  DictWithRecursion.getitem_ (_data s) "logging" = Ret l ->
  step_logging base s = (Ret base', s') ->
  if is_not_None l then DictWithRecursion.getitem_ base' "logging" = Ret l
  else if is_not_None d then
    DictWithRecursion.getitem_ base' "logging.root.level" =
      Ret (VStr (if truthy d then "DEBUG" else "INFO")) /\
    DictWithRecursion.getitem_ base' "logging.loggers.mau.level" =
      Ret (VStr (if truthy d then "DEBUG" else "INFO")) /\
    DictWithRecursion.getitem_ base' "logging.loggers.telethon.level" =
      Ret (VStr (if truthy d then "DEBUG" else "INFO"))
  else base' = base.
Proof.
  intros Hd Hl Hrun. unfold step_logging in Hrun.
  apply bind_Ret in Hrun as (c & s1 & Hc & Hrun).
  rewrite self_contains_run, (DictWithRecursion.contains__getitem_ _ _ _ Hd) in Hc.
  injection Hc as <- <-.
  apply bind_Ret in Hrun as (legacy & s1 & Hlegacy & Hrun).
  assert (legacy = (is_not_None d && negb (is_not_None l)) /\ s1 = s) as [-> ->].
  { destruct (is_not_None d).
    - apply bind_Ret in Hlegacy as (c & s2 & Hc & Hlegacy).
      rewrite self_contains_run, (DictWithRecursion.contains__getitem_ _ _ _ Hl) in Hc.
      injection Hc as <- <-. unfold ret in Hlegacy. by injection Hlegacy as <- <-.
    - unfold ret in Hlegacy. by injection Hlegacy as <- <-. }
  destruct (is_not_None l) eqn:El.
  - rewrite andb_false_r in Hrun.
    destruct (copy_run _ _ _ _ _ _ _ Hl Hrun) as [_ Hsome].
    apply Hsome. by destruct l.
  - rewrite andb_true_r in Hrun. destruct (is_not_None d).
    + apply bind_Ret in Hrun as (d' & s1 & Hd' & Hrun).
      rewrite self_getitem_run, Hd in Hd'. injection Hd' as <- <-.
      apply bind_Ret in Hrun as (b1 & s1 & [H1 ->]%lift_Ret & Hrun).
      apply bind_Ret in Hrun as (b2 & s1 & [H2 ->]%lift_Ret & Hrun).
      apply lift_Ret in Hrun as [H3 _].
      split; [|split].
      * rewrite (DictWithRecursion.setitem__frame _ _ _ _ "logging.root.level" H3)
          by DictWithRecursion.solve_diverge.
        rewrite (DictWithRecursion.setitem__frame _ _ _ _ "logging.root.level" H2)
          by DictWithRecursion.solve_diverge.
        eapply DictWithRecursion.setitem__getitem_, H1.
      * rewrite (DictWithRecursion.setitem__frame _ _ _ _ "logging.loggers.mau.level" H3)
          by DictWithRecursion.solve_diverge.
        eapply DictWithRecursion.setitem__getitem_, H2.
      * eapply DictWithRecursion.setitem__getitem_, H3.
    + destruct (copy_run _ _ _ _ _ _ _ Hl Hrun) as [Hnone _].
      apply Hnone. by destruct l.
Qed.

(** The logging configuration after a completed [update]. *)
Lemma update_logging s s' text template d l :
  files s !! base_path s = Some text -> yaml_load text = Ret template ->
  DictWithRecursion.getitem_ (_data s) "appservice.debug" = Ret d ->
  DictWithRecursion.getitem_ (_data s) "logging" = Ret l ->
  update s = (Ret tt, s') ->
  if is_not_None l then DictWithRecursion.getitem_ (_data s') "logging" = Ret l
  else if is_not_None d then
    DictWithRecursion.getitem_ (_data s') "logging.root.level" =
      Ret (VStr (if truthy d then "DEBUG" else "INFO")) /\
    DictWithRecursion.getitem_ (_data s') "logging.loggers.mau.level" =
      Ret (VStr (if truthy d then "DEBUG" else "INFO")) /\
    DictWithRecursion.getitem_ (_data s') "logging.loggers.telethon.level" =
      Ret (VStr (if truthy d then "DEBUG" else "INFO"))
  else DictWithRecursion.getitem_ (_data s') "logging" =
         DictWithRecursion.getitem_ (DictWithRecursion.init template) "logging".
Proof.
  intros Hfile Hyaml Hd Hl Hrun.
  destruct (update_at 56 step_logging _ _ _ _ eq_refl Hfile Hyaml Hrun)
    as (b1 & s1 & b2 & s2 & b3 & s3 & Hbefore & Hstep & Hafter & _ & ->).
  change (drop 57 all_steps) with (@nil step) in Hafter.
  cbn [run_steps] in Hafter. unfold ret in Hafter. injection Hafter as <- _.
  assert (Hqd : Forall (fun f : step => forall base, preserves "appservice.debug" (f base))
                  (take 56 all_steps)) by all_quiet.
  assert (Hql : Forall (fun f : step => forall base, preserves "logging" (f base))
                  (take 56 all_steps)) by all_quiet.
  pose proof (step_logging_run _ _ _ _ _ _
                (preserves_take_source _ _ _ _ _ _ _ Hqd Hbefore Hd)
                (preserves_take_source _ _ _ _ _ _ _ Hql Hbefore Hl) Hstep) as Hres.
  destruct (is_not_None l); [exact Hres|]. destruct (is_not_None d); [exact Hres|].
  rewrite Hres.
  assert (Hpre : Forall (keeps_base "logging") (take 56 all_steps)) by all_keep_base.
  apply (run_steps_keeps_base _ _ Hpre _ _ _ _ Hbefore).
Qed.

Lemma step_relaybot_legacy_run base s base' s' v :
  DictWithRecursion.getitem_ (_data s) "bridge.relaybot" = Ret VNone ->
  DictWithRecursion.getitem_ (_data s) "bridge.authless_relaybot_portals" = Ret v ->
  step_relaybot base s = (Ret base', s') ->
  (v = VNone -> base' = base) /\
  (v <> VNone -> DictWithRecursion.getitem_ base' "bridge.relaybot.authless_portals" = Ret v).
Proof.
  intros Hr Hv Hrun. unfold step_relaybot in Hrun.
  apply bind_Ret in Hrun as (c & s1 & Hc & Hrun).
  rewrite self_contains_run, (DictWithRecursion.contains__getitem_ _ _ _ Hr) in Hc.
  injection Hc as <- <-. simpl in Hrun.
  apply (copy_run _ _ _ _ _ _ _ Hv Hrun).
Qed.

(** A source without a relay bot section: the legacy switch moves under
    the section. *)
Lemma update_relaybot_legacy s s' text template v :
  files s !! base_path s = Some text -> yaml_load text = Ret template ->
  DictWithRecursion.getitem_ (_data s) "bridge.relaybot" = Ret VNone ->
  DictWithRecursion.getitem_ (_data s) "bridge.authless_relaybot_portals" = Ret v ->
  update s = (Ret tt, s') ->
  DictWithRecursion.getitem_ (_data s') "bridge.relaybot.authless_portals" =
    if is_not_None v then Ret v
    else DictWithRecursion.getitem_ (DictWithRecursion.init template)
           "bridge.relaybot.authless_portals".
Proof.
  intros Hfile Hyaml Hr Hv Hrun.
  destruct (update_at 46 step_relaybot _ _ _ _ eq_refl Hfile Hyaml Hrun)
    as (b1 & s1 & b2 & s2 & b3 & s3 & Hbefore & Hstep & Hafter & _ & ->).
  assert (Hpost : Forall (keeps_base "bridge.relaybot.authless_portals")
                    (drop 47 all_steps)) by all_keep_base.
  rewrite (run_steps_keeps_base _ _ Hpost _ _ _ _ Hafter).
  assert (Hqr : Forall (fun f : step => forall base, preserves "bridge.relaybot" (f base))
                  (take 46 all_steps)) by all_quiet.
  assert (Hqv : Forall (fun f : step => forall base,
                          preserves "bridge.authless_relaybot_portals" (f base))
                  (take 46 all_steps)) by all_quiet.
  destruct (step_relaybot_legacy_run _ _ _ _ _
              (preserves_take_source _ _ _ _ _ _ _ Hqr Hbefore Hr)
              (preserves_take_source _ _ _ _ _ _ _ Hqv Hbefore Hv) Hstep) as [Hnone Hsome].
  destruct v; simpl; try (apply Hsome; discriminate).
  rewrite Hnone by done.
  assert (Hpre : Forall (keeps_base "bridge.relaybot.authless_portals")
                   (take 46 all_steps)) by all_keep_base.
  apply (run_steps_keeps_base _ _ Hpre _ _ _ _ Hbefore).
Qed.


(** The settings of the relay bot section. *)
Definition relaybot_settings : list string :=
  [ "bridge.relaybot.authless_portals";
    "bridge.relaybot.whitelist_group_admins";
    "bridge.relaybot.whitelist";
    "bridge.relaybot.ignore_own_incoming_events" ].

(** Reads past a [copy] that writes elsewhere. *)
Ltac frame_copy q H :=
  match type of H with
  | copy ?f ?t _ _ = _ =>
      rewrite (copy_keeps_base q f t ltac:(DictWithRecursion.solve_diverge) _ _ _ _ H)
  end.

Lemma step_relaybot_run k base s base' s' r v :
  k ∈ relaybot_settings ->
  DictWithRecursion.getitem_ (_data s) "bridge.relaybot" = Ret r -> r <> VNone ->
  DictWithRecursion.getitem_ (_data s) k = Ret v ->
  step_relaybot base s = (Ret base', s') ->
  DictWithRecursion.getitem_ base' k =
    if is_not_None v then Ret v else DictWithRecursion.getitem_ base k.
Proof.
  intros Hk Hr Hne Hv Hrun. unfold step_relaybot in Hrun.
  apply bind_Ret in Hrun as (c & s0 & Hc & Hrun).
  rewrite self_contains_run, (DictWithRecursion.contains__getitem_ _ _ _ Hr) in Hc.
  injection Hc as <- <-.
  assert (Hpresent : is_not_None r = true) by by destruct r.
  rewrite Hpresent in Hrun. cbn [run_steps] in Hrun.
  apply bind_Ret in Hrun as (b1 & s1 & H1 & Hrun).
  apply bind_Ret in Hrun as (b2 & s2 & H2 & Hrun).
  apply bind_Ret in Hrun as (b3 & s3 & H3 & Hrun).
  apply bind_Ret in Hrun as (b4 & s4 & H4 & Hrun).
  unfold ret in Hrun. injection Hrun as <- <-.
  pose proof (copy_state _ _ _ _ _ _ H1) as ->.
  pose proof (copy_state _ _ _ _ _ _ H2) as ->.
  pose proof (copy_state _ _ _ _ _ _ H3) as ->.
  pose proof (copy_state _ _ _ _ _ _ H4) as ->.
  assert (Hcopy : forall b b', copy k None b s = (Ret b', s) ->
            DictWithRecursion.getitem_ b' k =
              if is_not_None v then Ret v else DictWithRecursion.getitem_ b k).
  { intros b b' Hcopy. destruct (copy_run _ _ _ _ _ _ _ Hv Hcopy) as [Hnone Hsome].
    destruct v; simpl; try (apply Hsome; discriminate). by rewrite Hnone. }
  unfold relaybot_settings in Hk.
  repeat (apply elem_of_cons in Hk as [->|Hk]); [| | | |by apply elem_of_nil in Hk].
  - frame_copy "bridge.relaybot.authless_portals" H4.
    frame_copy "bridge.relaybot.authless_portals" H3.
    frame_copy "bridge.relaybot.authless_portals" H2.
    apply (Hcopy _ _ H1).
  - frame_copy "bridge.relaybot.whitelist_group_admins" H4.
    frame_copy "bridge.relaybot.whitelist_group_admins" H3.
    rewrite (Hcopy _ _ H2).
    by frame_copy "bridge.relaybot.whitelist_group_admins" H1.
  - frame_copy "bridge.relaybot.whitelist" H4.
    rewrite (Hcopy _ _ H3).
    frame_copy "bridge.relaybot.whitelist" H2.
    by frame_copy "bridge.relaybot.whitelist" H1.
  - rewrite (Hcopy _ _ H4).
    frame_copy "bridge.relaybot.ignore_own_incoming_events" H3.
    frame_copy "bridge.relaybot.ignore_own_incoming_events" H2.
    by frame_copy "bridge.relaybot.ignore_own_incoming_events" H1.
Qed.

(** A source with a relay bot section: its four settings are carried
    over, the legacy switch is not looked at. *)
Lemma update_relaybot_setting k s s' text template r v :
  k ∈ relaybot_settings ->
  files s !! base_path s = Some text -> yaml_load text = Ret template ->
  DictWithRecursion.getitem_ (_data s) "bridge.relaybot" = Ret r -> r <> VNone ->
  DictWithRecursion.getitem_ (_data s) k = Ret v ->
  update s = (Ret tt, s') ->
  DictWithRecursion.getitem_ (_data s') k =
    if is_not_None v then Ret v
    else DictWithRecursion.getitem_ (DictWithRecursion.init template) k.
Proof.
  intros Hk Hfile Hyaml Hr Hne Hv Hrun.
  destruct (update_at 46 step_relaybot _ _ _ _ eq_refl Hfile Hyaml Hrun)
    as (b1 & s1 & b2 & s2 & b3 & s3 & Hbefore & Hstep & Hafter & _ & ->).
  assert (Hqr : Forall (fun f : step => forall base, preserves "bridge.relaybot" (f base))
                  (take 46 all_steps)) by all_quiet.
  pose proof (preserves_take_source _ _ _ _ _ _ _ Hqr Hbefore Hr) as Hr1.
  assert (Hall : Forall (fun f : step => forall base, preserves k (f base))
                   (take 46 all_steps) /\
                 Forall (keeps_base k) (take 46 all_steps) /\
                 Forall (keeps_base k) (drop 47 all_steps)).
  { unfold relaybot_settings in Hk.
    repeat (apply elem_of_cons in Hk as [->|Hk]); [| | | |by apply elem_of_nil in Hk].
    all: split; [all_quiet|split; all_keep_base]. }
  destruct Hall as (Hq & Hpre & Hpost).
  rewrite (run_steps_keeps_base _ _ Hpost _ _ _ _ Hafter).
  rewrite (step_relaybot_run _ _ _ _ _ _ _ Hk Hr1 Hne
             (preserves_take_source _ _ _ _ _ _ _ Hq Hbefore Hv) Hstep).
  destruct (is_not_None v); [reflexivity|].
  apply (run_steps_keeps_base _ _ Hpre _ _ _ _ Hbefore).
Qed.

(** **** Copying a mapping entry by entry *)

Lemma for_each_set_entry_run to_path kvs : forall base base' mt,
  DictWithRecursion.getitem_ base to_path = Ret (VMap mt) ->
  for_each (base_set_entry to_path) kvs base = Ret base' ->
  DictWithRecursion.getitem_ base' to_path =
    Ret (VMap (foldl (fun m (kv : string * value) => <[kv.1 := kv.2]> m) mt kvs)).
Proof.
  induction kvs as [|kv kvs IH]; intros base base' mt Hget; simpl.
  - by intros [= <-].
  - unfold base_set_entry at 1. rewrite Hget. simpl.
    destruct (DictWithRecursion.setitem_ base to_path (VMap (<[kv.1 := kv.2]> mt)))
      as [base1|] eqn:Hset; simpl; [|discriminate].
    intros Hrest. eapply IH; [|exact Hrest].
    eapply DictWithRecursion.setitem__getitem_, Hset.
Qed.

Lemma foldl_insert_union (kvs : list (string * value)) : forall mt : gmap string value,
  NoDup kvs.*1 ->
  foldl (fun m (kv : string * value) => <[kv.1 := kv.2]> m) mt kvs = list_to_map kvs ∪ mt.
Proof.
  induction kvs as [|[k v] kvs IH]; intros mt Hnd; simpl.
  - by rewrite (left_id_L ∅ (∪)).
  - apply NoDup_cons in Hnd as [Hk Hnd]. rewrite IH by done.
    rewrite <- insert_union_l. symmetry. apply insert_union_r.
    by apply not_elem_of_list_to_map_1.
Qed.

(** [copy_dict] on a source that holds the mapping [ms]: the entries of
    [ms] are written over the mapping [mt] the target starts from, the
    empty one when the target is overridden or absent. *)
Lemma copy_dict_run from_path to_path override base s base' s' ms t mt :
  DictWithRecursion.getitem_ (_data s) from_path = Ret (VMap ms) ->
  DictWithRecursion.getitem_ base (default from_path to_path) = Ret t ->
  (if override : bool then mt = ∅ else (t = VNone /\ mt = ∅) \/ t = VMap mt) ->
  copy_dict from_path to_path override base s = (Ret base', s') ->
  DictWithRecursion.getitem_ base' (default from_path to_path) = Ret (VMap (ms ∪ mt)).
Proof.
  intros Hsrc Ht Hmt Hrun. unfold copy_dict in Hrun.
  apply bind_Ret in Hrun as (c & s0 & Hc & Hrun).
  rewrite self_contains_run, (DictWithRecursion.contains__getitem_ _ _ _ Hsrc) in Hc.
  injection Hc as <- <-. simpl in Hrun.
  apply bind_Ret in Hrun as (fresh & s1 & Hfresh & Hrun).
  apply bind_Ret in Hrun as (base1 & s2 & Hbase1 & Hrun).
  apply bind_Ret in Hrun as (src & s3 & Hsrc' & Hrun).
  apply bind_Ret in Hrun as (kvs & s4 & [Hkvs _]%lift_Ret & Hrun).
  apply lift_Ret in Hrun as [Hloop _].
  assert (Hstart : DictWithRecursion.getitem_ base1 (default from_path to_path)
                   = Ret (VMap mt)).
  { destruct override.
    - subst mt. unfold ret in Hfresh. injection Hfresh as <- <-.
      apply lift_Ret in Hbase1 as [Hset _].
      eapply DictWithRecursion.setitem__getitem_, Hset.
    - apply bind_Ret in Hfresh as (cb & s5 & [Hcb ->]%lift_Ret & Hfresh).
      rewrite (DictWithRecursion.contains__getitem_ _ _ _ Ht) in Hcb. injection Hcb as <-.
      unfold ret in Hfresh. injection Hfresh as <- <-.
      destruct Hmt as [[-> ->]| ->]; simpl in Hbase1.
      + apply lift_Ret in Hbase1 as [Hset _].
        eapply DictWithRecursion.setitem__getitem_, Hset.
      + unfold ret in Hbase1. by injection Hbase1 as <- _. }
  assert (s3 = s /\ src = VMap ms) as [-> ->].
  { destruct override.
    - unfold ret in Hfresh. injection Hfresh as <- <-.
      apply lift_Ret in Hbase1 as [_ ->].
      rewrite self_getitem_run, Hsrc in Hsrc'. by injection Hsrc' as <- <-.
    - apply bind_Ret in Hfresh as (cb & s5 & [_ ->]%lift_Ret & Hfresh).
      unfold ret in Hfresh. injection Hfresh as _ <-.
      assert (s2 = s) as ->.
      { destruct fresh; [by apply lift_Ret in Hbase1 as [_ ->]|].
        unfold ret in Hbase1. by injection Hbase1 as _ <-. }
      rewrite self_getitem_run, Hsrc in Hsrc'. by injection Hsrc' as <- <-. }
  simpl in Hkvs. injection Hkvs as <-.
  rewrite (for_each_set_entry_run _ _ _ _ _ Hstart Hloop).
  rewrite foldl_insert_union by apply NoDup_fst_map_to_list.
  by rewrite list_to_map_to_list.
Qed.


(** **** The permission map of a source that needs no migration *)

Lemma step_permissions_verbatim_run base s base' s' mp :
  DictWithRecursion.getitem_ (_data s) "bridge.permissions" = Ret (VMap mp) ->
  DictWithRecursion.getitem_ (_data s) "bridge.whitelist" = Ret VNone ->
  DictWithRecursion.getitem_ (_data s) "bridge.admins" = Ret VNone ->
  step_permissions base s = (Ret base', s') ->
  DictWithRecursion.getitem_ base' "bridge.permissions" = Ret (VMap mp).
Proof.
  intros Hp Hw Ha Hrun. unfold step_permissions in Hrun.
  apply bind_Ret in Hrun as (c & s0 & Hc & Hrun).
  rewrite self_contains_run, (DictWithRecursion.contains__getitem_ _ _ _ Hp) in Hc.
  injection Hc as <- <-. simpl in Hrun.
  apply bind_Ret in Hrun as (mig & s1 & Hmig & Hrun).
  apply bind_Ret in Hmig as (cw & s2 & Hcw & Hmig).
  rewrite self_contains_run, (DictWithRecursion.contains__getitem_ _ _ _ Hw) in Hcw.
  injection Hcw as <- <-. simpl in Hmig.
  rewrite self_contains_run, (DictWithRecursion.contains__getitem_ _ _ _ Ha) in Hmig.
  injection Hmig as <- <-. simpl in Hrun.
  destruct (DictWithRecursion.getitem_ base "bridge.permissions") as [t|e] eqn:Ht.
  - rewrite <- (map_union_empty mp).
    exact (copy_dict_run "bridge.permissions" None true _ _ _ _ mp t ∅ Hp Ht eq_refl Hrun).
  - exfalso. unfold copy_dict in Hrun.
    apply bind_Ret in Hrun as (c & s0 & Hc & Hrun).
    rewrite self_contains_run, (DictWithRecursion.contains__getitem_ _ _ _ Hp) in Hc.
    injection Hc as <- <-. simpl in Hrun.
    apply bind_Ret in Hrun as (fresh & s1 & Hfresh & Hrun).
    unfold ret in Hfresh. injection Hfresh as <- <-.
    apply bind_Ret in Hrun as (base1 & s2 & [Hset _]%lift_Ret & _).
    unfold DictWithRecursion.setitem_ in Hset.
    rewrite DictWithRecursion.set_recursive in Hset.
    apply DictWithRecursion.set_Ret_path_ok, DictWithRecursion.getitem__returns in Hset.
    destruct Hset as [r Hr]. simpl in Hr. congruence.
Qed.

(** A source with a permission map and neither legacy list: the map is
    carried over entry by entry, in place of the template's. *)
Lemma update_permissions_verbatim s s' text template mp :
  files s !! base_path s = Some text -> yaml_load text = Ret template ->
  DictWithRecursion.getitem_ (_data s) "bridge.permissions" = Ret (VMap mp) ->
  DictWithRecursion.getitem_ (_data s) "bridge.whitelist" = Ret VNone ->
  DictWithRecursion.getitem_ (_data s) "bridge.admins" = Ret VNone ->
  update s = (Ret tt, s') ->
  DictWithRecursion.getitem_ (_data s') "bridge.permissions" = Ret (VMap mp).
Proof.
  intros Hfile Hyaml Hp Hw Ha Hrun.
  destruct (update_at 45 step_permissions _ _ _ _ eq_refl Hfile Hyaml Hrun)
    as (b1 & s1 & b2 & s2 & b3 & s3 & Hbefore & Hstep & Hafter & _ & ->).
  assert (Hpost : Forall (keeps_base "bridge.permissions") (drop 46 all_steps))
    by all_keep_base.
  rewrite (run_steps_keeps_base _ _ Hpost _ _ _ _ Hafter).
  assert (Hqp : Forall (fun f : step => forall base, preserves "bridge.permissions" (f base))
                  (take 45 all_steps)) by all_quiet.
  assert (Hqw : Forall (fun f : step => forall base, preserves "bridge.whitelist" (f base))
                  (take 45 all_steps)) by all_quiet.
  assert (Hqa : Forall (fun f : step => forall base, preserves "bridge.admins" (f base))
                  (take 45 all_steps)) by all_quiet.
  exact (step_permissions_verbatim_run _ _ _ _ _
           (preserves_take_source _ _ _ _ _ _ _ Hqp Hbefore Hp)
           (preserves_take_source _ _ _ _ _ _ _ Hqw Hbefore Hw)
           (preserves_take_source _ _ _ _ _ _ _ Hqa Hbefore Ha) Hstep).
Qed.


(** **** The message formats *)

Lemma step_message_formats_legacy_run base s base' s' v :
  DictWithRecursion.getitem_ (_data s) "bridge.message_formats.m_text" = Ret v ->
  v <> VNone ->
  step_message_formats base s = (Ret base', s') -> base' = base.
Proof.
  intros Hv Hne Hrun. unfold step_message_formats in Hrun.
  apply bind_Ret in Hrun as (c & s0 & Hc & Hrun).
  rewrite self_contains_run, (DictWithRecursion.contains__getitem_ _ _ _ Hv) in Hc.
  injection Hc as <- <-.
  assert (Hpresent : is_not_None v = true) by by destruct v.
  rewrite Hpresent in Hrun.
  apply bind_Ret in Hrun as (u & s1 & Hdel & Hrun).
  unfold self_delitem in Hdel.
  apply bind_Ret in Hdel as (d & s2 & Hd & Hdel).
  unfold gets in Hd. injection Hd as <- <-.
  apply bind_Ret in Hdel as (d' & s2 & [Hd' ->]%lift_Ret & Hdel).
  unfold modify in Hdel. injection Hdel as _ <-.
  assert (Hok : DictWithRecursion.path_ok (_data s) "bridge.message_formats").
  { apply (DictWithRecursion.path_ok_prefix "bridge.message_formats.m_text");
      [by exists "m_text"|].
    unfold DictWithRecursion.getitem_ in Hv. rewrite DictWithRecursion.get_recursive in Hv.
    eapply DictWithRecursion.get_Ret_path_ok, Hv. }
  destruct (DictWithRecursion.del_get _ _ VNone Hok) as (d'' & Hdel & Hget & _).
  unfold DictWithRecursion.delitem_ in Hd'.
  rewrite DictWithRecursion.delete_recursive, Hdel in Hd'. injection Hd' as <-.
  unfold copy_dict in Hrun.
  apply bind_Ret in Hrun as (c & s3 & Hc & Hrun).
  rewrite self_contains_run in Hc. simpl in Hc.
  unfold DictWithRecursion.contains_, DictWithRecursion.getitem_ in Hc.
  rewrite DictWithRecursion.get_recursive, Hget in Hc. simpl in Hc.
  injection Hc as <- <-.
  unfold ret in Hrun. by injection Hrun as <- _.
Qed.

Lemma step_message_formats_merge_run base s base' s' ms t mt :
  DictWithRecursion.getitem_ (_data s) "bridge.message_formats" = Ret (VMap ms) ->
  DictWithRecursion.getitem_ (_data s) "bridge.message_formats.m_text" = Ret VNone ->
  DictWithRecursion.getitem_ base "bridge.message_formats" = Ret t ->
  (t = VNone /\ mt = ∅) \/ t = VMap mt ->
  step_message_formats base s = (Ret base', s') ->
  DictWithRecursion.getitem_ base' "bridge.message_formats" = Ret (VMap (ms ∪ mt)).
Proof.
  intros Hms Hflat Ht Hmt Hrun. unfold step_message_formats in Hrun.
  apply bind_Ret in Hrun as (c & s0 & Hc & Hrun).
  rewrite self_contains_run, (DictWithRecursion.contains__getitem_ _ _ _ Hflat) in Hc.
  injection Hc as <- <-. simpl in Hrun.
  apply bind_Ret in Hrun as (u & s1 & Hu & Hrun).
  unfold ret in Hu. injection Hu as _ <-.
  exact (copy_dict_run "bridge.message_formats" None false _ _ _ _ ms t mt
           Hms Ht Hmt Hrun).
Qed.

(** A source with the flat legacy key ["m_text"] among its message
    formats: its formats are dropped and the template's stay. *)
Lemma update_message_formats_legacy s s' text template v :
  files s !! base_path s = Some text -> yaml_load text = Ret template ->
  DictWithRecursion.getitem_ (_data s) "bridge.message_formats.m_text" = Ret v ->
  v <> VNone ->
  update s = (Ret tt, s') ->
  DictWithRecursion.getitem_ (_data s') "bridge.message_formats" =
    DictWithRecursion.getitem_ (DictWithRecursion.init template) "bridge.message_formats".
Proof.
  intros Hfile Hyaml Hv Hne Hrun.
  destruct (update_at 38 step_message_formats _ _ _ _ eq_refl Hfile Hyaml Hrun)
    as (b1 & s1 & b2 & s2 & b3 & s3 & Hbefore & Hstep & Hafter & _ & ->).
  assert (Hpost : Forall (keeps_base "bridge.message_formats") (drop 39 all_steps))
    by all_keep_base.
  assert (Hpre : Forall (keeps_base "bridge.message_formats") (take 38 all_steps))
    by all_keep_base.
  assert (Hq : Forall (fun f : step => forall base,
                         preserves "bridge.message_formats.m_text" (f base))
                 (take 38 all_steps)) by all_quiet.
  rewrite (run_steps_keeps_base _ _ Hpost _ _ _ _ Hafter).
  rewrite (step_message_formats_legacy_run _ _ _ _ _
             (preserves_take_source _ _ _ _ _ _ _ Hq Hbefore Hv) Hne Hstep).
  apply (run_steps_keeps_base _ _ Hpre _ _ _ _ Hbefore).
Qed.

(** A source whose message formats are a mapping without ["m_text"]: its
    entries are written over the template's, and the template's other
    entries stay. *)
Lemma update_message_formats_merged s s' text template ms t mt :
  files s !! base_path s = Some text -> yaml_load text = Ret template ->
  DictWithRecursion.getitem_ (_data s) "bridge.message_formats" = Ret (VMap ms) ->
  DictWithRecursion.getitem_ (_data s) "bridge.message_formats.m_text" = Ret VNone ->
  DictWithRecursion.getitem_ (DictWithRecursion.init template) "bridge.message_formats"
    = Ret t ->
  (t = VNone /\ mt = ∅) \/ t = VMap mt ->
  update s = (Ret tt, s') ->
  DictWithRecursion.getitem_ (_data s') "bridge.message_formats" = Ret (VMap (ms ∪ mt)).
Proof.
  intros Hfile Hyaml Hms Hflat Ht Hmt Hrun.
  destruct (update_at 38 step_message_formats _ _ _ _ eq_refl Hfile Hyaml Hrun)
    as (b1 & s1 & b2 & s2 & b3 & s3 & Hbefore & Hstep & Hafter & _ & ->).
  assert (Hpost : Forall (keeps_base "bridge.message_formats") (drop 39 all_steps))
    by all_keep_base.
  assert (Hpre : Forall (keeps_base "bridge.message_formats") (take 38 all_steps))
    by all_keep_base.
  assert (Hq1 : Forall (fun f : step => forall base,
                          preserves "bridge.message_formats.m_text" (f base))
                  (take 38 all_steps)) by all_quiet.
  assert (Hq2 : Forall (fun f : step => forall base,
                          preserves "bridge.message_formats" (f base))
                  (take 38 all_steps)) by all_quiet.
  rewrite (run_steps_keeps_base _ _ Hpost _ _ _ _ Hafter).
  rewrite <- (run_steps_keeps_base _ _ Hpre _ _ _ _ Hbefore) in Ht.
  exact (step_message_formats_merge_run _ _ _ _ _ _ _
           (preserves_take_source _ _ _ _ _ _ _ Hq2 Hbefore Hms)
           (preserves_take_source _ _ _ _ _ _ _ Hq1 Hbefore Hflat) Ht Hmt Hstep).
Qed.

(** **** What [update] and [save] write *)

(** The files after [save]. *)
Definition saved_files (s : state) : gmap string string :=
  let written := <[path s := yaml_dump (_data s)]> (files s) in
  if truthy (_registration s) && negb (String.eqb (registration_path s) "")
  then <[registration_path s := yaml_dump (_registration s)]> written
  else written.

Lemma save_run s s' : save s = (Ret tt, s') -> s' = with_files (saved_files s) s.
Proof.
  unfold save, saved_files, dump_to, bind, gets, ret. simpl.
  destruct (writable (path s)); simpl; [|discriminate].
  destruct (truthy (_registration s) && negb (String.eqb (registration_path s) "")).
  - destruct (writable (registration_path s)); [|discriminate]. by intros [= <-].
  - by intros [= <-].
Qed.

Lemma save_Raise s e s' : save s = (Raise e, s') -> e = OSError.
Proof.
  unfold save, dump_to, bind, gets, ret. simpl.
  destruct (writable (path s)); simpl; [|by intros [= <- _]].
  destruct (truthy (_registration s) && negb (String.eqb (registration_path s) ""));
    [|discriminate].
  destruct (writable (registration_path s)); [discriminate|]. by intros [= <- _].
Qed.

(** [load] after [save] gives the document back, when the text [yaml]
    dumps for it loads as it and the registration is not written over the
    configuration file. *)
Lemma save_load s s1 :
  save s = (Ret tt, s1) ->
  yaml_load (yaml_dump (_data s)) = Ret (_data s) ->
  (truthy (_registration s) && negb (String.eqb (registration_path s) "") = true ->
   registration_path s <> path s) ->
  load s1 = (Ret tt, s1).
Proof.
  intros Hsave Hyaml Hpaths. apply save_run in Hsave as ->.
  unfold load, bind, gets, open_read, lift, modify. simpl.
  assert (saved_files s !! path s = Some (yaml_dump (_data s))) as ->.
  { unfold saved_files.
    destruct (truthy (_registration s) && negb (String.eqb (registration_path s) "")).
    - rewrite lookup_insert_ne by by apply Hpaths. apply lookup_insert_eq.
    - apply lookup_insert_eq. }
  rewrite Hyaml. reflexivity.
Qed.

Lemma load_base_state s r s' : load_base s = (r, s') -> s' = s.
Proof.
  unfold load_base, try_except, bind, gets, open_read, lift, ret. simpl.
  destruct (files s !! base_path s) as [text|]; simpl.
  - destruct (yaml_load text) as [v|[]]; simpl; by intros [= _ <-].
  - by intros [= _ <-].
Qed.

Lemma all_steps_quiet :
  Forall (fun f : step => forall base, preserves "" (f base)) all_steps.
Proof. all_quiet. Qed.

(** A completed [update] writes the new document to the configuration
    file and, when there is one, the registration to its file; it writes
    nothing else. *)
Lemma update_files s s' text template :
  files s !! base_path s = Some text -> yaml_load text = Ret template ->
  update s = (Ret tt, s') ->
  path s' = path s /\ registration_path s' = registration_path s /\
  _registration s' = _registration s /\
  files s' =
    let written := <[path s := yaml_dump (_data s')]> (files s) in
    if truthy (_registration s) && negb (String.eqb (registration_path s) "")
    then <[registration_path s := yaml_dump (_registration s)]> written
    else written.
Proof.
  intros Hfile Hyaml Hrun. unfold update in Hrun.
  apply bind_Ret in Hrun as (b & s0 & Hload & Hrun).
  rewrite (load_base_run _ _ _ Hfile Hyaml) in Hload. injection Hload as <- <-.
  apply bind_Ret in Hrun as (base & s1 & Hsteps & Hrun).
  apply bind_Ret in Hrun as (u & s2 & Hmod & Hsave).
  unfold modify in Hmod. injection Hmod as _ <-.
  destruct (preserves_run_steps _ _ all_steps_quiet _ _ _ _ Hsteps)
    as (_ & Hf & Hp & Hrp & _ & Hreg).
  apply save_run in Hsave as ->. unfold saved_files. simpl.
  rewrite Hf, Hp, Hrp, Hreg. done.
Qed.

(** An [update] that fails anywhere but in writing leaves every file as
    it was. *)
Lemma update_failure_files s e s' :
  update s = (Raise e, s') -> e <> OSError -> files s' = files s.
Proof.
  intros Hrun Hne. unfold update, bind in Hrun.
  destruct (load_base s) as [[[base|]|e0] s0] eqn:Hload;
    apply load_base_state in Hload as ->.
  - destruct (run_steps _ base s) as [[b|e1] s1] eqn:Hsteps.
    + destruct (preserves_run_steps _ _ all_steps_quiet _ _ _ _ Hsteps)
        as (_ & Hf & _).
      unfold modify in Hrun. apply save_Raise in Hrun. done.
    + injection Hrun as _ <-.
      by destruct (preserves_run_steps _ _ all_steps_quiet _ _ _ _ Hsteps)
        as (_ & Hf & _).
  - discriminate.
  - by injection Hrun as _ <-.
Qed.


(** **** The deletion of the legacy message formats *)

(** A step that leaves the source document as it is. *)
Definition data_stable (f : step) : Prop :=
  forall base s r s', f base s = (r, s') -> _data s' = _data s.

Lemma run_steps_data_stable steps : Forall data_stable steps -> data_stable (run_steps steps).
Proof.
  induction 1 as [|f steps Hf _ IH]; intros base s r s'; simpl.
  - unfold ret. by intros [= _ <-].
  - unfold bind. destruct (f base s) as [[b|e] s1] eqn:Hrun.
    + intros Hrest. apply IH in Hrest. apply Hf in Hrun. congruence.
    + intros [= _ <-]. eapply Hf, Hrun.
Qed.

Lemma copy_data_stable from_path to_path : data_stable (copy from_path to_path).
Proof. intros base s r s' Hrun. by apply copy_state in Hrun as ->. Qed.

Lemma step_address_data_stable : data_stable step_address.
Proof. intros base s r s' Hrun. by apply step_address_state in Hrun as ->. Qed.

Lemma step_shared_secret_data_stable : data_stable step_shared_secret.
Proof. intros base s r s'. apply step_shared_secret_data. Qed.

(** The message format step on a source with the legacy key: the
    message formats are deleted from the source document, and [base] is
    left as it is. *)
Lemma step_message_formats_legacy_source base s base' s' v :
  DictWithRecursion.getitem_ (_data s) "bridge.message_formats.m_text" = Ret v ->
  v <> VNone ->
  step_message_formats base s = (Ret base', s') ->
  exists d',
    DictWithRecursion.delitem_ (_data s) "bridge.message_formats" = Ret d' /\
    DictWithRecursion.getitem_ d' "bridge.message_formats" = Ret VNone /\
    base' = base /\ s' = with_data d' s.
Proof.
  intros Hv Hne Hrun.
  pose proof (step_message_formats_legacy_run _ _ _ _ _ Hv Hne Hrun) as ->.
  unfold step_message_formats in Hrun.
  apply bind_Ret in Hrun as (c & s0 & Hc & Hrun).
  rewrite self_contains_run, (DictWithRecursion.contains__getitem_ _ _ _ Hv) in Hc.
  injection Hc as <- <-.
  assert (Hpresent : is_not_None v = true) by by destruct v.
  rewrite Hpresent in Hrun.
  apply bind_Ret in Hrun as (u & s1 & Hdel & Hrun).
  unfold self_delitem in Hdel.
  apply bind_Ret in Hdel as (d & s2 & Hd & Hdel).
  unfold gets in Hd. injection Hd as <- <-.
  apply bind_Ret in Hdel as (d' & s2 & [Hd' ->]%lift_Ret & Hdel).
  unfold modify in Hdel. injection Hdel as _ <-.
  apply copy_dict_state in Hrun as ->.
  exists d'. split; [exact Hd'|]. split; [|done].
  assert (Hok : DictWithRecursion.path_ok (_data s) "bridge.message_formats").
  { apply (DictWithRecursion.path_ok_prefix "bridge.message_formats.m_text");
      [by exists "m_text"|].
    unfold DictWithRecursion.getitem_ in Hv. rewrite DictWithRecursion.get_recursive in Hv.
    eapply DictWithRecursion.get_Ret_path_ok, Hv. }
  destruct (DictWithRecursion.del_get _ _ VNone Hok) as (d'' & Hdel & Hget & _).
  unfold DictWithRecursion.delitem_ in Hd'.
  rewrite DictWithRecursion.delete_recursive, Hdel in Hd'. injection Hd' as <-.
  unfold DictWithRecursion.getitem_. by rewrite DictWithRecursion.get_recursive.
Qed.

(** A completed [update] on a source with the legacy key, cut at the
    message format step: the steps before it leave the source document as
    it is, and the step deletes the message formats from it. *)
Lemma update_message_formats_legacy_source s s' text template v :
  files s !! base_path s = Some text -> yaml_load text = Ret template ->
  DictWithRecursion.getitem_ (_data s) "bridge.message_formats.m_text" = Ret v ->
  v <> VNone ->
  update s = (Ret tt, s') ->
  exists b1 s1 d',
    run_steps (take 38 all_steps) (DictWithRecursion.init template) s = (Ret b1, s1) /\
    _data s1 = _data s /\
    DictWithRecursion.delitem_ (_data s) "bridge.message_formats" = Ret d' /\
    DictWithRecursion.getitem_ d' "bridge.message_formats" = Ret VNone /\
    step_message_formats b1 s1 = (Ret b1, with_data d' s1).
Proof.
  intros Hfile Hyaml Hv Hne Hrun.
  destruct (update_at 38 step_message_formats _ _ _ _ eq_refl Hfile Hyaml Hrun)
    as (b1 & s1 & b2 & s2 & b3 & s3 & Hbefore & Hstep & _).
  assert (Hstable : Forall data_stable (take 38 all_steps)).
  { unfold_steps.
    repeat (apply Forall_cons; split;
            [first [apply copy_data_stable | apply step_address_data_stable
                   | apply step_shared_secret_data_stable]|]).
    apply Forall_nil_2. }
  pose proof (run_steps_data_stable _ Hstable _ _ _ _ Hbefore) as Hdata.
  assert (Hv1 : DictWithRecursion.getitem_ (_data s1) "bridge.message_formats.m_text"
                = Ret v) by by rewrite Hdata.
  destruct (step_message_formats_legacy_source _ _ _ _ _ Hv1 Hne Hstep)
    as (d' & Hdel & Hget & -> & ->).
  exists b1, s1, d'. rewrite <- Hdata. done.
Qed.


End Migration.


(** *** [Config.generate_registration] *)

(** What [generate_registration] takes from [str]:
    [template.format(name=value)], which raises on a template that asks
    for a field other than [name]. *)
Class Formatter := {
  str_format : string -> string -> string -> result string;
}.

Definition with_registration (reg : value) (s : state) : state :=
  {| _data := _data s; path := path s; registration_path := registration_path s;
     base_path := base_path s; _registration := reg;
     files := files s; drawn := drawn s |}.

Section Registration.
Context `{Runtime} `{Formatter}.
Local Open Scope pym_scope.

(** [v.format(name=arg)]: only strings have the method. *)
Definition format_method (v : value) (name arg : string) : result value :=
  match v with
  | VStr template => (text <- str_format template name arg ;; Ret (VStr text))%py
  | _ => Raise AttributeError
  end.

(** [self.get(key, default_value)] and [self.set(key, v)] on the object. *)
Definition self_get (key : string) (default_value : value) : M state value :=
  d <- gets _data ;; lift (DictWithRecursion.get d key default_value true).

Definition self_set (key : string) (v : value) : M state unit :=
  d <- gets _data ;;
  d' <- lift (DictWithRecursion.set d key v true) ;;
  modify (with_data d').

(** One namespace of the registration: an exclusive pattern. *)
Definition namespace (regex : string) : value :=
  VList [VMap {["exclusive" := VBool true; "regex" := VStr regex]}].

(** [Config.generate_registration]. *)
Definition generate_registration : M state unit :=
  homeserver <- self_getitem "homeserver.domain" ;;
  username_template <- self_get "bridge.username_template" (VStr "telegram_{userid}") ;;
  username_format <- lift (format_method username_template "userid" ".+") ;;
  alias_template <- self_get "bridge.alias_template" (VStr "telegram_{groupname}") ;;
  alias_format <- lift (format_method alias_template "groupname" ".+") ;;
  as_token <- _new_token ;;
  self_set "appservice.as_token" (VStr as_token) ;;;
  hs_token <- _new_token ;;
  self_set "appservice.hs_token" (VStr hs_token) ;;;
  id <- self_getitem "appservice.id" ;;
  as_token <- self_getitem "appservice.as_token" ;;
  hs_token <- self_getitem "appservice.hs_token" ;;
  url <- self_getitem "appservice.address" ;;
  sender_localpart <- self_getitem "appservice.bot_username" ;;
  modify (with_registration
            (VMap {[ "id" := or_else id (VStr "telegram");
                     "as_token" := as_token;
                     "hs_token" := hs_token;
                     "namespaces" :=
                       VMap {[ "users" :=
                                 namespace ("@" +:+ format username_format +:+ ":"
                                            +:+ format homeserver);
                               "aliases" :=
                                 namespace ("#" +:+ format alias_format +:+ ":"
                                            +:+ format homeserver) ]};
                     "url" := url;
                     "sender_localpart" := sender_localpart;
                     "rate_limited" := VBool false ]})).

Lemma self_set_Ret key v s u s' :
  self_set key v s = (Ret u, s') ->
  exists d', DictWithRecursion.setitem_ (_data s) key v = Ret d' /\ s' = with_data d' s.
Proof.
  unfold self_set, bind, gets, lift, modify. simpl.
  unfold DictWithRecursion.setitem_.
  destruct (DictWithRecursion.set (_data s) key v true) as [d'|]; [|discriminate].
  intros [= _ <-]. eauto.
Qed.

Lemma _new_token_run s : _new_token s = (Ret (new_token (drawn s)), with_drawn (S (drawn s)) s).
Proof. reflexivity. Qed.

(** A mapping with an entry is true. *)
Lemma truthy_lookup (m : gmap string value) k v : m !! k = Some v -> truthy (VMap m) = true.
Proof.
  intros Hk. simpl. apply negb_true_iff, Nat.eqb_neq.
  intros Hsize. apply map_size_empty_iff in Hsize. subst m. by rewrite lookup_empty in Hk.
Qed.

(** A completed [generate_registration]: two tokens are drawn, the first
    is the [as_token] and the second the [hs_token], of the document and
    of the registration alike; no file is touched. *)
Lemma generate_registration_run s s' :
  generate_registration s = (Ret tt, s') ->
  drawn s' = S (S (drawn s)) /\
  DictWithRecursion.getitem_ (_data s') "appservice.as_token"
    = Ret (VStr (new_token (drawn s))) /\
  DictWithRecursion.getitem_ (_data s') "appservice.hs_token"
    = Ret (VStr (new_token (S (drawn s)))) /\
  (exists reg, _registration s' = VMap reg /\
     reg !! "as_token" = Some (VStr (new_token (drawn s))) /\
     reg !! "hs_token" = Some (VStr (new_token (S (drawn s))))) /\
  files s' = files s /\ path s' = path s /\ registration_path s' = registration_path s.
Proof.
  intros Hrun. unfold generate_registration in Hrun.
  apply bind_Ret in Hrun as (homeserver & s0 & Hhs & Hrun).
  rewrite self_getitem_run in Hhs. injection Hhs as _ <-.
  apply bind_Ret in Hrun as (ut & s0 & Hut & Hrun).
  unfold self_get, bind, gets in Hut. simpl in Hut.
  apply lift_Ret in Hut as [_ ->].
  apply bind_Ret in Hrun as (uf & s0 & [_ ->]%lift_Ret & Hrun).
  apply bind_Ret in Hrun as (alt & s0 & Hat & Hrun).
  unfold self_get, bind, gets in Hat. simpl in Hat.
  apply lift_Ret in Hat as [_ ->].
  apply bind_Ret in Hrun as (af & s0 & [_ ->]%lift_Ret & Hrun).
  apply bind_Ret in Hrun as (t1 & s1 & Ht1 & Hrun).
  rewrite _new_token_run in Ht1. injection Ht1 as <- <-.
  apply bind_Ret in Hrun as (u1 & s2 & Hset1 & Hrun).
  apply self_set_Ret in Hset1 as (d1 & Hd1 & ->).
  apply bind_Ret in Hrun as (t2 & s3 & Ht2 & Hrun).
  rewrite _new_token_run in Ht2. injection Ht2 as <- <-.
  apply bind_Ret in Hrun as (u2 & s4 & Hset2 & Hrun).
  apply self_set_Ret in Hset2 as (d2 & Hd2 & ->).
  simpl in Hd1, Hd2.
  assert (Has : DictWithRecursion.getitem_ d2 "appservice.as_token"
                = Ret (VStr (new_token (drawn s)))).
  { rewrite (DictWithRecursion.setitem__frame _ _ _ _ "appservice.as_token" Hd2)
      by DictWithRecursion.solve_diverge.
    eapply DictWithRecursion.setitem__getitem_, Hd1. }
  assert (Hhst : DictWithRecursion.getitem_ d2 "appservice.hs_token"
                 = Ret (VStr (new_token (S (drawn s)))))
    by (eapply DictWithRecursion.setitem__getitem_, Hd2).
  apply bind_Ret in Hrun as (id & s5 & Hid & Hrun).
  rewrite self_getitem_run in Hid. injection Hid as _ <-.
  apply bind_Ret in Hrun as (a & s5 & Ha & Hrun).
  rewrite self_getitem_run in Ha. simpl in Ha. rewrite Has in Ha. injection Ha as <- <-.
  apply bind_Ret in Hrun as (h & s5 & Hh & Hrun).
  rewrite self_getitem_run in Hh. simpl in Hh. rewrite Hhst in Hh. injection Hh as <- <-.
  apply bind_Ret in Hrun as (url & s5 & Hurl & Hrun).
  rewrite self_getitem_run in Hurl. injection Hurl as _ <-.
  apply bind_Ret in Hrun as (sender & s5 & Hsender & Hrun).
  rewrite self_getitem_run in Hsender. injection Hsender as _ <-.
  unfold modify in Hrun. injection Hrun as <-. simpl.
  repeat split; try assumption.
  eexists. split; [reflexivity|]. split.
  - rewrite lookup_insert_ne by discriminate. apply lookup_insert_eq.
  - do 2 rewrite lookup_insert_ne by discriminate. apply lookup_insert_eq.
Qed.

(** [generate_registration] and then [save]: with a registration path,
    the registration is written to it; without one, only the
    configuration file is written. *)
Lemma generate_registration_save s s1 s2 :
  generate_registration s = (Ret tt, s1) ->
  save s1 = (Ret tt, s2) ->
  files s2 =
    let written := <[path s := yaml_dump (_data s1)]> (files s) in
    if String.eqb (registration_path s) "" then written
    else <[registration_path s := yaml_dump (_registration s1)]> written.
Proof.
  intros Hgen Hsave.
  destruct (generate_registration_run _ _ Hgen)
    as (_ & _ & _ & (reg & Hreg & Has & _) & Hf & Hp & Hrp).
  apply save_run in Hsave as ->. unfold saved_files. simpl.
  rewrite Hreg, (truthy_lookup _ _ _ Has), Hf, Hp, Hrp. simpl.
  by destruct (String.eqb (registration_path s) "").
Qed.


End Registration.


End Config.

(** ** [IntentAPI]: the identity handle *)

Module Intent.
Import Py.

(** *** [mxid_regex = re.compile("@(.+):(.+)")] *)

(** The characters [.] matches: all but the line feed. *)
Definition dot (c : ascii) : bool := negb (Ascii.eqb c "010"%char).
Arguments dot : simpl never.

(** [:(.+)] matches at the head of [s]: a colon and one more character
    that [.] matches (the group then runs on, greedily, and what follows
    the pattern is free). *)
Definition colon_group (s : string) : bool :=
  match s with
  | String ":" (String d _) => dot d
  | _ => false
  end.

(** [(.+):(.+)] at the head of [s]: the text of group 1.  The group is
    greedy: it takes a further character whenever the whole pattern still
    matches that way, and stops before a colon otherwise. *)
Fixpoint groups (s : string) : option string :=
  match s with
  | EmptyString => None
  | String c s' =>
      if dot c then
        match groups s' with
        | Some g => Some (String c g)
        | None => if colon_group s' then Some (String c EmptyString) else None
        end
      else None
  end.

(** The pattern at the head of [s]. *)
Definition match_here (s : string) : option string :=
  match s with
  | String "@" s' => groups s'
  | _ => None
  end.

(** [mxid_regex.search(s)]: the leftmost position at which the pattern
    matches; the result is [results.group(1)]. *)
Fixpoint search (s : string) : option string :=
  match match_here s with
  | Some g => Some g
  | None => match s with
            | EmptyString => None
            | String _ s' => search s'
            end
  end.

(** *** The handle *)

(** An [IntentAPI] object.  [bot] tells whether [self.bot] is set; the
    client, the state store and the logger are always there.  [domain] is
    [self.client.domain] and [identity] is [self.client.identity]. *)
Record handle := {
  mxid : string;
  localpart : string;
  bot : bool;
  domain : string;
  identity : string;
  registered : bool;
}.

(** [IntentAPI.__init__]. *)
Definition __init__ (mxid : string) (bot : bool) (domain identity : string)
  : result handle :=
  match search mxid with
  | None => Raise (ValueError "invalid MXID")
  | Some g =>
      Ret {| mxid := mxid; localpart := g; bot := bot; domain := domain;
             identity := identity; registered := false |}
  end.

(** *** The collaborators *)

(** Whom a request goes through: [self.client], [self.bot], or
    [urllib.request]. *)
Inductive actor : Type := Client | Bot | Urllib.

(** The requests: the methods of [MatrixHttpApi] the handle calls, and
    [_send] for the three methods [HTTPAPI] defines itself. *)
Inductive call : Type :=
| Register (content : value)
| JoinRoom (room_id : string)
| LeaveRoom (room_id : string)
| InviteUser (room_id user_id : string)
| KickUser (room_id user_id : string) (message : value)
| SetDisplayName (user_id : string) (name : value)
| SetAvatarUrl (user_id : string) (url : value)
| MediaUpload (data : value) (mime_type : value)
| GetDownloadUrl (url : value)
| UrlOpen (url : value)
| SetRoomAlias (room_id alias : string)
| RemoveRoomAlias (alias : string)
| SetRoomName (room_id : string) (name : value)
| GetPowerLevels (room_id : string)
| SendMessageEvent (room_id type : string) (body : value) (txn_id : value)
| SendStateEvent (room_id type : string) (body : value) (state_key : string)
| GetRoomMembers (room_id : string)
| GetRoomState (room_id : string)
| Send (method path : string) (content : value).

(** What a request comes back with: the response, or a failure with its
    [content]: a [MatrixRequestError] from the Matrix client, an [OSError]
    from [urllib]. *)
Inductive answer : Type :=
| Ok (response : value)
| Failed (content : string).

(** The homeserver and the libraries, as the handle meets them.  A request
    is answered or fails with [MatrixRequestError]; failures below the
    Matrix client (the connection itself) are left out. *)
Class Homeserver (T : Type) := {
  (** The answer to a request, and the homeserver after it. *)
  respond : T -> actor -> call -> answer * T;
  (** [json.loads(content)["errcode"]], or [None] when either raises. *)
  json_errcode : string -> option value;
  (** [magic.from_buffer(data, mime=True)]. *)
  magic_from_buffer : value -> value;
  (** Whether, by the power levels of a room, a user may send an event
      type: what [state_store.has_power_level] computes. *)
  level_allows : value -> string -> string -> bool;
}.

(** Modelled from the spec: the state store
    ([mautrix_appservice/state_store.py] is not among the sources).  Per
    room and identity it holds [joined] and [invited]; per room, the power
    levels once fetched.  [joined] sets the first flag, [left] clears it,
    [invited] sets the second; [is_joined] reads the first and is false
    for a pair never seen. *)
Record entry := { is_member : bool; is_invited : bool }.

Record StateStore := {
  members : gmap (string * string) entry;
  power_levels : gmap string value;
}.

Definition entry_of (st : StateStore) (room_id user_id : string) : entry :=
  match members st !! (room_id, user_id) with
  | Some e => e
  | None => {| is_member := false; is_invited := false |}
  end.

Definition is_joined (st : StateStore) (room_id user_id : string) : bool :=
  is_member (entry_of st room_id user_id).

Definition joined (st : StateStore) (room_id user_id : string) : StateStore :=
  {| members := <[(room_id, user_id) :=
                    {| is_member := true;
                       is_invited := is_invited (entry_of st room_id user_id) |}]>
                  (members st);
     power_levels := power_levels st |}.

Definition left (st : StateStore) (room_id user_id : string) : StateStore :=
  {| members := <[(room_id, user_id) :=
                    {| is_member := false;
                       is_invited := is_invited (entry_of st room_id user_id) |}]>
                  (members st);
     power_levels := power_levels st |}.

Definition invited (st : StateStore) (room_id user_id : string) : StateStore :=
  {| members := <[(room_id, user_id) :=
                    {| is_member := is_member (entry_of st room_id user_id);
                       is_invited := true |}]>
                  (members st);
     power_levels := power_levels st |}.

Definition has_power_level_data (st : StateStore) (room_id : string) : bool :=
  bool_decide (is_Some (power_levels st !! room_id)).

Definition set_power_levels_ (st : StateStore) (room_id : string) (content : value)
  : StateStore :=
  {| members := members st; power_levels := <[room_id := content]> (power_levels st) |}.

(** The writes to the state store. *)
Inductive store_op : Type :=
| Joined (room_id user_id : string)
| Left (room_id user_id : string)
| Invited (room_id user_id : string)
| SetPowerLevels (room_id : string) (content : value).

Definition apply_op (op : store_op) (st : StateStore) : StateStore :=
  match op with
  | Joined r u => joined st r u
  | Left r u => left st r u
  | Invited r u => invited st r u
  | SetPowerLevels r c => set_power_levels_ st r c
  end.

(** What a run did, in order: requests and writes to the state store. *)
Inductive event : Type :=
| Sent (a : actor) (c : call)
| Stored (op : store_op).

(** The handle, its state store, the homeserver, and the events so far. *)
Record state (T : Type) := {
  self : handle;
  state_store : StateStore;
  remote : T;
  trace : list event;
}.
Arguments self {T} s.
Arguments state_store {T} s.
Arguments remote {T} s.
Arguments trace {T} s.

(** [matrix_error_code], on the content of the error. *)
Definition matrix_error_code `{Homeserver T} (content : string) : value :=
  match json_errcode content with
  | Some code => code
  | None => VStr content
  end.

Section WithHomeserver.
Context {T : Type} `{Homeserver T}.
Local Open Scope pym_scope.

Local Abbreviation M := (Py.M (state T)).

(** A request through [a]. *)
Definition request (a : actor) (c : call) : M value :=
  fun s =>
    let '(ans, t) := respond (remote s) a c in
    let s' := {| self := self s; state_store := state_store s; remote := t;
                 trace := trace s ++ [Sent a c] |} in
    match ans with
    | Ok response => (Ret response, s')
    | Failed content =>
        (Raise (match a with Urllib => OSError | _ => MatrixRequestError content end), s')
    end.

(** A write to the state store. *)
Definition store (op : store_op) : M unit :=
  fun s =>
    (Ret tt, {| self := self s; state_store := apply_op op (state_store s);
                remote := remote s; trace := trace s ++ [Stored op] |}).

(** [self.registered = True]. *)
Definition set_registered : M unit :=
  fun s =>
    (Ret tt, {| self := {| mxid := mxid (self s); localpart := localpart (self s);
                           bot := bot (self s); domain := domain (self s);
                           identity := identity (self s); registered := true |};
                state_store := state_store s; remote := remote s; trace := trace s |}).

(** [try: c except MatrixRequestError as e: h e]. *)
Definition except_request_error {A} (c : M A) (h : string -> M A) : M A :=
  try_except c (fun e => match e with
                         | MatrixRequestError content => Some (h content)
                         | _ => None
                         end).

(** [self.log.exception(...)], [self.log.warning(...)]: what the logger
    prints is not part of the state. *)
Definition log_exception : M unit := ret tt.
Definition log_warning : M unit := ret tt.

(** [IntentAPI._ensure_registered]. *)
Definition _ensure_registered : M unit :=
  done <- gets (fun s => registered (self s)) ;;
  if done : bool then ret tt
  else
    localpart <- gets (fun s => localpart (self s)) ;;
    except_request_error
      (request Client (Register (VMap {["username" := VStr localpart]})) ;;; ret tt)
      (fun content =>
         if negb (eq_str (matrix_error_code content) "M_USER_IN_USE")
         then log_exception
         else ret tt) ;;;
    set_registered.

(** [IntentAPI._ensure_joined]. *)
Definition _ensure_joined (room_id : string) (ignore_cache : bool) : M unit :=
  mxid <- gets (fun s => mxid (self s)) ;;
  cached <- (if ignore_cache then ret false
             else gets (fun s => is_joined (state_store s) room_id mxid)) ;;
  if cached : bool then ret tt
  else
    _ensure_registered ;;;
    except_request_error
      (request Client (JoinRoom room_id) ;;; store (Joined room_id mxid))
      (fun content =>
         has_bot <- gets (fun s => bot (self s)) ;;
         if negb (eq_str (matrix_error_code content) "M_FORBIDDEN") && negb has_bot
         then raise (IntentError ("Failed to join room " +:+ room_id +:+ " as " +:+ mxid)
                       (MatrixRequestError content))
         else
           except_request_error
             ((if has_bot : bool then request Bot (InviteUser room_id mxid)
               else raise AttributeError) ;;;
              request Client (JoinRoom room_id) ;;;
              store (Joined room_id mxid))
             (fun content2 =>
                raise (IntentError ("Failed to join room " +:+ room_id +:+ " as " +:+ mxid)
                         (MatrixRequestError content2)))).

(** [IntentAPI.join_room]. *)
Definition join_room (room_id : string) : M unit := _ensure_joined room_id true.

(** [IntentAPI.leave_room]. *)
Definition leave_room (room_id : string) : M value :=
  mxid <- gets (fun s => mxid (self s)) ;;
  store (Left room_id mxid) ;;;
  request Client (LeaveRoom room_id).

(** [IntentAPI.user]: the handle of another user, made by
    [HTTPAPI.intent], which gives it the parent API as [bot]. *)
Definition user (user_id : string) : M handle :=
  has_bot <- gets (fun s => bot (self s)) ;;
  (if has_bot : bool then log_warning else ret tt) ;;;
  domain <- gets (fun s => domain (self s)) ;;
  lift (__init__ user_id true domain user_id).

(** [IntentAPI.set_display_name]. *)
Definition set_display_name (name : value) : M value :=
  _ensure_registered ;;;
  mxid <- gets (fun s => mxid (self s)) ;;
  request Client (SetDisplayName mxid name).

(** [HTTPAPI.set_presence], with [user] left at its default. *)
Definition client_set_presence (status : value) : M value :=
  identity <- gets (fun s => identity (self s)) ;;
  request Client (Send "PUT" ("/presence/" +:+ identity +:+ "/status")
                    (VMap {["presence" := status]})).

(** [IntentAPI.set_presence]. *)
Definition set_presence (status : value) : M value :=
  _ensure_registered ;;;
  client_set_presence status.

(** [IntentAPI.set_avatar]. *)
Definition set_avatar (url : value) : M value :=
  _ensure_registered ;;;
  mxid <- gets (fun s => mxid (self s)) ;;
  request Client (SetAvatarUrl mxid url).

(** [IntentAPI.upload_file]. *)
Definition upload_file (data : value) (mime_type : value) : M value :=
  _ensure_registered ;;;
  let mime_type := or_else mime_type (magic_from_buffer data) in
  request Client (MediaUpload data mime_type).

(** [IntentAPI.download_file]. *)
Definition download_file (url : value) : M value :=
  _ensure_registered ;;;
  url <- request Client (GetDownloadUrl url) ;;
  request Urllib (UrlOpen url).

(** [HTTPAPI.create_room]. *)
Definition client_create_room (alias is_public name topic is_direct invitees
    initial_state : value) : M value :=
  let content : gmap string value :=
    {["visibility" := VStr (if truthy is_public then "public" else "private")]} in
  let content := if truthy alias then <["room_alias_name" := alias]> content else content in
  let content := if truthy invitees then <["invite" := invitees]> content else content in
  let content := if truthy name then <["name" := name]> content else content in
  let content := if truthy topic then <["topic" := topic]> content else content in
  let content := if truthy initial_state
                 then <["initial_state" := initial_state]> content else content in
  let content := <["is_direct" := is_direct]> content in
  request Client (Send "POST" "/createRoom" (VMap content)).

(** [IntentAPI.create_room]. *)
Definition create_room (alias is_public name topic is_direct invitees
    initial_state : value) : M value :=
  _ensure_registered ;;;
  client_create_room alias is_public name topic is_direct invitees initial_state.

(** [IntentAPI.invite]. *)
Definition invite (room_id user_id : string) : M value :=
  _ensure_joined room_id false ;;;
  except_request_error
    (response <- request Client (InviteUser room_id user_id) ;;
     store (Invited room_id user_id) ;;;
     ret response)
    (fun content =>
       if negb (eq_str (matrix_error_code content) "M_FORBIDDEN")
       then raise (IntentError ("Failed to invite " +:+ user_id +:+ " to " +:+ room_id)
                     (MatrixRequestError content))
       else ret VNone).

(** [IntentAPI.add_room_alias]. *)
Definition add_room_alias (room_id alias : string) : M value :=
  _ensure_registered ;;;
  domain <- gets (fun s => domain (self s)) ;;
  request Client (SetRoomAlias room_id ("#" +:+ alias +:+ ":" +:+ domain)) ;;;
  ret VNone.

(** [IntentAPI.remove_room_alias]. *)
Definition remove_room_alias (alias : string) : M value :=
  _ensure_registered ;;;
  domain <- gets (fun s => domain (self s)) ;;
  request Client (RemoveRoomAlias ("#" +:+ alias +:+ ":" +:+ domain)) ;;;
  ret VNone.

(** [IntentAPI.get_power_levels]. *)
Definition get_power_levels (room_id : string) : M value :=
  _ensure_joined room_id false ;;;
  levels <- request Client (GetPowerLevels room_id) ;;
  store (SetPowerLevels room_id levels) ;;;
  ret levels.

(** [IntentAPI._ensure_has_power_level_for]: the check is made and
    nothing follows from it. *)
Definition _ensure_has_power_level_for (room_id event_type : string) : M unit :=
  known <- gets (fun s => has_power_level_data (state_store s) room_id) ;;
  (if known : bool then ret tt else (get_power_levels room_id ;;; ret tt)) ;;;
  mxid <- gets (fun s => mxid (self s)) ;;
  allowed <- gets (fun s => match power_levels (state_store s) !! room_id with
                            | Some levels => level_allows levels mxid event_type
                            | None => false
                            end) ;;
  if allowed : bool then ret tt
  else
    has_bot <- gets (fun s => bot (self s)) ;;
    if negb has_bot then ret tt else ret tt.

(** [IntentAPI.set_room_name]. *)
Definition set_room_name (room_id : string) (name : value) : M value :=
  _ensure_joined room_id false ;;;
  _ensure_has_power_level_for room_id "m.room.name" ;;;
  request Client (SetRoomName room_id name).

(** [HTTPAPI.set_typing], with [user] left at its default. *)
Definition client_set_typing (room_id : string) (is_typing timeout : value) : M value :=
  let content : gmap string value := {["typing" := is_typing]} in
  let content := if truthy is_typing then <["timeout" := timeout]> content else content in
  identity <- gets (fun s => identity (self s)) ;;
  request Client (Send "PUT" ("/rooms/" +:+ room_id +:+ "/typing/" +:+ identity)
                    (VMap content)).

(** [IntentAPI.set_typing]. *)
Definition set_typing (room_id : string) (is_typing timeout : value) : M value :=
  _ensure_joined room_id false ;;;
  client_set_typing room_id is_typing timeout.

(** [IntentAPI.send_event]. *)
Definition send_event (room_id type : string) (body txn_id : value) : M value :=
  _ensure_joined room_id false ;;;
  _ensure_has_power_level_for room_id type ;;;
  request Client (SendMessageEvent room_id type body txn_id).

(** [IntentAPI.send_state_event]. *)
Definition send_state_event (room_id type : string) (body : value) (state_key : string)
  : M value :=
  _ensure_joined room_id false ;;;
  _ensure_has_power_level_for room_id type ;;;
  request Client (SendStateEvent room_id type body state_key).

(** [IntentAPI.set_room_avatar]. *)
Definition set_room_avatar (room_id : string) (avatar_url info : value) : M value :=
  let content : gmap string value := {["url" := avatar_url]} in
  let content := if truthy info then <["info" := info]> content else content in
  send_state_event room_id "m.room.avatar" (VMap content) "".

(** [IntentAPI.set_power_levels]. *)
Definition set_power_levels (room_id : string) (content : value) : M value :=
  response <- send_state_event room_id "m.room.power_levels" content "" ;;
  store (SetPowerLevels room_id content) ;;;
  ret response.

(** [IntentAPI.send_message]. *)
Definition send_message (room_id : string) (body : value) : M value :=
  send_event room_id "m.room.message" body VNone.

(** [IntentAPI.send_text]. *)
Definition send_text (room_id : string) (text html : value) (type : string) : M value :=
  if truthy html then
    let text := if negb (truthy text) then html else text in
    send_message room_id
      (VMap {["body" := text; "msgtype" := VStr type;
              "format" := VStr "org.matrix.custom.html";
              "formatted_body" := or_else html text]})
  else
    send_message room_id (VMap {["body" := text; "msgtype" := VStr type]}).

(** [IntentAPI.send_notice] and [IntentAPI.send_emote]. *)
Definition send_notice (room_id : string) (text html : value) : M value :=
  send_text room_id text html "m.notice".

Definition send_emote (room_id : string) (text html : value) : M value :=
  send_text room_id text html "m.emote".

(** [IntentAPI.send_file]. *)
Definition send_file (room_id : string) (url info text : value) (type : string)
  : M value :=
  send_message room_id
    (VMap {["msgtype" := VStr type; "url" := url;
            "body" := or_else text (VStr "Uploaded file"); "info" := info]}).

(** [IntentAPI.send_image]. *)
Definition send_image (room_id : string) (url info text : value) : M value :=
  send_file room_id url info text "m.image".

(** [IntentAPI.error_and_leave]. *)
Definition error_and_leave (room_id : string) (text html : value) : M value :=
  _ensure_joined room_id false ;;;
  send_notice room_id text html ;;;
  leave_room room_id ;;;
  ret VNone.

(** [IntentAPI.kick]. *)
Definition kick (room_id user_id : string) (message : value) : M value :=
  _ensure_joined room_id false ;;;
  request Client (KickUser room_id user_id message).

(** [IntentAPI.get_room_memberships]. *)
Definition get_room_memberships (room_id : string) : M value :=
  request Client (GetRoomMembers room_id).

(** The comprehension of [get_room_members]: the state keys of the
    memberships whose kind is allowed. *)
Fixpoint state_keys (allowed_memberships : list string) (chunk : list value)
  : result (list value) :=
  match chunk with
  | [] => Ret []
  | membership :: chunk' =>
      (content <- getitem membership "content" ;;
       kind <- getitem content "membership" ;;
       head <- (if existsb (eq_str kind) allowed_memberships
                then (key <- getitem membership "state_key" ;; Ret [key])
                else Ret []) ;;
       tail <- state_keys allowed_memberships chunk' ;;
       Ret (app head tail))%py
  end.

(** [IntentAPI.get_room_members]. *)
Definition get_room_members (room_id : string) (allowed_memberships : list string)
  : M value :=
  memberships <- get_room_memberships room_id ;;
  chunk <- lift (getitem memberships "chunk") ;;
  chunk <- lift (iterate chunk) ;;
  keys <- lift (state_keys allowed_memberships chunk) ;;
  ret (VList keys).

(** [IntentAPI.get_room_state]. *)
Definition get_room_state (room_id : string) : M value :=
  _ensure_joined room_id false ;;;
  request Client (GetRoomState room_id).

(** *** The operations of a handle *)

Inductive operation : Type :=
| OpUser (user_id : string)
| OpSetDisplayName (name : value)
| OpSetPresence (status : value)
| OpSetAvatar (url : value)
| OpUploadFile (data mime_type : value)
| OpDownloadFile (url : value)
| OpCreateRoom (alias is_public name topic is_direct invitees initial_state : value)
| OpInvite (room_id user_id : string)
| OpSetRoomAvatar (room_id : string) (avatar_url info : value)
| OpAddRoomAlias (room_id alias : string)
| OpRemoveRoomAlias (alias : string)
| OpSetRoomName (room_id : string) (name : value)
| OpGetPowerLevels (room_id : string)
| OpSetPowerLevels (room_id : string) (content : value)
| OpSetTyping (room_id : string) (is_typing timeout : value)
| OpSendNotice (room_id : string) (text html : value)
| OpSendEmote (room_id : string) (text html : value)
| OpSendImage (room_id : string) (url info text : value)
| OpSendFile (room_id : string) (url info text : value) (type : string)
| OpSendText (room_id : string) (text html : value) (type : string)
| OpSendMessage (room_id : string) (body : value)
| OpErrorAndLeave (room_id : string) (text html : value)
| OpKick (room_id user_id : string) (message : value)
| OpSendEvent (room_id type : string) (body txn_id : value)
| OpSendStateEvent (room_id type : string) (body : value) (state_key : string)
| OpJoinRoom (room_id : string)
| OpLeaveRoom (room_id : string)
| OpGetRoomMemberships (room_id : string)
| OpGetRoomMembers (room_id : string) (allowed_memberships : list string)
| OpGetRoomState (room_id : string)
| OpEnsureJoined (room_id : string) (ignore_cache : bool)
| OpEnsureRegistered
| OpEnsureHasPowerLevelFor (room_id event_type : string).

(** Running an operation; what it returns is dropped. *)
Definition run (op : operation) : M unit :=
  match op with
  | OpUser u => user u ;;; ret tt
  | OpSetDisplayName n => set_display_name n ;;; ret tt
  | OpSetPresence st => set_presence st ;;; ret tt
  | OpSetAvatar u => set_avatar u ;;; ret tt
  | OpUploadFile d m => upload_file d m ;;; ret tt
  | OpDownloadFile u => download_file u ;;; ret tt
  | OpCreateRoom a p n t d i st => create_room a p n t d i st ;;; ret tt
  | OpInvite r u => invite r u ;;; ret tt
  | OpSetRoomAvatar r a i => set_room_avatar r a i ;;; ret tt
  | OpAddRoomAlias r a => add_room_alias r a ;;; ret tt
  | OpRemoveRoomAlias a => remove_room_alias a ;;; ret tt
  | OpSetRoomName r n => set_room_name r n ;;; ret tt
  | OpGetPowerLevels r => get_power_levels r ;;; ret tt
  | OpSetPowerLevels r c => set_power_levels r c ;;; ret tt
  | OpSetTyping r t o => set_typing r t o ;;; ret tt
  | OpSendNotice r t h => send_notice r t h ;;; ret tt
  | OpSendEmote r t h => send_emote r t h ;;; ret tt
  | OpSendImage r u i t => send_image r u i t ;;; ret tt
  | OpSendFile r u i t ty => send_file r u i t ty ;;; ret tt
  | OpSendText r t h ty => send_text r t h ty ;;; ret tt
  | OpSendMessage r b => send_message r b ;;; ret tt
  | OpErrorAndLeave r t h => error_and_leave r t h ;;; ret tt
  | OpKick r u m => kick r u m ;;; ret tt
  | OpSendEvent r ty b tx => send_event r ty b tx ;;; ret tt
  | OpSendStateEvent r ty b k => send_state_event r ty b k ;;; ret tt
  | OpJoinRoom r => join_room r
  | OpLeaveRoom r => leave_room r ;;; ret tt
  | OpGetRoomMemberships r => get_room_memberships r ;;; ret tt
  | OpGetRoomMembers r a => get_room_members r a ;;; ret tt
  | OpGetRoomState r => get_room_state r ;;; ret tt
  | OpEnsureJoined r i => _ensure_joined r i
  | OpEnsureRegistered => _ensure_registered
  | OpEnsureHasPowerLevelFor r e => _ensure_has_power_level_for r e
  end.


(** *** The registered flag only goes up *)

(** A computation that never takes the flag [registered] down. *)
Definition keeps_registered {A} (c : M A) : Prop :=
  forall s r s', c s = (r, s') ->
    registered (self s) = true -> registered (self s') = true.

Lemma keeps_ret {A} (a : A) : keeps_registered (ret a).
Proof. intros s r s'. unfold ret. by intros [= _ <-]. Qed.

Lemma keeps_raise {A} e : keeps_registered (raise (A := A) e).
Proof. intros s r s'. unfold raise. by intros [= _ <-]. Qed.

Lemma keeps_lift {A} (x : result A) : keeps_registered (lift x).
Proof. intros s r s'. unfold lift. by intros [= _ <-]. Qed.

Lemma keeps_gets {A} (f : state T -> A) : keeps_registered (gets f).
Proof. intros s r s'. unfold gets. by intros [= _ <-]. Qed.

Lemma keeps_bind {A B} (c : M A) (k : A -> M B) :
  keeps_registered c -> (forall a, keeps_registered (k a)) ->
  keeps_registered (bind c k).
Proof.
  intros Hc Hk s r s'. unfold bind.
  destruct (c s) as [[a|e] s1] eqn:Hrun.
  - intros Hrest Hreg. eapply Hk; [exact Hrest|]. eapply Hc; eassumption.
  - intros [= _ <-]. eapply Hc; eassumption.
Qed.

Lemma keeps_if {A} (b : bool) (c1 c2 : M A) :
  keeps_registered c1 -> keeps_registered c2 ->
  keeps_registered (if b then c1 else c2).
Proof. by destruct b. Qed.

Lemma keeps_except {A} (c : M A) (h : string -> M A) :
  keeps_registered c -> (forall content, keeps_registered (h content)) ->
  keeps_registered (except_request_error c h).
Proof.
  intros Hc Hh s r s'. unfold except_request_error, try_except.
  destruct (c s) as [[a|e] s1] eqn:Hrun.
  - intros [= _ <-]. eapply Hc; eassumption.
  - destruct e; try (intros [= _ <-]; eapply Hc; eassumption).
    intros Hrest Hreg. eapply Hh; [exact Hrest|]. eapply Hc; eassumption.
Qed.

Lemma keeps_request a c : keeps_registered (request a c).
Proof.
  intros s r s'. unfold request. destruct (respond _ _ _) as [[resp|content] t].
  - by intros [= _ <-].
  - by intros [= _ <-].
Qed.

Lemma keeps_store op : keeps_registered (store op).
Proof. intros s r s'. unfold store. by intros [= _ <-]. Qed.

Lemma keeps_set_registered : keeps_registered set_registered.
Proof. intros s r s'. unfold set_registered. by intros [= _ <-]. Qed.

Create HintDb keeps discriminated.
#[local] Hint Resolve keeps_ret keeps_raise keeps_lift keeps_gets keeps_bind keeps_if
  keeps_except keeps_request keeps_store keeps_set_registered : keeps.

Lemma keeps__ensure_registered : keeps_registered _ensure_registered.
Proof. unfold _ensure_registered, log_exception. auto 20 with keeps. Qed.
#[local] Hint Resolve keeps__ensure_registered : keeps.

Lemma keeps__ensure_joined room_id ignore_cache :
  keeps_registered (_ensure_joined room_id ignore_cache).
Proof. unfold _ensure_joined. auto 30 with keeps. Qed.
#[local] Hint Resolve keeps__ensure_joined : keeps.

Lemma keeps_leave_room room_id : keeps_registered (leave_room room_id).
Proof. unfold leave_room. auto 20 with keeps. Qed.
#[local] Hint Resolve keeps_leave_room : keeps.

Lemma keeps_get_power_levels room_id : keeps_registered (get_power_levels room_id).
Proof. unfold get_power_levels. auto 20 with keeps. Qed.
#[local] Hint Resolve keeps_get_power_levels : keeps.

Lemma keeps__ensure_has_power_level_for room_id event_type :
  keeps_registered (_ensure_has_power_level_for room_id event_type).
Proof. unfold _ensure_has_power_level_for. auto 30 with keeps. Qed.
#[local] Hint Resolve keeps__ensure_has_power_level_for : keeps.

Lemma keeps_send_event room_id type body txn_id :
  keeps_registered (send_event room_id type body txn_id).
Proof. unfold send_event. auto 20 with keeps. Qed.
#[local] Hint Resolve keeps_send_event : keeps.

Lemma keeps_send_state_event room_id type body state_key :
  keeps_registered (send_state_event room_id type body state_key).
Proof. unfold send_state_event. auto 20 with keeps. Qed.
#[local] Hint Resolve keeps_send_state_event : keeps.

Lemma keeps_send_text room_id text html type :
  keeps_registered (send_text room_id text html type).
Proof. unfold send_text, send_message. destruct (truthy html); auto with keeps. Qed.
#[local] Hint Resolve keeps_send_text : keeps.

(** No operation takes the flag down. *)
Lemma keeps_run op : keeps_registered (run op).
Proof.
  destruct op; unfold run, error_and_leave, get_room_members, set_room_avatar,
    set_power_levels, send_notice, send_emote, send_image, send_file, send_message,
    user, set_display_name, set_presence, client_set_presence, set_avatar, upload_file,
    download_file, create_room, client_create_room, invite, add_room_alias,
    remove_room_alias, set_room_name, set_typing, client_set_typing, kick, join_room,
    get_room_memberships, get_room_state, log_warning; auto 30 with keeps.
Qed.


(** *** Runs of [_ensure_registered] and [_ensure_joined] *)

(** The handle once registered. *)
Definition mark_registered (h : handle) : handle :=
  {| mxid := mxid h; localpart := localpart h; bot := bot h; domain := domain h;
     identity := identity h; registered := true |}.

(** The request [_ensure_registered] sends. *)
Definition register_call (s : state T) : call :=
  Register (VMap {["username" := VStr (localpart (self s))]}).

(** The state [_ensure_registered] leaves. *)
Definition after_registration (s : state T) : state T :=
  if registered (self s) then s
  else {| self := mark_registered (self s);
          state_store := state_store s;
          remote := snd (respond (remote s) Client (register_call s));
          trace := trace s ++ [Sent Client (register_call s)] |}.

Lemma _ensure_registered_run s : _ensure_registered s = (Ret tt, after_registration s).
Proof.
  unfold _ensure_registered, after_registration, bind, gets, except_request_error,
    try_except, request, set_registered, log_exception, ret, register_call,
    mark_registered.
  simpl. destruct (registered (self s)); [reflexivity|].
  destruct (respond _ _ _) as [[resp|content] t]; simpl; [reflexivity|].
  destruct (negb _); reflexivity.
Qed.

Lemma after_registration_registered s : registered (self (after_registration s)) = true.
Proof. unfold after_registration. destruct (registered (self s)) eqn:E; [exact E|reflexivity]. Qed.

Lemma after_registration_mxid s : mxid (self (after_registration s)) = mxid (self s).
Proof. unfold after_registration. by destruct (registered (self s)). Qed.

Lemma after_registration_bot s : bot (self (after_registration s)) = bot (self s).
Proof. unfold after_registration. by destruct (registered (self s)). Qed.

Lemma after_registration_store s : state_store (after_registration s) = state_store s.
Proof. unfold after_registration. by destruct (registered (self s)). Qed.

(** The state after a request answered with [t], and after a write. *)
Definition sent (a : actor) (c : call) (t : T) (s : state T) : state T :=
  {| self := self s; state_store := state_store s; remote := t;
     trace := trace s ++ [Sent a c] |}.

Definition stored (op : store_op) (s : state T) : state T :=
  {| self := self s; state_store := apply_op op (state_store s); remote := remote s;
     trace := trace s ++ [Stored op] |}.

Lemma is_joined_joined st room_id user_id : is_joined (joined st room_id user_id) room_id user_id = true.
Proof. unfold is_joined, entry_of, joined. simpl. by rewrite lookup_insert_eq. Qed.

Lemma is_joined_left st room_id user_id : is_joined (left st room_id user_id) room_id user_id = false.
Proof. unfold is_joined, entry_of, left. simpl. by rewrite lookup_insert_eq. Qed.

(** Cache hit: nothing is done. *)
Lemma _ensure_joined_cached s room_id :
  is_joined (state_store s) room_id (mxid (self s)) = true ->
  _ensure_joined room_id false s = (Ret tt, s).
Proof.
  intros Hc. unfold _ensure_joined, bind, gets, ret. simpl. by rewrite Hc.
Qed.

(** Cache miss, or cache ignored, and the join is answered. *)
Lemma _ensure_joined_direct s room_id ignore_cache resp t :
  ignore_cache = true \/ is_joined (state_store s) room_id (mxid (self s)) = false ->
  respond (remote (after_registration s)) Client (JoinRoom room_id) = (Ok resp, t) ->
  _ensure_joined room_id ignore_cache s =
    (Ret tt, stored (Joined room_id (mxid (self s)))
               (sent Client (JoinRoom room_id) t (after_registration s))).
Proof.
  intros Hc Hjoin. unfold _ensure_joined, bind at 1 2, gets at 1. simpl.
  assert ((if ignore_cache then ret false
           else gets (fun s0 : state T => is_joined (state_store s0) room_id (mxid (self s)))) s
          = (Ret false, s)) as ->.
  { destruct Hc as [->|Hc]; [reflexivity|]. destruct ignore_cache; [reflexivity|].
    unfold gets. by rewrite Hc. }
  unfold bind at 1. rewrite _ensure_registered_run.
  unfold except_request_error, try_except, bind, request. rewrite Hjoin. reflexivity.
Qed.

(** Cache miss, or cache ignored, the join fails, a bot is there: whatever
    the code of the failure, the bot invites; when the invite is answered
    the join is sent again, once. *)
Lemma _ensure_joined_fallback s room_id ignore_cache content t1 resp t2 ans t3 :
  ignore_cache = true \/ is_joined (state_store s) room_id (mxid (self s)) = false ->
  bot (self s) = true ->
  respond (remote (after_registration s)) Client (JoinRoom room_id) = (Failed content, t1) ->
  respond t1 Bot (InviteUser room_id (mxid (self s))) = (Ok resp, t2) ->
  respond t2 Client (JoinRoom room_id) = (ans, t3) ->
  let s3 := sent Client (JoinRoom room_id) t3
              (sent Bot (InviteUser room_id (mxid (self s))) t2
                 (sent Client (JoinRoom room_id) t1 (after_registration s))) in
  _ensure_joined room_id ignore_cache s =
    match ans with
    | Ok _ => (Ret tt, stored (Joined room_id (mxid (self s))) s3)
    | Failed content2 =>
        (Raise (IntentError
                  ("Failed to join room " +:+ room_id +:+ " as " +:+ mxid (self s))
                  (MatrixRequestError content2)), s3)
    end.
Proof.
  intros Hc Hbot Hjoin Hinvite Hretry. unfold _ensure_joined, bind at 1 2, gets at 1. simpl.
  assert ((if ignore_cache then ret false
           else gets (fun s0 : state T => is_joined (state_store s0) room_id (mxid (self s)))) s
          = (Ret false, s)) as ->.
  { destruct Hc as [->|Hc]; [reflexivity|]. destruct ignore_cache; [reflexivity|].
    unfold gets. by rewrite Hc. }
  unfold bind at 1. rewrite _ensure_registered_run.
  unfold except_request_error, try_except, bind, request, gets. rewrite Hjoin. simpl.
  rewrite after_registration_bot, Hbot, andb_false_r. simpl.
  rewrite Hinvite. simpl. rewrite Hretry. destruct ans; reflexivity.
Qed.


(** Cache miss, or cache ignored, the join fails with ["M_FORBIDDEN"] and
    there is no bot: the guard lets the failure through to
    [self.bot.invite_user], on [None]. *)
Lemma _ensure_joined_forbidden_without_bot s room_id ignore_cache content t1 :
  ignore_cache = true \/ is_joined (state_store s) room_id (mxid (self s)) = false ->
  bot (self s) = false ->
  eq_str (matrix_error_code content) "M_FORBIDDEN" = true ->
  respond (remote (after_registration s)) Client (JoinRoom room_id) = (Failed content, t1) ->
  _ensure_joined room_id ignore_cache s =
    (Raise AttributeError, sent Client (JoinRoom room_id) t1 (after_registration s)).
Proof.
  intros Hc Hbot Hcode Hjoin. unfold _ensure_joined, bind at 1 2, gets at 1. simpl.
  assert ((if ignore_cache then ret false
           else gets (fun s0 : state T => is_joined (state_store s0) room_id (mxid (self s)))) s
          = (Ret false, s)) as ->.
  { destruct Hc as [->|Hc]; [reflexivity|]. destruct ignore_cache; [reflexivity|].
    unfold gets. by rewrite Hc. }
  unfold bind at 1. rewrite _ensure_registered_run.
  unfold except_request_error, try_except, bind, request, gets. rewrite Hjoin. simpl.
  rewrite after_registration_bot, Hbot, Hcode. reflexivity.
Qed.

(** A call of [_ensure_joined] that returns leaves the cache saying
    "joined", so the next call is a cache hit. *)
Lemma _ensure_joined_then_cached s room_id s1 :
  _ensure_joined room_id false s = (Ret tt, s1) ->
  mxid (self s1) = mxid (self s) /\
  is_joined (state_store s1) room_id (mxid (self s)) = true.
Proof.
  unfold _ensure_joined, bind at 1 2, gets at 1. simpl. unfold gets at 1.
  destruct (is_joined (state_store s) room_id (mxid (self s))) eqn:Hc.
  { unfold ret. by intros [= <-]. }
  unfold bind at 1. rewrite _ensure_registered_run.
  unfold except_request_error, try_except, bind, request, gets, store, raise. simpl.
  destruct (respond (remote (after_registration s)) Client (JoinRoom room_id))
    as [[resp|content] t1]; simpl.
  { intros [= <-]. simpl. rewrite after_registration_mxid. split; [done|].
    apply is_joined_joined. }
  destruct (negb (eq_str (matrix_error_code content) "M_FORBIDDEN") &&
            negb (bot (self (after_registration s)))); [discriminate|].
  destruct (bot (self (after_registration s))); simpl; [|discriminate].
  destruct (respond t1 Bot (InviteUser room_id (mxid (self s)))) as [[resp|content1] t2];
    simpl; [|discriminate].
  destruct (respond t2 Client (JoinRoom room_id)) as [[resp2|content2] t3];
    simpl; [|discriminate].
  intros [= <-]. simpl. rewrite after_registration_mxid. split; [done|].
  apply is_joined_joined.
Qed.

(** The requests of a trace that are joins. *)
Definition is_join_request (e : event) : bool :=
  match e with
  | Sent _ (JoinRoom _) => true
  | _ => false
  end.

Definition join_requests (tr : list event) : nat :=
  length (filter (fun e => is_join_request e = true) tr).

Lemma join_requests_app tr1 tr2 :
  join_requests (tr1 ++ tr2)%list = join_requests tr1 + join_requests tr2.
Proof. unfold join_requests. by rewrite filter_app, length_app. Qed.

Lemma join_requests_after_registration s :
  join_requests (trace (after_registration s)) = join_requests (trace s).
Proof.
  unfold after_registration. destruct (registered (self s)); [reflexivity|].
  simpl. rewrite join_requests_app.
  change (join_requests [Sent Client (register_call s)]) with 0. lia.
Qed.

(** [leave_room], whatever the answer. *)
Lemma leave_room_run s room_id :
  let s' := sent Client (LeaveRoom room_id)
              (snd (respond (remote s) Client (LeaveRoom room_id)))
              (stored (Left room_id (mxid (self s))) s) in
  leave_room room_id s =
    (match fst (respond (remote s) Client (LeaveRoom room_id)) with
     | Ok response => Ret response
     | Failed content => Raise (MatrixRequestError content)
     end, s').
Proof.
  unfold leave_room, bind, gets, store, request, sent, stored. simpl.
  destruct (respond (remote s) Client (LeaveRoom room_id)) as [[resp|content] t];
    reflexivity.
Qed.


(** *** Runs of the room actions *)

(** [invite], once [_ensure_joined] has returned: an answered invite is
    recorded; a refusal with ["M_FORBIDDEN"] is swallowed and returns
    [None]; any other failure is an [IntentError]. *)
Lemma invite_run s room_id user_id s1 :
  _ensure_joined room_id false s = (Ret tt, s1) ->
  invite room_id user_id s =
    match respond (remote s1) Client (InviteUser room_id user_id) with
    | (Ok response, t) =>
        (Ret response,
         stored (Invited room_id user_id) (sent Client (InviteUser room_id user_id) t s1))
    | (Failed content, t) =>
        (if eq_str (matrix_error_code content) "M_FORBIDDEN" then Ret VNone
         else Raise (IntentError ("Failed to invite " +:+ user_id +:+ " to " +:+ room_id)
                       (MatrixRequestError content)),
         sent Client (InviteUser room_id user_id) t s1)
    end.
Proof.
  intros Hjoin. unfold invite, bind at 1. rewrite Hjoin.
  unfold except_request_error, try_except, bind, request, store, ret, raise, sent, stored.
  destruct (respond (remote s1) Client (InviteUser room_id user_id))
    as [[response|content] t]; simpl; [reflexivity|].
  by destruct (eq_str (matrix_error_code content) "M_FORBIDDEN").
Qed.

(** The first request of a join that does not stop at the cache, after
    the registration, is the join itself. *)
Lemma _ensure_joined_sends s room_id ignore_cache r s' :
  ignore_cache = true \/ is_joined (state_store s) room_id (mxid (self s)) = false ->
  _ensure_joined room_id ignore_cache s = (r, s') ->
  exists rest,
    trace s' = (trace (after_registration s) ++ Sent Client (JoinRoom room_id) :: rest)%list.
Proof.
  intros Hc. unfold _ensure_joined, bind at 1 2, gets at 1. simpl.
  assert ((if ignore_cache then ret false
           else gets (fun s0 : state T => is_joined (state_store s0) room_id (mxid (self s)))) s
          = (Ret false, s)) as ->.
  { destruct Hc as [->|Hc]; [reflexivity|]. destruct ignore_cache; [reflexivity|].
    unfold gets. by rewrite Hc. }
  unfold bind at 1. rewrite _ensure_registered_run.
  unfold except_request_error, try_except, bind, request, gets, store, raise. simpl.
  destruct (respond (remote (after_registration s)) Client (JoinRoom room_id))
    as [[resp|content] t1]; simpl.
  { intros [= _ <-]. simpl. exists [Stored (Joined room_id (mxid (self s)))].
    by rewrite <- app_assoc. }
  destruct (negb (eq_str (matrix_error_code content) "M_FORBIDDEN") &&
            negb (bot (self (after_registration s)))).
  { intros [= _ <-]. simpl. by exists []. }
  destruct (bot (self (after_registration s))); simpl.
  2:{ intros [= _ <-]. simpl. by exists []. }
  destruct (respond t1 Bot (InviteUser room_id (mxid (self s)))) as [[resp|content1] t2];
    simpl.
  2:{ intros [= _ <-]. simpl. eexists. by rewrite <- app_assoc. }
  destruct (respond t2 Client (JoinRoom room_id)) as [[resp2|content2] t3]; simpl.
  - intros [= _ <-]. simpl. eexists. by rewrite <- !app_assoc.
  - intros [= _ <-]. simpl. eexists. by rewrite <- !app_assoc.
Qed.

(** A join that fails leaves the state store as it was. *)
Lemma _ensure_joined_Raise s room_id ignore_cache e s' :
  _ensure_joined room_id ignore_cache s = (Raise e, s') ->
  state_store s' = state_store s.
Proof.
  unfold _ensure_joined, bind at 1 2, gets at 1. simpl.
  destruct ((if ignore_cache then ret false
             else gets (fun s0 : state T => is_joined (state_store s0) room_id (mxid (self s)))) s)
    as [[cached|e0] s0] eqn:Hcached.
  2:{ destruct ignore_cache; discriminate. }
  assert (s0 = s) as ->.
  { destruct ignore_cache; unfold ret, gets in Hcached; congruence. }
  destruct cached; [discriminate|].
  unfold bind at 1. rewrite _ensure_registered_run.
  unfold except_request_error, try_except, bind, request, gets, store, raise. simpl.
  destruct (respond (remote (after_registration s)) Client (JoinRoom room_id))
    as [[resp|content] t1]; simpl; [discriminate|].
  destruct (negb (eq_str (matrix_error_code content) "M_FORBIDDEN") &&
            negb (bot (self (after_registration s)))).
  { intros [= _ <-]. simpl. apply after_registration_store. }
  destruct (bot (self (after_registration s))); simpl.
  2:{ intros [= _ <-]. simpl. apply after_registration_store. }
  destruct (respond t1 Bot (InviteUser room_id (mxid (self s)))) as [[resp|content1] t2];
    simpl.
  2:{ intros [= _ <-]. simpl. apply after_registration_store. }
  destruct (respond t2 Client (JoinRoom room_id)) as [[resp2|content2] t3]; simpl;
    [discriminate|].
  intros [= _ <-]. simpl. apply after_registration_store.
Qed.

(** With the power levels of the room in the state store, the check
    asks nothing and stops nothing, whatever the levels allow. *)
Lemma _ensure_has_power_level_for_known s room_id event_type :
  has_power_level_data (state_store s) room_id = true ->
  _ensure_has_power_level_for room_id event_type s = (Ret tt, s).
Proof.
  intros Hknown. unfold _ensure_has_power_level_for, bind, gets, ret. simpl.
  rewrite Hknown. simpl.
  destruct (match power_levels (state_store s) !! room_id with
            | Some levels => level_allows levels (mxid (self s)) event_type
            | None => false
            end); [reflexivity|].
  by destruct (negb (bot (self s))).
Qed.

(** A member with known power levels sends an event with a single
    request; the levels are not enforced. *)
Lemma send_event_run s room_id type body txn_id :
  is_joined (state_store s) room_id (mxid (self s)) = true ->
  has_power_level_data (state_store s) room_id = true ->
  send_event room_id type body txn_id s =
    request Client (SendMessageEvent room_id type body txn_id) s.
Proof.
  intros Hjoined Hknown. unfold send_event, bind at 1.
  rewrite (_ensure_joined_cached _ _ Hjoined). unfold bind at 1.
  by rewrite (_ensure_has_power_level_for_known _ _ _ Hknown).
Qed.

(** [get_power_levels] that returns has put the levels in the state
    store. *)
Lemma get_power_levels_Ret s room_id levels s' :
  get_power_levels room_id s = (Ret levels, s') ->
  power_levels (state_store s') !! room_id = Some levels /\
  exists tr, trace s' = (tr ++ [Sent Client (GetPowerLevels room_id);
                                Stored (SetPowerLevels room_id levels)])%list.
Proof.
  intros Hrun. unfold get_power_levels in Hrun.
  apply bind_Ret in Hrun as (u & s1 & _ & Hrun).
  apply bind_Ret in Hrun as (l & s2 & Hreq & Hrun).
  apply bind_Ret in Hrun as (u' & s3 & Hstore & Hrun).
  unfold ret in Hrun. injection Hrun as -> <-.
  unfold store in Hstore. injection Hstore as _ <-. simpl.
  unfold request in Hreq.
  destruct (respond (remote s1) Client (GetPowerLevels room_id)) as [[resp|content] t];
    [|discriminate].
  injection Hreq as _ <-. simpl. split; [apply lookup_insert_eq|].
  exists (trace s1). by rewrite <- app_assoc.
Qed.

(** [set_power_levels] that returns has put the content in the state
    store, after the homeserver took the state event. *)
Lemma set_power_levels_Ret s room_id content response s' :
  set_power_levels room_id content s = (Ret response, s') ->
  power_levels (state_store s') !! room_id = Some content /\
  exists tr, trace s' =
    (tr ++ [Sent Client (SendStateEvent room_id "m.room.power_levels" content "");
            Stored (SetPowerLevels room_id content)])%list.
Proof.
  intros Hrun. unfold set_power_levels in Hrun.
  apply bind_Ret in Hrun as (resp & s1 & Hsend & Hrun).
  apply bind_Ret in Hrun as (u & s2 & Hstore & Hrun).
  unfold ret in Hrun. injection Hrun as _ <-.
  unfold store in Hstore. injection Hstore as _ <-. simpl.
  split; [apply lookup_insert_eq|].
  unfold send_state_event in Hsend.
  apply bind_Ret in Hsend as (u1 & s3 & _ & Hsend).
  apply bind_Ret in Hsend as (u2 & s4 & _ & Hreq).
  unfold request in Hreq.
  destruct (respond (remote s4) Client _) as [[r|c] t]; [|discriminate].
  injection Hreq as _ <-. simpl. exists (trace s4). by rewrite <- app_assoc.
Qed.

(** A failed [set_power_levels] of a member with known power levels
    leaves the state store as it was. *)
Lemma set_power_levels_Raise s room_id content e s' :
  is_joined (state_store s) room_id (mxid (self s)) = true ->
  has_power_level_data (state_store s) room_id = true ->
  set_power_levels room_id content s = (Raise e, s') ->
  state_store s' = state_store s.
Proof.
  intros Hjoined Hknown. unfold set_power_levels, bind at 1, send_state_event, bind at 1.
  rewrite (_ensure_joined_cached _ _ Hjoined). unfold bind at 1.
  rewrite (_ensure_has_power_level_for_known _ _ _ Hknown).
  unfold request, bind, store, ret.
  destruct (respond (remote s) Client _) as [[r|c] t]; [discriminate|].
  by intros [= _ <-].
Qed.


(** *** The members of a room *)

(** A membership event of a chunk: a mapping with a state key and, in
    its content, a membership kind. *)
Definition membership_event (mem key : value) (kind : string) : Prop :=
  exists m c, mem = VMap m /\ m !! "state_key" = Some key /\
              m !! "content" = Some (VMap c) /\ c !! "membership" = Some (VStr kind).

(** The members [get_room_members] picks from a chunk of events. *)
Definition picked (allowed_memberships : list string) (l : list (value * string))
  : list value :=
  (List.filter (fun kk : value * string => existsb (String.eqb kk.2) allowed_memberships) l).*1.

Lemma state_keys_picked allowed_memberships chunk l :
  Forall2 (fun mem (kk : value * string) => membership_event mem kk.1 kk.2) chunk l ->
  state_keys allowed_memberships chunk = Ret (picked allowed_memberships l).
Proof.
  induction 1 as [|mem [key kind] chunk l (m & c & -> & Hkey & Hcontent & Hkind) _ IH];
    [reflexivity|].
  simpl in Hkey, Hcontent, Hkind. cbn [state_keys getitem]. rewrite Hcontent.
  cbn [rbind getitem]. rewrite Hkind. cbn [rbind]. rewrite IH.
  change (existsb (eq_str (VStr kind)) allowed_memberships)
    with (existsb (String.eqb kind) allowed_memberships).
  unfold picked. cbn [List.filter snd].
  destruct (existsb (String.eqb kind) allowed_memberships); [|reflexivity].
  by rewrite Hkey.
Qed.

(** [get_room_members] on an answer that holds a chunk of membership
    events: one request, whatever the state store says, and the state
    keys of the events whose kind is allowed, in the order of the chunk. *)
Lemma get_room_members_run s room_id allowed_memberships m chunk l t :
  respond (remote s) Client (GetRoomMembers room_id) = (Ok (VMap m), t) ->
  m !! "chunk" = Some (VList chunk) ->
  Forall2 (fun mem (kk : value * string) => membership_event mem kk.1 kk.2) chunk l ->
  get_room_members room_id allowed_memberships s =
    (Ret (VList (picked allowed_memberships l)), sent Client (GetRoomMembers room_id) t s).
Proof.
  intros Hanswer Hchunk Hevents.
  unfold get_room_members, get_room_memberships, bind, request, lift, ret.
  rewrite Hanswer. cbn [getitem]. rewrite Hchunk. cbn [iterate].
  by rewrite (state_keys_picked _ _ _ Hevents).
Qed.

(** *** What the operations keep *)

(** A computation that keeps the relation [R] between the state it
    starts from and the state it leaves. *)
Definition steady (R : state T -> state T -> Prop) {A} (c : M A) : Prop :=
  forall s r s', c s = (r, s') -> R s s'.

(** A relation that every request and every write to the state store
    keeps; a write of "left" need only keep it for the rooms in
    [leave_ok]. *)
Class Invariant (R : state T -> state T -> Prop) (leave_ok : string -> Prop) := {
  inv_refl : forall s, R s s;
  inv_trans : forall s1 s2 s3, R s1 s2 -> R s2 s3 -> R s1 s3;
  inv_request : forall a c, steady R (request a c);
  inv_set_registered : steady R set_registered;
  inv_joined : forall r u, steady R (store (Joined r u));
  inv_invited : forall r u, steady R (store (Invited r u));
  inv_levels : forall r c, steady R (store (SetPowerLevels r c));
  inv_left : forall r u, leave_ok r -> steady R (store (Left r u));
}.

(** The operations that leave a room outside [leave_ok]. *)
Definition op_leave_ok (leave_ok : string -> Prop) (op : operation) : Prop :=
  match op with
  | OpLeaveRoom r | OpErrorAndLeave r _ _ => leave_ok r
  | _ => True
  end.

(** The operations that begin with [_ensure_registered]. *)
Definition registers_first (op : operation) : bool :=
  match op with
  | OpSetDisplayName _ | OpSetPresence _ | OpSetAvatar _ | OpUploadFile _ _
  | OpDownloadFile _ | OpCreateRoom _ _ _ _ _ _ _ | OpAddRoomAlias _ _
  | OpRemoveRoomAlias _ | OpEnsureRegistered => true
  | _ => false
  end.

Lemma bind_assoc {A B C} (c : M A) (k1 : A -> M B) (k2 : B -> M C) s :
  bind (bind c k1) k2 s = bind c (fun a => bind (k1 a) k2) s.
Proof. unfold bind. by destruct (c s) as [[a|e] s1]. Qed.

Section Invariants.
Context (R : state T -> state T -> Prop) (leave_ok : string -> Prop).
Context `{!Invariant R leave_ok}.

Lemma steady_ret {A} (a : A) : steady R (ret a).
Proof. intros s r s'. unfold ret. intros [= _ <-]. apply inv_refl. Qed.

Lemma steady_raise {A} e : steady R (raise (A := A) e).
Proof. intros s r s'. unfold raise. intros [= _ <-]. apply inv_refl. Qed.

Lemma steady_lift {A} (x : result A) : steady R (lift x).
Proof. intros s r s'. unfold lift. intros [= _ <-]. apply inv_refl. Qed.

Lemma steady_gets {A} (f : state T -> A) : steady R (gets f).
Proof. intros s r s'. unfold gets. intros [= _ <-]. apply inv_refl. Qed.

Lemma steady_bind {A B} (c : M A) (k : A -> M B) :
  steady R c -> (forall a, steady R (k a)) -> steady R (bind c k).
Proof.
  intros Hc Hk s r s'. unfold bind.
  destruct (c s) as [[a|e] s1] eqn:Hrun.
  - intros Hrest. eapply inv_trans; [eapply Hc, Hrun|eapply Hk, Hrest].
  - intros [= _ <-]. eapply Hc, Hrun.
Qed.

Lemma steady_if {A} (b : bool) (c1 c2 : M A) :
  steady R c1 -> steady R c2 -> steady R (if b then c1 else c2).
Proof. by destruct b. Qed.

Lemma steady_except {A} (c : M A) (h : string -> M A) :
  steady R c -> (forall content, steady R (h content)) ->
  steady R (except_request_error c h).
Proof.
  intros Hc Hh s r s'. unfold except_request_error, try_except.
  destruct (c s) as [[a|e] s1] eqn:Hrun.
  - intros [= _ <-]. eapply Hc, Hrun.
  - destruct e; try (intros [= _ <-]; eapply Hc, Hrun).
    intros Hrest. eapply inv_trans; [eapply Hc, Hrun|eapply Hh, Hrest].
Qed.

Lemma steady_request a c : steady R (request a c).
Proof. apply inv_request. Qed.

Lemma steady_set_registered : steady R set_registered.
Proof. apply inv_set_registered. Qed.

Lemma steady_store_joined r u : steady R (store (Joined r u)).
Proof. apply inv_joined. Qed.

Lemma steady_store_invited r u : steady R (store (Invited r u)).
Proof. apply inv_invited. Qed.

Lemma steady_store_levels r c : steady R (store (SetPowerLevels r c)).
Proof. apply inv_levels. Qed.

Lemma steady_store_left r u : leave_ok r -> steady R (store (Left r u)).
Proof. apply inv_left. Qed.

Create HintDb steady discriminated.
#[local] Hint Resolve steady_ret steady_raise steady_lift steady_gets steady_bind
  steady_if steady_except steady_request steady_set_registered steady_store_joined
  steady_store_invited steady_store_levels steady_store_left : steady.

Lemma steady__ensure_registered : steady R _ensure_registered.
Proof. unfold _ensure_registered, log_exception. auto 20 with steady. Qed.
#[local] Hint Resolve steady__ensure_registered : steady.

Lemma steady__ensure_joined room_id ignore_cache :
  steady R (_ensure_joined room_id ignore_cache).
Proof. unfold _ensure_joined. auto 30 with steady. Qed.
#[local] Hint Resolve steady__ensure_joined : steady.

Lemma steady_leave_room room_id : leave_ok room_id -> steady R (leave_room room_id).
Proof. intros Hok. unfold leave_room. auto 20 with steady. Qed.
#[local] Hint Resolve steady_leave_room : steady.

Lemma steady_get_power_levels room_id : steady R (get_power_levels room_id).
Proof. unfold get_power_levels. auto 20 with steady. Qed.
#[local] Hint Resolve steady_get_power_levels : steady.

Lemma steady__ensure_has_power_level_for room_id event_type :
  steady R (_ensure_has_power_level_for room_id event_type).
Proof. unfold _ensure_has_power_level_for. auto 30 with steady. Qed.
#[local] Hint Resolve steady__ensure_has_power_level_for : steady.

Lemma steady_send_event room_id type body txn_id :
  steady R (send_event room_id type body txn_id).
Proof. unfold send_event. auto 20 with steady. Qed.
#[local] Hint Resolve steady_send_event : steady.

Lemma steady_send_state_event room_id type body state_key :
  steady R (send_state_event room_id type body state_key).
Proof. unfold send_state_event. auto 20 with steady. Qed.
#[local] Hint Resolve steady_send_state_event : steady.

Lemma steady_send_text room_id text html type :
  steady R (send_text room_id text html type).
Proof. unfold send_text, send_message. destruct (truthy html); auto with steady. Qed.
#[local] Hint Resolve steady_send_text : steady.

(** Every operation keeps the relation, when the room it leaves, if
    any, is in [leave_ok]. *)
Lemma steady_run op : op_leave_ok leave_ok op -> steady R (run op).
Proof.
  intros Hok.
  destruct op; simpl in Hok; unfold run, error_and_leave, get_room_members,
    set_room_avatar, set_power_levels, send_notice, send_emote, send_image, send_file,
    send_message, user, set_display_name, set_presence, client_set_presence, set_avatar,
    upload_file, download_file, create_room, client_create_room, invite, add_room_alias,
    remove_room_alias, set_room_name, set_typing, client_set_typing, kick, join_room,
    get_room_memberships, get_room_state, log_warning; auto 30 with steady.
Qed.

(** What follows [_ensure_registered] keeps the relation too. *)
Lemma bind_registered {A} (k : unit -> M A) s r s' :
  bind _ensure_registered k s = (r, s') -> steady R (k tt) ->
  R (after_registration s) s'.
Proof.
  unfold bind. rewrite _ensure_registered_run. intros Hrun Hk. exact (Hk _ _ _ Hrun).
Qed.

Lemma steady_after_registration op s r s' :
  registers_first op = true -> run op s = (r, s') -> R (after_registration s) s'.
Proof.
  destruct op; try discriminate; intros _; unfold run, set_display_name, set_presence,
    client_set_presence, set_avatar, upload_file, download_file, create_room,
    client_create_room, add_room_alias, remove_room_alias.
  1-8: rewrite bind_assoc; intros Hrun; eapply bind_registered; [exact Hrun|];
       cbv beta zeta; auto 30 with steady.
  intros Hrun. change (_ensure_registered s = (r, s')) in Hrun.
  rewrite _ensure_registered_run in Hrun. injection Hrun as _ <-. apply inv_refl.
Qed.

End Invariants.


(** **** The handle stays who it is *)

Definition same_handle (s s' : state T) : Prop :=
  mxid (self s') = mxid (self s) /\ localpart (self s') = localpart (self s) /\
  bot (self s') = bot (self s) /\ domain (self s') = domain (self s) /\
  identity (self s') = identity (self s).

#[local] Instance same_handle_invariant : Invariant same_handle (fun _ => True).
Proof.
  split.
  - done.
  - intros s1 s2 s3 (? & ? & ? & ? & ?) (? & ? & ? & ? & ?).
    repeat split; congruence.
  - intros a c s r s'. unfold request.
    destruct (respond _ _ _) as [[resp|content] t]; by intros [= _ <-].
  - intros s r s'. unfold set_registered. by intros [= _ <-].
  - intros r u s res s'. unfold store. by intros [= _ <-].
  - intros r u s res s'. unfold store. by intros [= _ <-].
  - intros r c s res s'. unfold store. by intros [= _ <-].
  - intros r u _ s res s'. unfold store. by intros [= _ <-].
Qed.

(** **** The state store says "joined" until the room is left *)

Definition stays_joined (room_id user_id : string) (s s' : state T) : Prop :=
  is_joined (state_store s) room_id user_id = true ->
  is_joined (state_store s') room_id user_id = true.

Lemma is_joined_joined_other st r' u' r u :
  is_joined st r u = true -> is_joined (joined st r' u') r u = true.
Proof.
  unfold is_joined, entry_of, joined. simpl.
  destruct (decide ((r', u') = (r, u))) as [->|Hne].
  - by rewrite lookup_insert_eq.
  - by rewrite lookup_insert_ne.
Qed.

Lemma is_joined_invited st r' u' r u :
  is_joined (invited st r' u') r u = is_joined st r u.
Proof.
  unfold is_joined, entry_of, invited. simpl.
  destruct (decide ((r', u') = (r, u))) as [[= -> ->]|Hne].
  - by rewrite lookup_insert_eq.
  - by rewrite lookup_insert_ne.
Qed.

Lemma is_joined_left_other st r' u' r u :
  r' <> r -> is_joined (left st r' u') r u = is_joined st r u.
Proof.
  intros Hne. unfold is_joined, entry_of, left. simpl.
  rewrite lookup_insert_ne; [done|]. by intros [= -> _].
Qed.

#[local] Instance stays_joined_invariant room_id user_id :
  Invariant (stays_joined room_id user_id) (fun r => r <> room_id).
Proof.
  split; unfold stays_joined.
  - done.
  - auto.
  - intros a c s r s'. unfold request.
    destruct (respond _ _ _) as [[resp|content] t]; by intros [= _ <-].
  - intros s r s'. unfold set_registered. by intros [= _ <-].
  - intros r u s res s'. unfold store. intros [= _ <-]. simpl.
    apply is_joined_joined_other.
  - intros r u s res s'. unfold store. intros [= _ <-]. simpl.
    by rewrite is_joined_invited.
  - intros r c s res s'. unfold store. by intros [= _ <-].
  - intros r u Hne s res s'. unfold store. intros [= _ <-]. simpl.
    by rewrite is_joined_left_other.
Qed.

(** **** The trace grows and the flag stays *)

Definition grows (s s' : state T) : Prop :=
  (registered (self s) = true -> registered (self s') = true) /\
  exists ext, trace s' = (trace s ++ ext)%list.

#[local] Instance grows_invariant : Invariant grows (fun _ => True).
Proof.
  split; unfold grows.
  - intros s. split; [done|]. exists []. by rewrite app_nil_r.
  - intros s1 s2 s3 [Hr1 [e1 He1]] [Hr2 [e2 He2]]. split; [auto|].
    exists (e1 ++ e2)%list. by rewrite He2, He1, app_assoc.
  - intros a c s r s'. unfold request.
    destruct (respond _ _ _) as [[resp|content] t]; intros [= _ <-]; simpl; eauto.
  - intros s r s'. unfold set_registered. intros [= _ <-]. simpl.
    split; [done|]. exists []. by rewrite app_nil_r.
  - intros r u s res s'. unfold store. intros [= _ <-]. simpl. eauto.
  - intros r u s res s'. unfold store. intros [= _ <-]. simpl. eauto.
  - intros r c s res s'. unfold store. intros [= _ <-]. simpl. eauto.
  - intros r u _ s res s'. unfold store. intros [= _ <-]. simpl. eauto.
Qed.

(** An operation that begins with [_ensure_registered] leaves the
    handle registered, and what it does comes after the registration. *)
Lemma registers_first_run op s r s' :
  registers_first op = true -> run op s = (r, s') ->
  registered (self s') = true /\
  exists rest, trace s' = (trace (after_registration s) ++ rest)%list.
Proof.
  intros Hop Hrun.
  destruct (steady_after_registration grows (fun _ => True) op s r s' Hop Hrun)
    as [Hreg Hext].
  split; [|exact Hext]. apply Hreg, after_registration_registered.
Qed.

(** [error_and_leave] that returns has left the room: the state store
    says so, and the last request is the leave. *)
Lemma error_and_leave_Ret s room_id text html v s' :
  error_and_leave room_id text html s = (Ret v, s') ->
  is_joined (state_store s') room_id (mxid (self s)) = false /\
  exists tr, trace s' = (tr ++ [Stored (Left room_id (mxid (self s)));
                                Sent Client (LeaveRoom room_id)])%list.
Proof.
  intros Hrun. unfold error_and_leave in Hrun.
  apply bind_Ret in Hrun as (u1 & s1 & Hjoin & Hrun).
  apply bind_Ret in Hrun as (u2 & s2 & Hnotice & Hrun).
  apply bind_Ret in Hrun as (u3 & s3 & Hleave & Hrun).
  unfold ret in Hrun. injection Hrun as _ <-.
  destruct (steady__ensure_joined same_handle (fun _ => True) _ _ _ _ _ Hjoin)
    as [Hm1 _].
  destruct (steady_send_text same_handle (fun _ => True) _ _ _ _ _ _ _ Hnotice)
    as [Hm2 _].
  rewrite leave_room_run in Hleave. injection Hleave as _ <-. simpl.
  rewrite Hm2, Hm1. split; [apply is_joined_left|].
  exists (trace s2). by rewrite <- app_assoc.
Qed.


End WithHomeserver.

(** *** What the pattern accepts *)















End Intent.



(** * The specification's claims *)

Import Py.

(** ** The configuration document *)

(** C3.  On an empty document a dotted [get("a.b.c", default)] returns
    [default]; after [set("a.b.c", v)] the same [get] returns [v] and the
    node ["a.b"] is a mapping.  A dotted [get], [set] or [delete] whose walk
    enters mappings only, stopping or not at an absent segment, returns
    without raising; at an absent intermediate segment [get] returns the
    default, [delete] leaves the document as it is, and [set] succeeds,
    is read back by [get], and leaves a mapping at every proper dotted
    prefix of the key. *)
Theorem dotted_access_absent_segments :
  (forall d, DictWithRecursion.get (DictWithRecursion.init VNone) "a.b.c" d true = Ret d) /\
  (forall v d, exists doc,
      DictWithRecursion.set (DictWithRecursion.init VNone) "a.b.c" v true = Ret doc /\
      DictWithRecursion.get doc "a.b.c" d true = Ret v /\
      DictWithRecursion.getitem_ doc "a.b" = Ret (VMap {["c" := v]})) /\
  (forall data key d v, DictWithRecursion.path_ok data key ->
      (exists r, DictWithRecursion.get data key d true = Ret r) /\
      (exists data', DictWithRecursion.set data key v true = Ret data') /\
      (exists data', DictWithRecursion.delete data key true = Ret data')) /\
  (forall data key d v, DictWithRecursion.absent_at data key ->
      DictWithRecursion.get data key d true = Ret d /\
      DictWithRecursion.delete data key true = Ret data /\
      exists data',
        DictWithRecursion.set data key v true = Ret data' /\
        DictWithRecursion.get data' key d true = Ret v /\
        forall p, DictWithRecursion.dotted_prefix p key ->
          exists m, DictWithRecursion.getitem_ data' p = Ret (VMap m)).
Proof.
  split; [|split; [|split]].
  - intros d. vm_compute. reflexivity.
  - intros v d. eexists. split; [vm_compute; reflexivity|].
    split; vm_compute; reflexivity.
  - intros data key d v Hok.
    rewrite DictWithRecursion.get_recursive, DictWithRecursion.set_recursive,
      DictWithRecursion.delete_recursive.
    split; [by apply DictWithRecursion.get_returns|].
    split; [|by apply DictWithRecursion.del_returns].
    destruct (DictWithRecursion.set_returns key data v Hok) as [m' ->]. eauto.
  - intros data key d v Hab.
    rewrite DictWithRecursion.get_recursive, DictWithRecursion.delete_recursive.
    split; [by apply DictWithRecursion.get_absent|].
    split; [by apply DictWithRecursion.del_absent|].
    destruct (DictWithRecursion.set_returns key data v
                (DictWithRecursion.absent_at_path_ok _ _ Hab)) as [m' Hs].
    exists (VMap m'). rewrite DictWithRecursion.set_recursive, DictWithRecursion.get_recursive.
    split; [exact Hs|]. split; [eapply DictWithRecursion.set_get, Hs|].
    intros p Hp. unfold DictWithRecursion.getitem_.
    rewrite DictWithRecursion.get_recursive.
    eapply DictWithRecursion.set_materializes; eassumption.
Qed.

(** The node [a] of the document [{a: {}}] is a mapping and [b] is absent
    from it: the walk of ["a.b.c"] meets an absent intermediate segment. *)
Lemma dotted_access_absent_segments_witness :
  DictWithRecursion.absent_at (VMap {["a" := VMap ∅]}) "a.b.c" /\
  DictWithRecursion.get (VMap {["a" := VMap ∅]}) "a.b.c" (VInt 7) true = Ret (VInt 7) /\
  DictWithRecursion.delete (VMap {["a" := VMap ∅]}) "a.b.c" true = Ret (VMap {["a" := VMap ∅]}).
Proof.
  assert (Hab : DictWithRecursion.absent_at (VMap {["a" := VMap ∅]}) "a.b.c").
  { eapply DictWithRecursion.absent_deeper with (k := "a") (next_key := "b.c");
      [reflexivity|reflexivity|].
    eapply DictWithRecursion.absent_here with (k := "b") (next_key := "c"); reflexivity. }
  split; [exact Hab|].
  destruct dotted_access_absent_segments as (_ & _ & _ & H4).
  destruct (H4 _ _ (VInt 7) VNone Hab) as (Hg & Hd & _).
  split; [exact Hg|exact Hd].
Defined.

(** ** Permission resolution *)

Lemma find_char_None c s :
  find (String c EmptyString) s = None <-> (forall i, String.get i s <> Some c).
Proof.
  induction s as [|c' s IH].
  - simpl. split; [intros _ i; destruct i; discriminate|done].
  - cbn [find String.prefix]. destruct (ascii_dec c c') as [->|Hne].
    + assert (String.prefix EmptyString s = true) as -> by (destruct s; reflexivity).
      split; [discriminate|]. intros Hget. exfalso. by apply (Hget 0).
    + destruct (find (String c EmptyString) s) as [i|] eqn:Ef; simpl.
      * split; [discriminate|]. intros Hget. exfalso.
        assert (Hsome : Some i <> None) by discriminate.
        apply Hsome, IH. intros j. apply (Hget (S j)).
      * split; [|done]. intros _ [|j]; simpl; [congruence|].
        by apply IH.
Qed.

(** The level [get_permissions] resolves for [mxid] in the permission map
    [perms]: the entry of [mxid], else the entry of its homeserver, else
    the entry of ["*"], else the empty string. *)
Definition resolved_level (perms : gmap string value) (mxid : string) : value :=
  match perms !! mxid with
  | Some level => level
  | None =>
      let homeserver :=
        match find ":" mxid with Some i => slice_from (i + 1) mxid | None => mxid end in
      match perms !! homeserver with
      | Some level => level
      | None => match perms !! "*" with Some level => level | None => VStr "" end
      end
  end.

(** The levels as the specification orders them: ["relaybot"], ["user"],
    ["puppeting"], ["full"], ["admin"]; any other value ranks below them
    all. *)
Definition level_rank (level : value) : nat :=
  if eq_str level "admin" then 5
  else if eq_str level "full" then 4
  else if eq_str level "puppeting" then 3
  else if eq_str level "user" then 2
  else if eq_str level "relaybot" then 1
  else 0.

(** The flags the specification gives a level, in the order [relaybot],
    [user], [puppeting], [matrix_puppeting], [admin], with the level
    itself: a flag is set exactly when the level ranks at least as high as
    the flag. *)
Definition granted (level : value) : bool * bool * bool * bool * bool * value :=
  ((1 <=? level_rank level)%nat, (2 <=? level_rank level)%nat,
   (3 <=? level_rank level)%nat, (4 <=? level_rank level)%nat,
   (5 <=? level_rank level)%nat, level).

(** The flags [_get_permissions] computes are those of the ranking. *)
Lemma flags_granted level :
  (eq_str level "relaybot" ||
     (eq_str level "user" ||
        (eq_str level "puppeting" || (eq_str level "full" || eq_str level "admin"))),
   eq_str level "user" ||
     (eq_str level "puppeting" || (eq_str level "full" || eq_str level "admin")),
   eq_str level "puppeting" || (eq_str level "full" || eq_str level "admin"),
   eq_str level "full" || eq_str level "admin",
   eq_str level "admin", level) = granted level.
Proof.
  unfold granted, level_rank. destruct level as [| | |s| |]; try reflexivity.
  unfold eq_str.
  destruct (String.eqb_spec s "admin") as [->|_]; [reflexivity|].
  destruct (String.eqb_spec s "full") as [->|_]; [reflexivity|].
  destruct (String.eqb_spec s "puppeting") as [->|_]; [reflexivity|].
  destruct (String.eqb_spec s "user") as [->|_]; [reflexivity|].
  destruct (String.eqb_spec s "relaybot") as [->|_]; reflexivity.
Qed.

Lemma _get_permissions_granted data perms key :
  DictWithRecursion.getitem_ data "bridge.permissions" = Ret (VMap perms) ->
  Config._get_permissions data key =
    Ret (granted (match perms !! key with Some l => l | None => VStr "" end)).
Proof.
  intros Hp. unfold Config._get_permissions. rewrite Hp. simpl.
  by rewrite flags_granted.
Qed.

(** C5.  With a permission map [perms] in the document, and an [mxid]
    that is a key of it or has a [":"], [get_permissions] returns the level
    found under [mxid], else under the homeserver part of [mxid], else
    under ["*"], else the empty string, together with the flags of that
    level, whatever the level is.  The flags of a level are: for
    ["admin"] all five; for ["full"] all but [admin]; for ["puppeting"]
    [relaybot], [user] and [puppeting]; for ["user"] [relaybot] and [user];
    for ["relaybot"] [relaybot] alone; for every other value none.  So
    each flag implies the lower ones. *)
Theorem get_permissions_resolution data perms mxid :
  DictWithRecursion.getitem_ data "bridge.permissions" = Ret (VMap perms) ->
  is_Some (perms !! mxid) \/ (exists i, String.get i mxid = Some ":"%char) ->
  Config.get_permissions data mxid = Ret (granted (resolved_level perms mxid)) /\
  granted (VStr "admin") = (true, true, true, true, true, VStr "admin") /\
  granted (VStr "full") = (true, true, true, true, false, VStr "full") /\
  granted (VStr "puppeting") = (true, true, true, false, false, VStr "puppeting") /\
  granted (VStr "user") = (true, true, false, false, false, VStr "user") /\
  granted (VStr "relaybot") = (true, false, false, false, false, VStr "relaybot") /\
  (forall level,
     level <> VStr "admin" -> level <> VStr "full" -> level <> VStr "puppeting" ->
     level <> VStr "user" -> level <> VStr "relaybot" ->
     granted level = (false, false, false, false, false, level)) /\
  (forall level relaybot user puppeting matrix_puppeting admin l,
     granted level = (relaybot, user, puppeting, matrix_puppeting, admin, l) ->
     l = level /\
     (admin = true -> matrix_puppeting = true) /\
     (matrix_puppeting = true -> puppeting = true) /\
     (puppeting = true -> user = true) /\
     (user = true -> relaybot = true)).
Proof.
  intros Hp Hkey. split; [|split; [|split; [|split; [|split; [|split; [|split]]]]]];
    try reflexivity.
  - unfold Config.get_permissions, resolved_level. rewrite Hp. simpl.
    assert (Hin : forall key,
               contains (or_else (VMap perms) (VMap ∅)) key =
                 Ret (bool_decide (is_Some (perms !! key)))).
    { intros key. unfold or_else. destruct (truthy (VMap perms)) eqn:Ht; [reflexivity|].
      simpl in Ht. apply negb_false_iff, Nat.eqb_eq, map_size_empty_inv in Ht. subst perms.
      simpl. by rewrite !lookup_empty. }
    rewrite Hin. simpl.
    destruct (perms !! mxid) as [l|] eqn:Hm.
    + rewrite bool_decide_eq_true_2 by eauto.
      by rewrite (_get_permissions_granted data perms mxid Hp), Hm.
    + rewrite bool_decide_eq_false_2 by (intros [? ?]; discriminate).
      destruct Hkey as [[? ?]|Hcolon]; [discriminate|].
      unfold index. destruct (find ":" mxid) as [i|] eqn:Hf.
      2:{ exfalso. destruct Hcolon as [j Hj]. revert Hj. by apply find_char_None. }
      simpl. rewrite Hin. simpl.
      destruct (perms !! slice_from (i + 1) mxid) as [l|] eqn:Hh.
      * rewrite bool_decide_eq_true_2 by eauto.
        by rewrite (_get_permissions_granted data perms _ Hp), Hh.
      * rewrite bool_decide_eq_false_2 by (intros [? ?]; discriminate).
        by rewrite (_get_permissions_granted data perms "*" Hp).
  - intros level Ha Hf Hp' Hu Hr. unfold granted, level_rank.
    destruct level as [| | |s| |]; try reflexivity. unfold eq_str.
    destruct (String.eqb_spec s "admin") as [->|_]; [done|].
    destruct (String.eqb_spec s "full") as [->|_]; [done|].
    destruct (String.eqb_spec s "puppeting") as [->|_]; [done|].
    destruct (String.eqb_spec s "user") as [->|_]; [done|].
    destruct (String.eqb_spec s "relaybot") as [->|_]; [done|reflexivity].
  - intros level r u p m a l. unfold granted. generalize (level_rank level).
    intros n [= <- <- <- <- <- <-].
    destruct n as [|[|[|[|[|n]]]]]; simpl; repeat split; done.
Qed.

(** The specification's two examples: the map [{"@a:example.org":
    "admin"}] asked for ["@a:example.org"], and the map [{"example.org":
    "user"}] asked for ["@b:example.org"]. *)
Lemma get_permissions_resolution_witness :
  Config.get_permissions
    (VMap {["bridge" := VMap {["permissions" := VMap {["@a:example.org" := VStr "admin"]}]}]})
    "@a:example.org" = Ret (true, true, true, true, true, VStr "admin") /\
  Config.get_permissions
    (VMap {["bridge" := VMap {["permissions" := VMap {["example.org" := VStr "user"]}]}]})
    "@b:example.org" = Ret (true, true, false, false, false, VStr "user").
Proof.
  split.
  - destruct (get_permissions_resolution
                (VMap {["bridge" := VMap {["permissions" :=
                   VMap {["@a:example.org" := VStr "admin"]}]}]})
                {["@a:example.org" := VStr "admin"]} "@a:example.org")
      as [Hrun _].
    + vm_compute. reflexivity.
    + left. vm_compute. eauto.
    + rewrite Hrun. vm_compute. reflexivity.
  - destruct (get_permissions_resolution
                (VMap {["bridge" := VMap {["permissions" :=
                   VMap {["example.org" := VStr "user"]}]}]})
                {["example.org" := VStr "user"]} "@b:example.org")
      as [Hrun _].
    + vm_compute. reflexivity.
    + right. exists 2. reflexivity.
    + rewrite Hrun. vm_compute. reflexivity.
Defined.

(** C10.  For an [mxid] without a [":"] that is not a key of the
    permission map (or when the document has no permission map),
    [get_permissions] raises the [ValueError] of [mxid.index(":")]; the
    ["*"] entry is not consulted. *)
Theorem get_permissions_without_colon_raises data p mxid :
  DictWithRecursion.getitem_ data "bridge.permissions" = Ret p ->
  p = VNone \/ (exists perms, p = VMap perms /\ perms !! mxid = None) ->
  (forall i, String.get i mxid <> Some ":"%char) ->
  Config.get_permissions data mxid = Raise (ValueError "substring not found").
Proof.
  intros Hp Hkey Hcolon. unfold Config.get_permissions. rewrite Hp. simpl.
  assert (contains (or_else p (VMap ∅)) mxid = Ret false) as ->.
  { destruct Hkey as [->|(perms & -> & Hm)]; [reflexivity|].
    unfold or_else. destruct (truthy (VMap perms)); simpl.
    - by rewrite Hm.
    - by rewrite lookup_empty. }
  simpl. unfold index. apply find_char_None in Hcolon. by rewrite Hcolon.
Qed.

(** The map [{"*": "user"}] asked for ["nobody"]. *)
Lemma get_permissions_without_colon_raises_witness :
  Config.get_permissions
    (VMap {["bridge" := VMap {["permissions" := VMap {["*" := VStr "user"]}]}]})
    "nobody" = Raise (ValueError "substring not found").
Proof.
  apply (get_permissions_without_colon_raises _ (VMap {["*" := VStr "user"]})).
  - vm_compute. reflexivity.
  - right. eexists. split; [reflexivity|]. vm_compute. reflexivity.
  - intros i. do 7 (destruct i as [|i]; [simpl; discriminate|]). simpl. discriminate.
Defined.

(** ** Configuration migration *)

(** A runtime for the examples: every file parses to the empty document,
    every path can be written. *)
Definition example_runtime : Config.Runtime :=
  {| Config.yaml_load := fun _ => Ret VNone;
     Config.yaml_dump := fun _ => "";
     Config.new_token := fun _ => "0000000000000000000000000000000000000000000000000000000000000000";
     Config.format := fun _ => "";
     Config.writable := fun _ => true |}.

(** A configuration object whose document is [data], with a template file
    on disk. *)
Definition example_config (data : value) : Config.state :=
  {| Config._data := data;
     Config.path := "config.yaml";
     Config.registration_path := "registration.yaml";
     Config.base_path := "example-config.yaml";
     Config._registration := VNone;
     Config.files := {["example-config.yaml" := ""]};
     Config.drawn := 0 |}.

(** C4.  Let [update] complete on a readable template, with a source whose
    permission map is absent, or whose whitelist or admin list is present;
    the lists hold strings.  Then the document holds at
    ["bridge.permissions"] the source's map (the empty one when absent)
    after the whitelist entries were set to ["full"] and then the admin
    entries to ["admin"]: every admin entry is ["admin"], every whitelist
    entry outside the admin list is ["full"], the other keys are as in the
    source.  And a source that holds a whitelist and an admin list and
    nothing else does migrate to completion, on any template in which the
    keys written can be walked; with both lists [["@a:x"]] the map it gets
    is [{"@a:x": "admin"}]. *)
Theorem update_migrates_permissions `{Config.Runtime} :
  (forall s s' text template p w a m0 whitelist admins,
     Config.files s !! Config.base_path s = Some text ->
     Config.yaml_load text = Ret template ->
     DictWithRecursion.getitem_ (Config._data s) "bridge.permissions" = Ret p ->
     DictWithRecursion.getitem_ (Config._data s) "bridge.whitelist" = Ret w ->
     DictWithRecursion.getitem_ (Config._data s) "bridge.admins" = Ret a ->
     p = VNone \/ w <> VNone \/ a <> VNone ->
     or_else p (VMap ∅) = VMap m0 ->
     Config.string_list w whitelist ->
     Config.string_list a admins ->
     Config.update s = (Ret tt, s') ->
     exists perms,
       DictWithRecursion.getitem_ (Config._data s') "bridge.permissions" = Ret (VMap perms) /\
       perms = Config.assigned "admin" admins (Config.assigned "full" whitelist m0) /\
       (forall e, e ∈ admins -> perms !! e = Some (VStr "admin")) /\
       (forall e, e ∈ whitelist -> e ∉ admins -> perms !! e = Some (VStr "full")) /\
       (forall e, e ∉ whitelist -> e ∉ admins -> perms !! e = m0 !! e)) /\
  (forall s text template whitelist admins,
     Config._data s = Config.legacy_source whitelist admins ->
     Config.files s !! Config.base_path s = Some text ->
     Config.yaml_load text = Ret template ->
     DictWithRecursion.path_ok (DictWithRecursion.init template)
       "appservice.provisioning.shared_secret" ->
     DictWithRecursion.path_ok (DictWithRecursion.init template) "bridge.permissions" ->
     Config.writable (Config.path s) = true ->
     Config.writable (Config.registration_path s) = true ->
     exists s',
       Config.update s = (Ret tt, s') /\
       DictWithRecursion.getitem_ (Config._data s') "bridge.permissions" =
         Ret (VMap (Config.assigned "admin" admins (Config.assigned "full" whitelist ∅))) /\
       (whitelist = ["@a:x"] -> admins = ["@a:x"] ->
        DictWithRecursion.getitem_ (Config._data s') "bridge.permissions" =
          Ret (VMap {["@a:x" := VStr "admin"]}))).
Proof.
  split.
  - intros s s' text template p w a m0 whitelist admins
      Hfile Hyaml Hp Hw Ha Hmig Hm0 Hwl Had Hrun.
    eexists. split; [eapply Config.update_permissions_run; eassumption|].
    split; [reflexivity|]. split; [|split].
    + intros e He. by apply Config.lookup_assigned_in.
    + intros e Hew Hea. rewrite Config.lookup_assigned_notin by done.
      by apply Config.lookup_assigned_in.
    + intros e Hew Hea. by rewrite !Config.lookup_assigned_notin.
  - intros s text template whitelist admins Hdata Hfile Hyaml Hsecret Hperm Hwp Hwr.
    destruct (Config.update_legacy_returns whitelist admins s text template
                Hdata Hfile Hyaml Hsecret Hperm Hwp Hwr) as [s' Hrun].
    assert (Hget : DictWithRecursion.getitem_ (Config._data s') "bridge.permissions" =
                   Ret (VMap (Config.assigned "admin" admins
                                (Config.assigned "full" whitelist ∅)))).
    { eapply (Config.update_permissions_run s s' text template VNone
                (VList (VStr <$> whitelist)) (VList (VStr <$> admins)));
        try eassumption.
      - rewrite Hdata. vm_compute. reflexivity.
      - rewrite Hdata. vm_compute. reflexivity.
      - rewrite Hdata. vm_compute. reflexivity.
      - by left.
      - reflexivity.
      - by right.
      - by right. }
    exists s'. split; [exact Hrun|]. split; [exact Hget|].
    intros -> ->. rewrite Hget. unfold Config.assigned. simpl.
    by rewrite insert_insert_eq.
Qed.

(** The specification's example: [bridge.whitelist: ["@a:x"]] and
    [bridge.admins: ["@a:x"]], no permission map, an empty template. *)
Lemma update_migrates_permissions_witness :
  exists s',
    @Config.update example_runtime
      (example_config
         (VMap {["bridge" := VMap {["whitelist" := VList [VStr "@a:x"];
                                    "admins" := VList [VStr "@a:x"]]}]}))
      = (Ret tt, s') /\
    DictWithRecursion.getitem_ (Config._data s') "bridge.permissions" =
      Ret (VMap {["@a:x" := VStr "admin"]}).
Proof.
  destruct (@update_migrates_permissions example_runtime) as [_ Hlegacy].
  destruct (Hlegacy
              (example_config
                 (VMap {["bridge" := VMap {["whitelist" := VList [VStr "@a:x"];
                                            "admins" := VList [VStr "@a:x"]]}]}))
              "" VNone ["@a:x"] ["@a:x"])
    as (s' & Hrun & _ & Hex).
  - reflexivity.
  - vm_compute. reflexivity.
  - reflexivity.
  - apply DictWithRecursion.path_ok_empty.
  - apply DictWithRecursion.path_ok_empty.
  - reflexivity.
  - reflexivity.
  - exists s'. split; [exact Hrun|]. by apply Hex.
Defined.

(** C9.  When the template cannot be opened or read ([OSError]), [update]
    returns and leaves everything as it was: the working document, the
    files, the registration. *)
Theorem update_without_base_is_noop `{Config.Runtime} s :
  Config.files s !! Config.base_path s = None \/
  (exists text, Config.files s !! Config.base_path s = Some text /\
                Config.yaml_load text = Raise OSError) ->
  Config.update s = (Ret tt, s).
Proof.
  intros Hbase. unfold Config.update, bind.
  rewrite (Config.load_base_unavailable s Hbase). reflexivity.
Qed.

(** A configuration whose template path names no file. *)
Lemma update_without_base_is_noop_witness :
  @Config.update example_runtime
    (Config.init "config.yaml" "registration.yaml" "example-config.yaml" ∅ 0)
  = (Ret tt, Config.init "config.yaml" "registration.yaml" "example-config.yaml" ∅ 0).
Proof.
  apply (@update_without_base_is_noop example_runtime
           (Config.init "config.yaml" "registration.yaml" "example-config.yaml" ∅ 0)).
  left. reflexivity.
Defined.

(** ** The identity handle *)




(** ** The intent API *)

(** A homeserver that answers by a script, one answer per request, and
    [Ok None] once the script is over.  Error contents are not JSON, so the
    error code is the content itself. *)
Definition scripted : Intent.Homeserver (list Intent.answer) :=
  {| Intent.respond := fun script _ _ =>
       match script with
       | [] => (Intent.Ok VNone, [])
       | ans :: script' => (ans, script')
       end;
     Intent.json_errcode := fun _ => None;
     Intent.magic_from_buffer := fun _ => VStr "application/octet-stream";
     Intent.level_allows := fun _ _ _ => true |}.

(** The handle of ["@telegram_1:example.org"], with or without a bot, an
    empty state store, and a scripted homeserver. *)
Definition example_intent (bot : bool) (script : list Intent.answer)
  : Intent.state (list Intent.answer) :=
  {| Intent.self :=
       {| Intent.mxid := "@telegram_1:example.org"; Intent.localpart := "telegram_1";
          Intent.bot := bot; Intent.domain := "example.org";
          Intent.identity := "@telegram_1:example.org"; Intent.registered := false |};
     Intent.state_store := {| Intent.members := ∅; Intent.power_levels := ∅ |};
     Intent.remote := script;
     Intent.trace := [] |}.

(** C2: what the code does.  With a bot, when the direct join fails with a
    code that is not ["M_FORBIDDEN"], [_ensure_joined] does not raise: the
    bot invites, and once the invite is answered the join is sent a second
    time; the call returns when that join is answered and raises
    [IntentError] when it fails. *)
Theorem ensure_joined_falls_back_on_any_code {T} `{Intent.Homeserver T}
    (s : Intent.state T) room_id content t1 resp t2 ans t3 :
  Intent.is_joined (Intent.state_store s) room_id (Intent.mxid (Intent.self s)) = false ->
  Intent.bot (Intent.self s) = true ->
  eq_str (Intent.matrix_error_code content) "M_FORBIDDEN" = false ->
  Intent.respond (Intent.remote (Intent.after_registration s)) Intent.Client
    (Intent.JoinRoom room_id) = (Intent.Failed content, t1) ->
  Intent.respond t1 Intent.Bot (Intent.InviteUser room_id (Intent.mxid (Intent.self s)))
    = (Intent.Ok resp, t2) ->
  Intent.respond t2 Intent.Client (Intent.JoinRoom room_id) = (ans, t3) ->
  exists r s',
    Intent._ensure_joined room_id false s = (r, s') /\
    r = match ans with
        | Intent.Ok _ => Ret tt
        | Intent.Failed content2 =>
            Raise (IntentError
                     ("Failed to join room " +:+ room_id +:+ " as " +:+
                      Intent.mxid (Intent.self s))
                     (MatrixRequestError content2))
        end /\
    Intent.trace s' =
      (Intent.trace (Intent.after_registration s) ++
       [Intent.Sent Intent.Client (Intent.JoinRoom room_id);
        Intent.Sent Intent.Bot (Intent.InviteUser room_id (Intent.mxid (Intent.self s)));
        Intent.Sent Intent.Client (Intent.JoinRoom room_id)] ++
       match ans with
       | Intent.Ok _ => [Intent.Stored (Intent.Joined room_id (Intent.mxid (Intent.self s)))]
       | Intent.Failed _ => []
       end)%list.
Proof.
  intros Hc Hbot _ Hjoin Hinvite Hretry.
  rewrite (Intent._ensure_joined_fallback s room_id false content t1 resp t2 ans t3)
    by auto.
  destruct ans; do 2 eexists; (split; [reflexivity|]); (split; [reflexivity|]); simpl;
    rewrite <- ?app_assoc; reflexivity.
Qed.

(** The failing input of C2: a handle with a bot, the registration
    answered, the join refused with the code ["M_UNKNOWN"], the invite and
    the second join answered.  The call returns, after an invite and a
    second join. *)
Lemma ensure_joined_falls_back_on_any_code_witness :
  exists s',
    @Intent._ensure_joined _ scripted "!room:example.org" false
      (example_intent true
         [Intent.Ok VNone; Intent.Failed "M_UNKNOWN"; Intent.Ok VNone; Intent.Ok VNone])
      = (Ret tt, s') /\
    Intent.trace s' =
      [Intent.Sent Intent.Client (Intent.Register (VMap {["username" := VStr "telegram_1"]}));
       Intent.Sent Intent.Client (Intent.JoinRoom "!room:example.org");
       Intent.Sent Intent.Bot
         (Intent.InviteUser "!room:example.org" "@telegram_1:example.org");
       Intent.Sent Intent.Client (Intent.JoinRoom "!room:example.org");
       Intent.Stored (Intent.Joined "!room:example.org" "@telegram_1:example.org")].
Proof.
  destruct (@ensure_joined_falls_back_on_any_code _ scripted
              (example_intent true
                 [Intent.Ok VNone; Intent.Failed "M_UNKNOWN"; Intent.Ok VNone;
                  Intent.Ok VNone])
              "!room:example.org" "M_UNKNOWN" [Intent.Ok VNone; Intent.Ok VNone]
              VNone [Intent.Ok VNone] (Intent.Ok VNone) [])
    as (r & s' & Hrun & -> & Htrace); try reflexivity.
  exists s'. split; [exact Hrun|]. rewrite Htrace. reflexivity.
Defined.

(** C6.  [_ensure_registered] returns without raising whatever the
    homeserver answers: the answer, ["M_USER_IN_USE"] or any other failure.
    Afterwards the flag [registered] is set and the state store is as
    before; a handle already registered is left as it is, and an
    unregistered one has sent one registration request.  No operation of a
    handle takes a set flag down. *)
Theorem ensure_registered_sets_flag_for_good {T} `{Intent.Homeserver T} :
  (forall s : Intent.state T,
     exists s',
       Intent._ensure_registered s = (Ret tt, s') /\
       Intent.registered (Intent.self s') = true /\
       Intent.state_store s' = Intent.state_store s /\
       (Intent.registered (Intent.self s) = true -> s' = s) /\
       (Intent.registered (Intent.self s) = false ->
        Intent.trace s' =
          (Intent.trace s ++
           [Intent.Sent Intent.Client
              (Intent.Register
                 (VMap {["username" := VStr (Intent.localpart (Intent.self s))]}))])%list)) /\
  (forall op (s : Intent.state T) r s',
     Intent.run op s = (r, s') ->
     Intent.registered (Intent.self s) = true ->
     Intent.registered (Intent.self s') = true).
Proof.
  split.
  - intros s. exists (Intent.after_registration s).
    split; [apply Intent._ensure_registered_run|].
    split; [apply Intent.after_registration_registered|].
    split; [apply Intent.after_registration_store|].
    unfold Intent.after_registration. split; intros ->; reflexivity.
  - intros op. apply Intent.keeps_run.
Qed.

(** A registration refused with ["M_UNKNOWN"]: the call returns and the
    flag is set; a [leave_room] that fails afterwards leaves it set. *)
Lemma ensure_registered_sets_flag_for_good_witness :
  exists s1 r s2,
    @Intent._ensure_registered _ scripted
      (example_intent false [Intent.Failed "M_UNKNOWN"; Intent.Failed "M_UNKNOWN"])
      = (Ret tt, s1) /\
    Intent.registered (Intent.self s1) = true /\
    @Intent.run _ scripted (Intent.OpLeaveRoom "!room:example.org") s1 = (r, s2) /\
    Intent.registered (Intent.self s2) = true.
Proof.
  destruct (@ensure_registered_sets_flag_for_good _ scripted) as [Hreg Hmono].
  destruct (Hreg (example_intent false [Intent.Failed "M_UNKNOWN"; Intent.Failed "M_UNKNOWN"]))
    as (s1 & Hrun & Hflag & _).
  destruct (@Intent.run _ scripted (Intent.OpLeaveRoom "!room:example.org") s1)
    as [r s2] eqn:Hop.
  exists s1, r, s2. split; [exact Hrun|]. split; [exact Hflag|]. split; [exact Hop|].
  exact (Hmono _ _ _ _ Hop Hflag).
Defined.

(** The join requests of a trace of one event. *)
Lemma join_requests_join (a : Intent.actor) room_id :
  Intent.join_requests [Intent.Sent a (Intent.JoinRoom room_id)] = 1.
Proof. reflexivity. Qed.

Lemma join_requests_invite (a : Intent.actor) room_id user_id :
  Intent.join_requests [Intent.Sent a (Intent.InviteUser room_id user_id)] = 0.
Proof. reflexivity. Qed.

Lemma join_requests_stored op : Intent.join_requests [Intent.Stored op] = 0.
Proof. reflexivity. Qed.

(** The join requests a call of [_ensure_joined] that returns has sent. *)
Lemma ensure_joined_join_requests {T} `{Intent.Homeserver T} (s : Intent.state T)
    room_id s1 :
  Intent._ensure_joined room_id false s = (Ret tt, s1) ->
  Intent.join_requests (Intent.trace s1) =
    Intent.join_requests (Intent.trace s) +
    (if Intent.is_joined (Intent.state_store s) room_id (Intent.mxid (Intent.self s))
     then 0
     else match fst (Intent.respond (Intent.remote (Intent.after_registration s))
                       Intent.Client (Intent.JoinRoom room_id)) with
          | Intent.Ok _ => 1
          | Intent.Failed _ => 2
          end).
Proof.
  unfold Intent._ensure_joined, bind at 1 2, gets at 1. simpl. unfold gets at 1.
  destruct (Intent.is_joined (Intent.state_store s) room_id (Intent.mxid (Intent.self s)))
    eqn:Hc.
  { unfold ret. intros [= <-]. lia. }
  unfold bind at 1. rewrite Intent._ensure_registered_run.
  unfold Intent.except_request_error, try_except, bind, Intent.request, gets,
    Intent.store, raise. simpl.
  destruct (Intent.respond (Intent.remote (Intent.after_registration s)) Intent.Client
              (Intent.JoinRoom room_id)) as [[resp|content] t1]; simpl.
  { intros [= <-]. simpl.
    rewrite !Intent.join_requests_app, Intent.join_requests_after_registration.
    rewrite join_requests_join, join_requests_stored. lia. }
  destruct (negb (eq_str (Intent.matrix_error_code content) "M_FORBIDDEN") &&
            negb (Intent.bot (Intent.self (Intent.after_registration s)))); [discriminate|].
  destruct (Intent.bot (Intent.self (Intent.after_registration s))); simpl; [|discriminate].
  destruct (Intent.respond t1 Intent.Bot
              (Intent.InviteUser room_id (Intent.mxid (Intent.self s))))
    as [[resp|content1] t2]; simpl; [|discriminate].
  destruct (Intent.respond t2 Intent.Client (Intent.JoinRoom room_id))
    as [[resp2|content2] t3]; simpl; [|discriminate].
  intros [= <-]. simpl.
  rewrite !Intent.join_requests_app, Intent.join_requests_after_registration.
  rewrite !join_requests_join, join_requests_invite,
    join_requests_stored. lia.
Qed.

(** C7, as stated, fails: a first call can succeed with two join
    requests.  A handle with a bot; the registration is answered, the join
    is refused, the invite by the bot and the second join are answered.
    The call returns, the second call is a cache hit, and two join
    requests went out. *)
Lemma ensure_joined_retry_joins_twice :
  let s := example_intent true
             [Intent.Ok VNone; Intent.Failed "M_FORBIDDEN"; Intent.Ok VNone; Intent.Ok VNone] in
  exists s1,
    @Intent._ensure_joined _ scripted "!room:example.org" false s = (Ret tt, s1) /\
    @Intent._ensure_joined _ scripted "!room:example.org" false s1 = (Ret tt, s1) /\
    Intent.join_requests (Intent.trace s1) = 2.
Proof.
  intros s. eexists. split; [vm_compute; reflexivity|].
  split; vm_compute; reflexivity.
Qed.

(** C7, amended.  Whenever a call of [_ensure_joined] returns, the state
    store says "joined" and a second call for the same room returns from
    the cache and changes nothing: no request, no write.  The join
    requests all go out in the first call: none when the cache said
    "joined" already, one when its join is answered, two when its join
    fails and it returns all the same, after the invite by the bot and a
    second join.  A call on a cold cache whose join is answered does
    return, with the join and the write of "joined" as its last two
    events; and so does a call of a handle with a bot whose join fails,
    when the invite and the second join are answered. *)
Theorem ensure_joined_second_call_is_cached {T} `{Intent.Homeserver T} :
  (forall (s : Intent.state T) room_id s1,
     Intent._ensure_joined room_id false s = (Ret tt, s1) ->
     Intent._ensure_joined room_id false s1 = (Ret tt, s1) /\
     Intent.is_joined (Intent.state_store s1) room_id (Intent.mxid (Intent.self s)) = true /\
     Intent.join_requests (Intent.trace s1) =
       Intent.join_requests (Intent.trace s) +
       (if Intent.is_joined (Intent.state_store s) room_id (Intent.mxid (Intent.self s))
        then 0
        else match fst (Intent.respond (Intent.remote (Intent.after_registration s))
                          Intent.Client (Intent.JoinRoom room_id)) with
             | Intent.Ok _ => 1
             | Intent.Failed _ => 2
             end)) /\
  (forall (s : Intent.state T) room_id resp t,
     Intent.is_joined (Intent.state_store s) room_id (Intent.mxid (Intent.self s)) = false ->
     Intent.respond (Intent.remote (Intent.after_registration s)) Intent.Client
       (Intent.JoinRoom room_id) = (Intent.Ok resp, t) ->
     exists s1,
       Intent._ensure_joined room_id false s = (Ret tt, s1) /\
       Intent.trace s1 =
         (Intent.trace (Intent.after_registration s) ++
          [Intent.Sent Intent.Client (Intent.JoinRoom room_id);
           Intent.Stored (Intent.Joined room_id (Intent.mxid (Intent.self s)))])%list /\
       Intent.join_requests (Intent.trace s1) = S (Intent.join_requests (Intent.trace s))) /\
  (forall (s : Intent.state T) room_id content t1 resp t2 resp' t3,
     Intent.is_joined (Intent.state_store s) room_id (Intent.mxid (Intent.self s)) = false ->
     Intent.bot (Intent.self s) = true ->
     Intent.respond (Intent.remote (Intent.after_registration s)) Intent.Client
       (Intent.JoinRoom room_id) = (Intent.Failed content, t1) ->
     Intent.respond t1 Intent.Bot (Intent.InviteUser room_id (Intent.mxid (Intent.self s)))
       = (Intent.Ok resp, t2) ->
     Intent.respond t2 Intent.Client (Intent.JoinRoom room_id) = (Intent.Ok resp', t3) ->
     exists s1,
       Intent._ensure_joined room_id false s = (Ret tt, s1) /\
       Intent.join_requests (Intent.trace s1)
         = S (S (Intent.join_requests (Intent.trace s)))).
Proof.
  split; [|split].
  - intros s room_id s1 Hrun.
    destruct (Intent._ensure_joined_then_cached _ _ _ Hrun) as [Hmxid Hcached].
    split; [apply Intent._ensure_joined_cached; by rewrite Hmxid|].
    split; [exact Hcached|]. by apply ensure_joined_join_requests.
  - intros s room_id resp t Hc Hjoin.
    pose proof (Intent._ensure_joined_direct s room_id false resp t (or_intror Hc) Hjoin)
      as Hrun.
    eexists. split; [exact Hrun|]. split.
    + simpl. by rewrite <- app_assoc.
    + rewrite (ensure_joined_join_requests _ _ _ Hrun), Hc, Hjoin. simpl. lia.
  - intros s room_id content t1 resp t2 resp' t3 Hc Hbot Hjoin Hinvite Hretry.
    pose proof (Intent._ensure_joined_fallback s room_id false content t1 resp t2
                  (Intent.Ok resp') t3 (or_intror Hc) Hbot Hjoin Hinvite Hretry) as Hrun.
    cbv zeta in Hrun. eexists. split; [exact Hrun|].
    rewrite (ensure_joined_join_requests _ _ _ Hrun), Hc, Hjoin. simpl. lia.
Qed.

(** Two calls on a fresh handle, the registration and the join answered:
    the second call leaves the state of the first, and one join request
    went out. *)
Lemma ensure_joined_second_call_is_cached_witness :
  exists s1,
    @Intent._ensure_joined _ scripted "!room:example.org" false
      (example_intent true [Intent.Ok VNone; Intent.Ok VNone]) = (Ret tt, s1) /\
    @Intent._ensure_joined _ scripted "!room:example.org" false s1 = (Ret tt, s1) /\
    Intent.join_requests (Intent.trace s1) = 1.
Proof.
  destruct (@ensure_joined_second_call_is_cached _ scripted) as (Hsecond & Honce & _).
  destruct (Honce (example_intent true [Intent.Ok VNone; Intent.Ok VNone])
              "!room:example.org" VNone [])
    as (s1 & Hfirst & _ & Hcount); [reflexivity|reflexivity|].
  exists s1. split; [exact Hfirst|].
  split; [exact (proj1 (Hsecond _ _ _ Hfirst))|exact Hcount].
Defined.

(** C8.  [leave_room] writes "left" to the state store and then sends the
    leave request, these two events in this order; the state store it
    leaves is the one after the write, which says "not joined", whether the
    request is answered or fails with [MatrixRequestError], which it
    raises. *)
Theorem leave_room_marks_left_before_request {T} `{Intent.Homeserver T}
    (s : Intent.state T) room_id :
  exists r s',
    Intent.leave_room room_id s = (r, s') /\
    Intent.trace s' =
      (Intent.trace s ++
       [Intent.Stored (Intent.Left room_id (Intent.mxid (Intent.self s)));
        Intent.Sent Intent.Client (Intent.LeaveRoom room_id)])%list /\
    Intent.state_store s' =
      Intent.left (Intent.state_store s) room_id (Intent.mxid (Intent.self s)) /\
    Intent.is_joined (Intent.state_store s') room_id (Intent.mxid (Intent.self s)) = false /\
    r = match fst (Intent.respond (Intent.remote s) Intent.Client (Intent.LeaveRoom room_id)) with
        | Intent.Ok response => Ret response
        | Intent.Failed content => Raise (MatrixRequestError content)
        end.
Proof.
  do 2 eexists. split; [apply Intent.leave_room_run|]. simpl.
  rewrite <- app_assoc. split; [reflexivity|]. split; [reflexivity|].
  split; [apply Intent.is_joined_left|reflexivity].
Qed.

(** * Further properties of the code *)

(** ** The configuration document *)

(** X1.  On a key whose walk goes through mappings only, [delete]
    returns; in the document it leaves, the key reads as the default of
    the reader and is not [in] the document, and a second [delete] changes
    nothing. *)
Theorem delete_clears_the_key data key d :
  DictWithRecursion.path_ok data key ->
  exists data',
    DictWithRecursion.delete data key true = Ret data' /\
    DictWithRecursion.get data' key d true = Ret d /\
    DictWithRecursion.contains_ data' key = Ret false /\
    DictWithRecursion.delete data' key true = Ret data'.
Proof.
  intros Hok.
  destruct (DictWithRecursion.del_get key data d Hok) as (data' & Hdel & Hget & _).
  destruct (DictWithRecursion.del_get key data VNone Hok) as (data'' & Hdel' & Hnone & _).
  rewrite Hdel in Hdel'. injection Hdel' as <-.
  exists data'. rewrite !DictWithRecursion.delete_recursive, DictWithRecursion.get_recursive.
  split; [exact Hdel|]. split; [exact Hget|]. split.
  - unfold DictWithRecursion.contains_, DictWithRecursion.getitem_.
    by rewrite DictWithRecursion.get_recursive, Hnone.
  - eapply DictWithRecursion.del_del, Hdel.
Qed.

(** The port of a document that holds an address and a port. *)
Lemma delete_clears_the_key_witness :
  exists data',
    DictWithRecursion.delete
      (VMap {["appservice" := VMap {["address" := VStr "http://localhost";
                                     "port" := VInt 8080]}]})
      "appservice.port" true = Ret data' /\
    DictWithRecursion.get data' "appservice.port" (VInt 0) true = Ret (VInt 0) /\
    DictWithRecursion.contains_ data' "appservice.port" = Ret false /\
    DictWithRecursion.delete data' "appservice.port" true = Ret data'.
Proof.
  apply delete_clears_the_key.
  eapply DictWithRecursion.path_step with (k := "appservice") (next_key := "port");
    [reflexivity|vm_compute; reflexivity|].
  by apply DictWithRecursion.path_plain.
Defined.

(** X2.  A write or a delete along a key leaves the reading of every key
    that parts from it at some segment: the value read, or the exception
    raised, is the one of before. *)
Theorem writes_leave_diverging_keys data key q d :
  DictWithRecursion.diverge key q ->
  (forall v data',
     DictWithRecursion.set data key v true = Ret data' ->
     DictWithRecursion.get data' q d true = DictWithRecursion.get data q d true) /\
  (forall data',
     DictWithRecursion.delete data key true = Ret data' ->
     DictWithRecursion.get data' q d true = DictWithRecursion.get data q d true).
Proof.
  intros Hdiv. split.
  - intros v data'. rewrite DictWithRecursion.set_recursive, !DictWithRecursion.get_recursive.
    intros Hset. eapply DictWithRecursion.set_frame; eassumption.
  - intros data'. rewrite DictWithRecursion.delete_recursive, !DictWithRecursion.get_recursive.
    intros Hdel. eapply DictWithRecursion.del_frame; eassumption.
Qed.

(** Writing the port and reading the address. *)
Lemma writes_leave_diverging_keys_witness :
  DictWithRecursion.diverge "appservice.port" "appservice.address" /\
  forall data d v data',
    DictWithRecursion.set data "appservice.port" v true = Ret data' ->
    DictWithRecursion.get data' "appservice.address" d true =
      DictWithRecursion.get data "appservice.address" d true.
Proof.
  assert (Hdiv : DictWithRecursion.diverge "appservice.port" "appservice.address").
  { eapply DictWithRecursion.diverge_later
      with (k := "appservice") (next_p := "port") (next_q := "address");
      [reflexivity|reflexivity|].
    apply DictWithRecursion.diverge_here. vm_compute. discriminate. }
  split; [exact Hdiv|]. intros data d.
  exact (proj1 (writes_leave_diverging_keys data _ _ d Hdiv)).
Defined.

(** X3.  A read along a dotted key returns exactly when the walk goes
    through mappings only, absent segments included; when it does not, the
    exception is [AttributeError], from [.get] on an object that is not a
    mapping. *)
Theorem get_returns_iff_walkable data key d :
  ((exists r, DictWithRecursion.get data key d true = Ret r) <->
   DictWithRecursion.path_ok data key) /\
  (forall e, DictWithRecursion.get data key d true = Raise e -> e = AttributeError).
Proof.
  rewrite DictWithRecursion.get_recursive. split; [split|].
  - intros [r Hr]. eapply DictWithRecursion.get_Ret_path_ok, Hr.
  - apply DictWithRecursion.get_returns.
  - intros e. apply DictWithRecursion.get_Raise.
Qed.

(** X4.  A write along a dotted key returns exactly when the walk goes
    through mappings only; the walk is walkable still in the document it
    leaves; when it does not return, the exception is [TypeError] or
    [AttributeError]. *)
Theorem set_returns_iff_walkable data key v :
  ((exists data', DictWithRecursion.set data key v true = Ret data') <->
   DictWithRecursion.path_ok data key) /\
  (forall data', DictWithRecursion.set data key v true = Ret data' ->
     DictWithRecursion.path_ok data' key) /\
  (forall e, DictWithRecursion.set data key v true = Raise e ->
     e = TypeError \/ e = AttributeError).
Proof.
  rewrite DictWithRecursion.set_recursive. split; [split|split].
  - intros [data' Hset]. eapply DictWithRecursion.set_Ret_path_ok, Hset.
  - intros Hok. destruct (DictWithRecursion.set_returns key data v Hok) as [m' Hset].
    eauto.
  - intros data'. apply DictWithRecursion.set_path_ok.
  - intros e. apply DictWithRecursion.set_Raise.
Qed.

(** X5.  The flat name of a dotted key and its dotted reading are two
    places.  A write with the recursion switched off is read back with the
    recursion switched off and leaves the dotted reading as it was; a
    write along the dotted key leaves the flat name as it was. *)
Theorem flat_and_dotted_names_are_apart data key v d :
  is_Some (split1 key) ->
  (forall data', DictWithRecursion.set data key v false = Ret data' ->
     DictWithRecursion.get data' key d false = Ret v /\
     DictWithRecursion.get data' key d true = DictWithRecursion.get data key d true) /\
  (forall data', DictWithRecursion.set data key v true = Ret data' ->
     DictWithRecursion.get data' key d false = DictWithRecursion.get data key d false).
Proof.
  intros Hdot. split; intros data' Hset.
  - by apply DictWithRecursion.set_flat_get.
  - by eapply DictWithRecursion.set_dotted_get_flat.
Qed.

(** The key ["a.b"] written flat into an empty document: the dotted
    reading finds nothing. *)
Lemma flat_and_dotted_names_are_apart_witness :
  is_Some (split1 "a.b") /\
  DictWithRecursion.get (VMap {["a.b" := VInt 1]}) "a.b" VNone false = Ret (VInt 1) /\
  DictWithRecursion.get (VMap {["a.b" := VInt 1]}) "a.b" VNone true = Ret VNone.
Proof.
  assert (Hdot : is_Some (split1 "a.b")) by (vm_compute; eauto).
  split; [exact Hdot|].
  destruct (flat_and_dotted_names_are_apart (VMap ∅) "a.b" (VInt 1) VNone Hdot)
    as [Hflat _].
  destruct (Hflat (VMap {["a.b" := VInt 1]}) eq_refl) as [Hread Hdotted].
  split; [exact Hread|]. rewrite Hdotted. vm_compute. reflexivity.
Defined.

(** X6.  After [self[key] = v] the key is [in] the document exactly when
    [v] is not [None]: a key that holds [None] counts as absent. *)
Theorem none_counts_as_absent data key v data' :
  DictWithRecursion.setitem_ data key v = Ret data' ->
  DictWithRecursion.getitem_ data' key = Ret v /\
  DictWithRecursion.contains_ data' key = Ret (is_not_None v).
Proof.
  intros Hset. split.
  - eapply DictWithRecursion.setitem__getitem_, Hset.
  - eapply DictWithRecursion.setitem__contains_, Hset.
Qed.

(** A token set to [None]. *)
Lemma none_counts_as_absent_witness :
  exists data',
    DictWithRecursion.setitem_ (VMap ∅) "telegram.bot_token" VNone = Ret data' /\
    DictWithRecursion.contains_ data' "telegram.bot_token" = Ret false.
Proof.
  eexists. split; [vm_compute; reflexivity|].
  refine (proj2 (none_counts_as_absent (VMap ∅) "telegram.bot_token" VNone _ _)).
  vm_compute. reflexivity.
Defined.

(** ** Migration of the configuration *)

(** Decimal digits of a number, least significant first in the recursion. *)
Fixpoint digits (fuel : nat) (n : N) (acc : string) : string :=
  match fuel with
  | 0 => acc
  | S fuel' =>
      let acc' := String (ascii_of_N (48 + n mod 10)) acc in
      if (n / 10 =? 0)%N then acc' else digits fuel' (n / 10)%N acc'
  end.

(** A template for the examples. *)
Definition sample_template : value :=
  VMap {["appservice" :=
           VMap {["address" := VStr "http://localhost:8080";
                  "provisioning" := VMap {["shared_secret" := VStr "generate"]}]};
         "bridge" :=
           VMap {["message_formats" :=
                    VMap {["m.text" := VStr "<b>$sender</b>: $message";
                           "m.emote" := VStr "* $sender $message"]};
                  "permissions" := VMap {["*" := VStr "relaybot"]};
                  "relaybot" := VMap {["authless_portals" := VBool true]}]};
         "logging" := VMap {["version" := VInt 1]}]}.

(** A runtime for the examples: every file parses to the template; an
    f-string prints [None], the booleans, strings and integers as Python
    does (integers of up to twenty digits), and is not used on lists and
    mappings, for which the text is left empty; the [n]-th token is
    ["token"] and [n]; every path can be written. *)
Definition sample_runtime : Config.Runtime :=
  {| Config.yaml_load := fun _ => Ret sample_template;
     Config.yaml_dump := fun _ => "dumped";
     Config.new_token := fun n => "token" +:+ digits 20 (N.of_nat n) "";
     Config.format := fun v => match v with
                               | VNone => "None"
                               | VBool true => "True"
                               | VBool false => "False"
                               | VStr s => s
                               | VInt z =>
                                   if (z <? 0)%Z then "-" +:+ digits 20 (Z.to_N (- z)) ""
                                   else digits 20 (Z.to_N z) ""
                               | _ => ""
                               end;
     Config.writable := fun _ => true |}.

(** X7.  The plain settings of [update], the 50 keys it passes to [copy]
    alone and under their own name: after a completed [update] each holds
    the value of the source when the source has one that is not [None],
    and the value of the template otherwise. *)
Theorem update_carries_plain_settings `{Config.Runtime} k s s' text template v :
  k ∈ Config.plain_settings ->
  Config.files s !! Config.base_path s = Some text ->
  Config.yaml_load text = Ret template ->
  DictWithRecursion.getitem_ (Config._data s) k = Ret v ->
  Config.update s = (Ret tt, s') ->
  DictWithRecursion.getitem_ (Config._data s') k =
    if is_not_None v then Ret v
    else DictWithRecursion.getitem_ (DictWithRecursion.init template) k.
Proof. apply Config.update_plain_setting. Qed.

(** The domain of the source is carried over. *)
Lemma update_carries_plain_settings_witness :
  let s := example_config (VMap {["homeserver" := VMap {["domain" := VStr "example.org"]}]}) in
  exists s',
    @Config.update sample_runtime s = (Ret tt, s') /\
    DictWithRecursion.getitem_ (Config._data s') "homeserver.domain"
      = Ret (VStr "example.org").
Proof.
  intros s. exists (snd (@Config.update sample_runtime s)).
  assert (Hrun : @Config.update sample_runtime s
                 = (Ret tt, snd (@Config.update sample_runtime s)))
    by (vm_compute; reflexivity).
  split; [exact Hrun|].
  rewrite (@update_carries_plain_settings sample_runtime "homeserver.domain" s _ ""
             sample_template (VStr "example.org")); [reflexivity| | | | |exact Hrun].
  - apply (list_elem_of_lookup_2 _ 2). reflexivity.
  - vm_compute. reflexivity.
  - reflexivity.
  - vm_compute. reflexivity.
Defined.

(** X8.  The appservice address after a completed [update]: the address
    of the source when it has one; else, when the source has a protocol,
    the text [protocol://hostname:port] of its three legacy settings; else
    the address of the template. *)
Theorem update_unifies_address `{Config.Runtime} s s' text template p a h po :
  Config.files s !! Config.base_path s = Some text ->
  Config.yaml_load text = Ret template ->
  DictWithRecursion.getitem_ (Config._data s) "appservice.protocol" = Ret p ->
  DictWithRecursion.getitem_ (Config._data s) "appservice.address" = Ret a ->
  DictWithRecursion.getitem_ (Config._data s) "appservice.hostname" = Ret h ->
  DictWithRecursion.getitem_ (Config._data s) "appservice.port" = Ret po ->
  Config.update s = (Ret tt, s') ->
  DictWithRecursion.getitem_ (Config._data s') "appservice.address" =
    if is_not_None a then Ret a
    else if is_not_None p
         then Ret (VStr (Config.format p +:+ "://" +:+ Config.format h +:+ ":"
                         +:+ Config.format po))
         else DictWithRecursion.getitem_ (DictWithRecursion.init template)
                "appservice.address".
Proof. apply Config.update_address. Qed.

(** A source with the three legacy settings. *)
Lemma update_unifies_address_witness :
  let s := example_config
             (VMap {["appservice" := VMap {["protocol" := VStr "https";
                                            "hostname" := VStr "bridge.example.org";
                                            "port" := VInt 29317]}]}) in
  exists s',
    @Config.update sample_runtime s = (Ret tt, s') /\
    DictWithRecursion.getitem_ (Config._data s') "appservice.address"
      = Ret (VStr "https://bridge.example.org:29317").
Proof.
  intros s. exists (snd (@Config.update sample_runtime s)).
  assert (Hrun : @Config.update sample_runtime s
                 = (Ret tt, snd (@Config.update sample_runtime s)))
    by (vm_compute; reflexivity).
  split; [exact Hrun|].
  rewrite (@update_unifies_address sample_runtime s _ "" sample_template
             (VStr "https") VNone (VStr "bridge.example.org") (VInt 29317));
    [vm_compute; reflexivity|..|exact Hrun]; vm_compute; reflexivity.
Defined.

(** X9.  The provisioning secret after a completed [update].  The value
    in effect is the one of the source, or that of the template when the
    source has none; when it is the word ["generate"] the document holds in
    its place the next token drawn, otherwise the value itself. *)
Theorem update_generates_shared_secret `{Config.Runtime} s s' text template v t :
  Config.files s !! Config.base_path s = Some text ->
  Config.yaml_load text = Ret template ->
  DictWithRecursion.getitem_ (Config._data s) "appservice.provisioning.shared_secret"
    = Ret v ->
  DictWithRecursion.getitem_ (DictWithRecursion.init template)
    "appservice.provisioning.shared_secret" = Ret t ->
  Config.update s = (Ret tt, s') ->
  DictWithRecursion.getitem_ (Config._data s') "appservice.provisioning.shared_secret" =
    Ret (if eq_str (if is_not_None v then v else t) "generate"
         then VStr (Config.new_token (Config.drawn s))
         else if is_not_None v then v else t).
Proof. apply Config.update_shared_secret. Qed.

(** A source without a secret, on a template that says ["generate"]. *)
Lemma update_generates_shared_secret_witness :
  let s := example_config (VMap ∅) in
  exists s',
    @Config.update sample_runtime s = (Ret tt, s') /\
    DictWithRecursion.getitem_ (Config._data s') "appservice.provisioning.shared_secret"
      = Ret (VStr "token0").
Proof.
  intros s. exists (snd (@Config.update sample_runtime s)).
  assert (Hrun : @Config.update sample_runtime s
                 = (Ret tt, snd (@Config.update sample_runtime s)))
    by (vm_compute; reflexivity).
  split; [exact Hrun|].
  rewrite (@update_generates_shared_secret sample_runtime s _ "" sample_template
             VNone (VStr "generate"));
    [vm_compute; reflexivity|..|exact Hrun]; vm_compute; reflexivity.
Defined.

(** X10.  The logging configuration after a completed [update]: the one
    of the source when it has one; else, when the source has the legacy
    switch [appservice.debug], the three levels are ["DEBUG"] when the
    switch is true and ["INFO"] when it is not; else the configuration of
    the template. *)
Theorem update_sets_logging_levels `{Config.Runtime} s s' text template d l :
  Config.files s !! Config.base_path s = Some text ->
  Config.yaml_load text = Ret template ->
  DictWithRecursion.getitem_ (Config._data s) "appservice.debug" = Ret d ->
  DictWithRecursion.getitem_ (Config._data s) "logging" = Ret l ->
  Config.update s = (Ret tt, s') ->
  if is_not_None l then DictWithRecursion.getitem_ (Config._data s') "logging" = Ret l
  else if is_not_None d then
    DictWithRecursion.getitem_ (Config._data s') "logging.root.level" =
      Ret (VStr (if truthy d then "DEBUG" else "INFO")) /\
    DictWithRecursion.getitem_ (Config._data s') "logging.loggers.mau.level" =
      Ret (VStr (if truthy d then "DEBUG" else "INFO")) /\
    DictWithRecursion.getitem_ (Config._data s') "logging.loggers.telethon.level" =
      Ret (VStr (if truthy d then "DEBUG" else "INFO"))
  else DictWithRecursion.getitem_ (Config._data s') "logging" =
         DictWithRecursion.getitem_ (DictWithRecursion.init template) "logging".
Proof. apply Config.update_logging. Qed.

(** A source with the switch off. *)
Lemma update_sets_logging_levels_witness :
  let s := example_config (VMap {["appservice" := VMap {["debug" := VBool false]}]}) in
  exists s',
    @Config.update sample_runtime s = (Ret tt, s') /\
    DictWithRecursion.getitem_ (Config._data s') "logging.root.level" = Ret (VStr "INFO") /\
    DictWithRecursion.getitem_ (Config._data s') "logging.loggers.mau.level"
      = Ret (VStr "INFO") /\
    DictWithRecursion.getitem_ (Config._data s') "logging.loggers.telethon.level"
      = Ret (VStr "INFO").
Proof.
  intros s. exists (snd (@Config.update sample_runtime s)).
  assert (Hrun : @Config.update sample_runtime s
                 = (Ret tt, snd (@Config.update sample_runtime s)))
    by (vm_compute; reflexivity).
  split; [exact Hrun|].
  refine (@update_sets_logging_levels sample_runtime s _ "" sample_template
            (VBool false) VNone _ _ _ _ Hrun); vm_compute; reflexivity.
Defined.

(** X11.  A source without a relay bot section: after a completed
    [update] the legacy switch [bridge.authless_relaybot_portals], when the
    source has it, is the setting [bridge.relaybot.authless_portals];
    otherwise that setting is the template's. *)
Theorem update_moves_relaybot_switch `{Config.Runtime} s s' text template v :
  Config.files s !! Config.base_path s = Some text ->
  Config.yaml_load text = Ret template ->
  DictWithRecursion.getitem_ (Config._data s) "bridge.relaybot" = Ret VNone ->
  DictWithRecursion.getitem_ (Config._data s) "bridge.authless_relaybot_portals" = Ret v ->
  Config.update s = (Ret tt, s') ->
  DictWithRecursion.getitem_ (Config._data s') "bridge.relaybot.authless_portals" =
    if is_not_None v then Ret v
    else DictWithRecursion.getitem_ (DictWithRecursion.init template)
           "bridge.relaybot.authless_portals".
Proof. apply Config.update_relaybot_legacy. Qed.

(** A source with the legacy switch off, on a template with the setting
    on. *)
Lemma update_moves_relaybot_switch_witness :
  let s := example_config
             (VMap {["bridge" := VMap {["authless_relaybot_portals" := VBool false]}]}) in
  exists s',
    @Config.update sample_runtime s = (Ret tt, s') /\
    DictWithRecursion.getitem_ (Config._data s') "bridge.relaybot.authless_portals"
      = Ret (VBool false).
Proof.
  intros s. exists (snd (@Config.update sample_runtime s)).
  assert (Hrun : @Config.update sample_runtime s
                 = (Ret tt, snd (@Config.update sample_runtime s)))
    by (vm_compute; reflexivity).
  split; [exact Hrun|].
  rewrite (@update_moves_relaybot_switch sample_runtime s _ "" sample_template
             (VBool false));
    [vm_compute; reflexivity|..|exact Hrun]; vm_compute; reflexivity.
Defined.

(** X12.  A source with a relay bot section: after a completed [update]
    each of the four settings of the section holds the value of the source
    when it has one, the value of the template otherwise; the legacy
    switch is not looked at. *)
Theorem update_carries_relaybot_section `{Config.Runtime} k s s' text template r v :
  k ∈ Config.relaybot_settings ->
  Config.files s !! Config.base_path s = Some text ->
  Config.yaml_load text = Ret template ->
  DictWithRecursion.getitem_ (Config._data s) "bridge.relaybot" = Ret r ->
  r <> VNone ->
  DictWithRecursion.getitem_ (Config._data s) k = Ret v ->
  Config.update s = (Ret tt, s') ->
  DictWithRecursion.getitem_ (Config._data s') k =
    if is_not_None v then Ret v
    else DictWithRecursion.getitem_ (DictWithRecursion.init template) k.
Proof. apply Config.update_relaybot_setting. Qed.

(** A source with a section that has no [authless_portals], and with the
    legacy switch off: the setting is the template's. *)
Lemma update_carries_relaybot_section_witness :
  let s := example_config
             (VMap {["bridge" :=
                       VMap {["authless_relaybot_portals" := VBool false;
                              "relaybot" := VMap {["whitelist" := VList [VStr "@a:x"]]}]}]}) in
  exists s',
    @Config.update sample_runtime s = (Ret tt, s') /\
    DictWithRecursion.getitem_ (Config._data s') "bridge.relaybot.authless_portals"
      = Ret (VBool true).
Proof.
  intros s. exists (snd (@Config.update sample_runtime s)).
  assert (Hrun : @Config.update sample_runtime s
                 = (Ret tt, snd (@Config.update sample_runtime s)))
    by (vm_compute; reflexivity).
  split; [exact Hrun|].
  rewrite (@update_carries_relaybot_section sample_runtime
             "bridge.relaybot.authless_portals" s _ "" sample_template
             (VMap {["whitelist" := VList [VStr "@a:x"]]}) VNone);
    [vm_compute; reflexivity| | | | | | |exact Hrun].
  - apply (list_elem_of_lookup_2 _ 0). reflexivity.
  - vm_compute. reflexivity.
  - reflexivity.
  - vm_compute. reflexivity.
  - discriminate.
  - vm_compute. reflexivity.
Defined.

(** X13.  A source whose message formats hold the legacy key ["m_text"].
    The steps of [update] before the message formats leave the source
    document as it is; the step of the message formats, the 39th, deletes
    ["bridge.message_formats"] from the source document, which then reads
    [None] there, and copies nothing.  After a completed [update] the
    message formats are the template's. *)
Theorem update_drops_legacy_message_formats `{Config.Runtime} s s' text template v :
  Config.files s !! Config.base_path s = Some text ->
  Config.yaml_load text = Ret template ->
  DictWithRecursion.getitem_ (Config._data s) "bridge.message_formats.m_text" = Ret v ->
  v <> VNone ->
  Config.update s = (Ret tt, s') ->
  Config.all_steps !! 38 = Some Config.step_message_formats /\
  (exists b1 s1 d',
     Config.run_steps (take 38 Config.all_steps) (DictWithRecursion.init template) s
       = (Ret b1, s1) /\
     Config._data s1 = Config._data s /\
     DictWithRecursion.delitem_ (Config._data s) "bridge.message_formats" = Ret d' /\
     DictWithRecursion.getitem_ d' "bridge.message_formats" = Ret VNone /\
     Config.step_message_formats b1 s1 = (Ret b1, Config.with_data d' s1)) /\
  DictWithRecursion.getitem_ (Config._data s') "bridge.message_formats" =
    DictWithRecursion.getitem_ (DictWithRecursion.init template) "bridge.message_formats".
Proof.
  intros Hfile Hyaml Hv Hne Hrun. split; [reflexivity|]. split.
  - eapply Config.update_message_formats_legacy_source; eassumption.
  - eapply Config.update_message_formats_legacy; eassumption.
Qed.

(** A source with the legacy key and one more format: both are deleted
    from the source, and the formats of the template stay. *)
Lemma update_drops_legacy_message_formats_witness :
  let s := example_config
             (VMap {["bridge" :=
                       VMap {["message_formats" :=
                                VMap {["m_text" := VStr "$sender: $message";
                                       "m.notice" := VStr "$message"]}]}]}) in
  exists s' d',
    @Config.update sample_runtime s = (Ret tt, s') /\
    DictWithRecursion.delitem_ (Config._data s) "bridge.message_formats" = Ret d' /\
    DictWithRecursion.getitem_ d' "bridge.message_formats" = Ret VNone /\
    DictWithRecursion.getitem_ (Config._data s') "bridge.message_formats"
      = Ret (VMap {["m.text" := VStr "<b>$sender</b>: $message";
                    "m.emote" := VStr "* $sender $message"]}).
Proof.
  intros s. exists (snd (@Config.update sample_runtime s)).
  assert (Hrun : @Config.update sample_runtime s
                 = (Ret tt, snd (@Config.update sample_runtime s)))
    by (vm_compute; reflexivity).
  destruct (@update_drops_legacy_message_formats sample_runtime s
              (snd (@Config.update sample_runtime s)) "" sample_template
              (VStr "$sender: $message"))
    as (_ & (b1 & s1 & d' & _ & _ & Hdel & Hnone & _) & Hfinal);
    [vm_compute; reflexivity|reflexivity|vm_compute; reflexivity|discriminate|exact Hrun|].
  exists d'. split; [exact Hrun|]. split; [exact Hdel|]. split; [exact Hnone|].
  rewrite Hfinal. vm_compute. reflexivity.
Defined.

(** X14.  A source whose message formats are a mapping without the
    legacy key: after a completed [update] the message formats are the
    entries of the source written over those of the template; a format of
    the template that the source does not have stays. *)
Theorem update_merges_message_formats `{Config.Runtime} s s' text template ms t mt :
  Config.files s !! Config.base_path s = Some text ->
  Config.yaml_load text = Ret template ->
  DictWithRecursion.getitem_ (Config._data s) "bridge.message_formats" = Ret (VMap ms) ->
  DictWithRecursion.getitem_ (Config._data s) "bridge.message_formats.m_text" = Ret VNone ->
  DictWithRecursion.getitem_ (DictWithRecursion.init template) "bridge.message_formats"
    = Ret t ->
  (t = VNone /\ mt = ∅) \/ t = VMap mt ->
  Config.update s = (Ret tt, s') ->
  DictWithRecursion.getitem_ (Config._data s') "bridge.message_formats"
    = Ret (VMap (ms ∪ mt)) /\
  (forall k v, ms !! k = Some v -> (ms ∪ mt) !! k = Some v) /\
  (forall k, ms !! k = None -> (ms ∪ mt) !! k = mt !! k).
Proof.
  intros Hfile Hyaml Hms Hflat Ht Hmt Hrun. split; [|split].
  - eapply Config.update_message_formats_merged; eassumption.
  - intros k v Hk. by apply lookup_union_Some_l.
  - intros k Hk. by apply lookup_union_r.
Qed.

(** A source with its own text format: the emote format of the template
    stays. *)
Lemma update_merges_message_formats_witness :
  let s := example_config
             (VMap {["bridge" :=
                       VMap {["message_formats" :=
                                VMap {["m.text" := VStr "$sender: $message"]}]}]}) in
  exists s' merged,
    @Config.update sample_runtime s = (Ret tt, s') /\
    DictWithRecursion.getitem_ (Config._data s') "bridge.message_formats"
      = Ret (VMap merged) /\
    merged !! "m.text" = Some (VStr "$sender: $message") /\
    merged !! "m.emote" = Some (VStr "* $sender $message").
Proof.
  intros s. exists (snd (@Config.update sample_runtime s)).
  assert (Hrun : @Config.update sample_runtime s
                 = (Ret tt, snd (@Config.update sample_runtime s)))
    by (vm_compute; reflexivity).
  destruct (@update_merges_message_formats sample_runtime s
              (snd (@Config.update sample_runtime s)) "" sample_template
              {["m.text" := VStr "$sender: $message"]}
              (VMap {["m.text" := VStr "<b>$sender</b>: $message";
                      "m.emote" := VStr "* $sender $message"]})
              {["m.text" := VStr "<b>$sender</b>: $message";
                "m.emote" := VStr "* $sender $message"]})
    as (Hmerged & Hsource & Htemplate); [| | | | | |exact Hrun|].
  - vm_compute. reflexivity.
  - reflexivity.
  - vm_compute. reflexivity.
  - vm_compute. reflexivity.
  - vm_compute. reflexivity.
  - right. reflexivity.
  - eexists. split; [exact Hrun|]. split; [exact Hmerged|]. split.
    + apply Hsource. vm_compute. reflexivity.
    + rewrite Htemplate; vm_compute; reflexivity.
Defined.

(** X15.  A source that has a permission map and neither legacy list:
    after a completed [update] the permission map is the map of the source,
    entry for entry, and nothing of the template's map. *)
Theorem update_copies_permissions_verbatim `{Config.Runtime} s s' text template mp :
  Config.files s !! Config.base_path s = Some text ->
  Config.yaml_load text = Ret template ->
  DictWithRecursion.getitem_ (Config._data s) "bridge.permissions" = Ret (VMap mp) ->
  DictWithRecursion.getitem_ (Config._data s) "bridge.whitelist" = Ret VNone ->
  DictWithRecursion.getitem_ (Config._data s) "bridge.admins" = Ret VNone ->
  Config.update s = (Ret tt, s') ->
  DictWithRecursion.getitem_ (Config._data s') "bridge.permissions" = Ret (VMap mp).
Proof. apply Config.update_permissions_verbatim. Qed.

(** A source with one administrator, on a template that lets everyone
    use the relay bot: the entry of the template is gone. *)
Lemma update_copies_permissions_verbatim_witness :
  let s := example_config
             (VMap {["bridge" := VMap {["permissions" :=
                                          VMap {["@a:x" := VStr "admin"]}]}]}) in
  exists s',
    @Config.update sample_runtime s = (Ret tt, s') /\
    DictWithRecursion.getitem_ (Config._data s') "bridge.permissions"
      = Ret (VMap {["@a:x" := VStr "admin"]}).
Proof.
  intros s. exists (snd (@Config.update sample_runtime s)).
  assert (Hrun : @Config.update sample_runtime s
                 = (Ret tt, snd (@Config.update sample_runtime s)))
    by (vm_compute; reflexivity).
  split; [exact Hrun|].
  refine (@update_copies_permissions_verbatim sample_runtime s _ "" sample_template
            {["@a:x" := VStr "admin"]} _ _ _ _ _ Hrun).
  - vm_compute. reflexivity.
  - reflexivity.
  - vm_compute. reflexivity.
  - vm_compute. reflexivity.
  - vm_compute. reflexivity.
Defined.

(** X16.  A completed [update] writes the new document to the
    configuration file, then the registration to the registration file
    when there is a registration and a path for it, and leaves every other
    file as it was. *)
Theorem update_writes_the_configuration `{Config.Runtime} s s' text template :
  Config.files s !! Config.base_path s = Some text ->
  Config.yaml_load text = Ret template ->
  Config.update s = (Ret tt, s') ->
  Config.files s' =
    (let written :=
       <[Config.path s := Config.yaml_dump (Config._data s')]> (Config.files s) in
     if truthy (Config._registration s) && negb (String.eqb (Config.registration_path s) "")
     then <[Config.registration_path s := Config.yaml_dump (Config._registration s)]> written
     else written) /\
  (forall p, p <> Config.path s -> p <> Config.registration_path s ->
     Config.files s' !! p = Config.files s !! p).
Proof.
  intros Hfile Hyaml Hrun.
  destruct (Config.update_files _ _ _ _ Hfile Hyaml Hrun) as (_ & _ & _ & Hfiles).
  split; [exact Hfiles|]. intros p Hp Hrp. rewrite Hfiles. cbv zeta.
  destruct (truthy (Config._registration s) &&
            negb (String.eqb (Config.registration_path s) "")).
  - by rewrite !lookup_insert_ne.
  - by rewrite lookup_insert_ne.
Qed.

(** An update without a registration: the configuration file is written
    and the template is as it was. *)
Lemma update_writes_the_configuration_witness :
  let s := example_config (VMap ∅) in
  exists s',
    @Config.update sample_runtime s = (Ret tt, s') /\
    Config.files s' !! "config.yaml" = Some "dumped" /\
    Config.files s' !! "example-config.yaml" = Some "".
Proof.
  intros s. exists (snd (@Config.update sample_runtime s)).
  assert (Hrun : @Config.update sample_runtime s
                 = (Ret tt, snd (@Config.update sample_runtime s)))
    by (vm_compute; reflexivity).
  destruct (@update_writes_the_configuration sample_runtime s
              (snd (@Config.update sample_runtime s)) "" sample_template)
    as [Hfiles Hother]; [vm_compute; reflexivity|reflexivity|exact Hrun|].
  split; [exact Hrun|]. split.
  - rewrite Hfiles. vm_compute. reflexivity.
  - rewrite Hother; [vm_compute; reflexivity|discriminate|discriminate].
Defined.

(** X17.  An [update] that raises anything but [OSError] has written no
    file: only the writing at the end touches the files, and it fails with
    [OSError] alone. *)
Theorem failed_update_writes_nothing `{Config.Runtime} s e s' :
  Config.update s = (Raise e, s') -> e <> OSError -> Config.files s' = Config.files s.
Proof. apply Config.update_failure_files. Qed.

(** A source whose whitelist is a number: the migration of the
    permissions raises [TypeError]. *)
Lemma failed_update_writes_nothing_witness :
  let s := example_config (VMap {["bridge" := VMap {["whitelist" := VInt 5]}]}) in
  exists s',
    @Config.update sample_runtime s = (Raise TypeError, s') /\
    Config.files s' = Config.files s.
Proof.
  intros s. exists (snd (@Config.update sample_runtime s)).
  assert (Hrun : @Config.update sample_runtime s
                 = (Raise TypeError, snd (@Config.update sample_runtime s)))
    by (vm_compute; reflexivity).
  split; [exact Hrun|].
  apply (@failed_update_writes_nothing sample_runtime s TypeError _ Hrun). discriminate.
Defined.

(** X18.  [load] after [save] gives the document back and changes
    nothing, when the text [yaml] dumps for the document loads as the
    document, and the registration, if it is written, goes to another
    path than the configuration. *)
Theorem load_after_save `{Config.Runtime} s s1 :
  Config.save s = (Ret tt, s1) ->
  Config.yaml_load (Config.yaml_dump (Config._data s)) = Ret (Config._data s) ->
  (truthy (Config._registration s) && negb (String.eqb (Config.registration_path s) "")
   = true -> Config.registration_path s <> Config.path s) ->
  Config.load s1 = (Ret tt, s1) /\ Config._data s1 = Config._data s.
Proof.
  intros Hsave Hyaml Hpaths. split.
  - eapply Config.save_load; eassumption.
  - eapply Config.save_data, Hsave.
Qed.

(** The template, saved and loaded. *)
Lemma load_after_save_witness :
  let s := example_config sample_template in
  exists s1,
    @Config.save sample_runtime s = (Ret tt, s1) /\
    @Config.load sample_runtime s1 = (Ret tt, s1).
Proof.
  intros s. exists (snd (@Config.save sample_runtime s)).
  assert (Hsave : @Config.save sample_runtime s
                  = (Ret tt, snd (@Config.save sample_runtime s)))
    by (vm_compute; reflexivity).
  split; [exact Hsave|].
  apply (@load_after_save sample_runtime s _ Hsave); [reflexivity|discriminate].
Defined.

(** ** The registration *)

(** The first [{name}] of a template replaced by [arg]. *)
Fixpoint replace_field (field arg template : string) : string :=
  if String.prefix field template
  then arg +:+ slice_from (String.length field) template
  else match template with
       | EmptyString => EmptyString
       | String c rest => String c (replace_field field arg rest)
       end.

(** A formatter for the examples. *)
Definition sample_formatter : Config.Formatter :=
  {| Config.str_format := fun template name arg =>
       Ret (replace_field ("{" +:+ name +:+ "}") arg template) |}.

(** X19.  A completed [generate_registration] has drawn two tokens: the
    first is the [as_token] and the second the [hs_token], and the document
    and the registration hold the same two; no file is touched. *)
Theorem generate_registration_draws_two_tokens `{Config.Runtime} `{Config.Formatter} s s' :
  Config.generate_registration s = (Ret tt, s') ->
  Config.drawn s' = S (S (Config.drawn s)) /\
  DictWithRecursion.getitem_ (Config._data s') "appservice.as_token"
    = Ret (VStr (Config.new_token (Config.drawn s))) /\
  DictWithRecursion.getitem_ (Config._data s') "appservice.hs_token"
    = Ret (VStr (Config.new_token (S (Config.drawn s)))) /\
  (exists reg, Config._registration s' = VMap reg /\
     reg !! "as_token" = Some (VStr (Config.new_token (Config.drawn s))) /\
     reg !! "hs_token" = Some (VStr (Config.new_token (S (Config.drawn s))))) /\
  Config.files s' = Config.files s.
Proof.
  intros Hrun.
  destruct (Config.generate_registration_run _ _ Hrun)
    as (Hdrawn & Has & Hhs & Hreg & Hfiles & _).
  done.
Qed.

(** A document that holds the domain of the homeserver. *)
Lemma generate_registration_draws_two_tokens_witness :
  let s := example_config (VMap {["homeserver" := VMap {["domain" := VStr "example.org"]}]}) in
  exists s',
    @Config.generate_registration sample_runtime sample_formatter s = (Ret tt, s') /\
    DictWithRecursion.getitem_ (Config._data s') "appservice.as_token"
      = Ret (VStr "token0") /\
    DictWithRecursion.getitem_ (Config._data s') "appservice.hs_token"
      = Ret (VStr "token1") /\
    DictWithRecursion.getitem_ (Config._registration s') "namespaces.users"
      = Ret (Config.namespace "@telegram_.+:example.org").
Proof.
  intros s. exists (snd (@Config.generate_registration sample_runtime sample_formatter s)).
  assert (Hrun : @Config.generate_registration sample_runtime sample_formatter s
                 = (Ret tt, snd (@Config.generate_registration sample_runtime
                                   sample_formatter s)))
    by (vm_compute; reflexivity).
  destruct (@generate_registration_draws_two_tokens sample_runtime sample_formatter s _ Hrun)
    as (_ & Has & Hhs & _).
  split; [exact Hrun|]. split; [exact Has|]. split; [exact Hhs|].
  vm_compute. reflexivity.
Defined.

(** X20.  [generate_registration] and then [save]: the configuration
    file holds the document with the new tokens, and the registration file
    holds the registration, unless the registration path is empty: then
    the registration is not written. *)
Theorem generate_registration_then_save `{Config.Runtime} `{Config.Formatter} s s1 s2 :
  Config.generate_registration s = (Ret tt, s1) ->
  Config.save s1 = (Ret tt, s2) ->
  Config.files s2 =
    (let written :=
       <[Config.path s := Config.yaml_dump (Config._data s1)]> (Config.files s) in
     if String.eqb (Config.registration_path s) "" then written
     else <[Config.registration_path s := Config.yaml_dump (Config._registration s1)]>
            written).
Proof. apply Config.generate_registration_save. Qed.

(** The two files of the example. *)
Lemma generate_registration_then_save_witness :
  let s := example_config (VMap {["homeserver" := VMap {["domain" := VStr "example.org"]}]}) in
  exists s1 s2,
    @Config.generate_registration sample_runtime sample_formatter s = (Ret tt, s1) /\
    @Config.save sample_runtime s1 = (Ret tt, s2) /\
    Config.files s2 !! "registration.yaml" = Some "dumped" /\
    Config.files s2 !! "config.yaml" = Some "dumped".
Proof.
  intros s.
  exists (snd (@Config.generate_registration sample_runtime sample_formatter s)).
  exists (snd (@Config.save sample_runtime
                 (snd (@Config.generate_registration sample_runtime sample_formatter s)))).
  assert (Hrun : @Config.generate_registration sample_runtime sample_formatter s
                 = (Ret tt, snd (@Config.generate_registration sample_runtime
                                   sample_formatter s)))
    by (vm_compute; reflexivity).
  assert (Hsave : @Config.save sample_runtime
                    (snd (@Config.generate_registration sample_runtime sample_formatter s))
                  = (Ret tt,
                     snd (@Config.save sample_runtime
                            (snd (@Config.generate_registration sample_runtime
                                    sample_formatter s)))))
    by (vm_compute; reflexivity).
  split; [exact Hrun|]. split; [exact Hsave|].
  rewrite (@generate_registration_then_save sample_runtime sample_formatter s _ _ Hrun Hsave).
  split; vm_compute; reflexivity.
Defined.

(** ** The room actions of a handle *)

(** X21.  [invite], once the handle is in the room.  An answered invite
    is written to the state store and its response returned.  A refusal
    with the code ["M_FORBIDDEN"] is swallowed: the call returns [None]
    and writes nothing.  Any other failure is raised as an [IntentError]
    that wraps it, and nothing is written. *)
Theorem invite_outcomes {T} `{Intent.Homeserver T} (s : Intent.state T)
    room_id user_id s1 :
  Intent._ensure_joined room_id false s = (Ret tt, s1) ->
  (forall response t,
     Intent.respond (Intent.remote s1) Intent.Client (Intent.InviteUser room_id user_id)
       = (Intent.Ok response, t) ->
     Intent.invite room_id user_id s =
       (Ret response,
        Intent.stored (Intent.Invited room_id user_id)
          (Intent.sent Intent.Client (Intent.InviteUser room_id user_id) t s1))) /\
  (forall content t,
     Intent.respond (Intent.remote s1) Intent.Client (Intent.InviteUser room_id user_id)
       = (Intent.Failed content, t) ->
     Intent.invite room_id user_id s =
       (if eq_str (Intent.matrix_error_code content) "M_FORBIDDEN" then Ret VNone
        else Raise (IntentError ("Failed to invite " +:+ user_id +:+ " to " +:+ room_id)
                      (MatrixRequestError content)),
        Intent.sent Intent.Client (Intent.InviteUser room_id user_id) t s1) /\
     Intent.state_store
       (Intent.sent Intent.Client (Intent.InviteUser room_id user_id) t s1)
       = Intent.state_store s1).
Proof.
  intros Hjoin. split.
  - intros response t Hanswer. rewrite (Intent.invite_run _ _ _ _ Hjoin), Hanswer.
    reflexivity.
  - intros content t Hanswer. rewrite (Intent.invite_run _ _ _ _ Hjoin), Hanswer.
    split; reflexivity.
Qed.

(** A handle with a bot; the registration and the join are answered, the
    invite is refused. *)
Lemma invite_outcomes_witness :
  let s := example_intent true
             [Intent.Ok VNone; Intent.Ok VNone; Intent.Failed "M_FORBIDDEN"] in
  exists s',
    @Intent.invite _ scripted "!room:example.org" "@alice:example.org" s = (Ret VNone, s') /\
    Intent.members (Intent.state_store s') !! ("!room:example.org", "@alice:example.org")
      = None.
Proof.
  intros s.
  pose (s1 := snd (@Intent._ensure_joined _ scripted "!room:example.org" false s)).
  assert (Hjoin : @Intent._ensure_joined _ scripted "!room:example.org" false s
                  = (Ret tt, s1)) by (vm_compute; reflexivity).
  destruct (@invite_outcomes _ scripted s "!room:example.org" "@alice:example.org" s1 Hjoin)
    as [_ Hrefused].
  destruct (Hrefused "M_FORBIDDEN" []) as [Hrun Hstore]; [vm_compute; reflexivity|].
  eexists. split; [exact Hrun|]. rewrite Hstore. vm_compute. reflexivity.
Defined.

(** X22.  [join_room] does not look at the state store: whatever it
    says, the first request after the registration is the join. *)
Theorem join_room_ignores_the_cache {T} `{Intent.Homeserver T} (s : Intent.state T) room_id :
  exists rest,
    Intent.trace (snd (Intent.join_room room_id s)) =
      (Intent.trace (Intent.after_registration s) ++
       Intent.Sent Intent.Client (Intent.JoinRoom room_id) :: rest)%list.
Proof.
  destruct (Intent.join_room room_id s) as [r s'] eqn:Hrun. unfold Intent.join_room in Hrun.
  eapply Intent._ensure_joined_sends; [by left|exact Hrun].
Qed.

(** X23.  A join that raises has written nothing to the state store: the
    room is marked as joined only after a join request was answered. *)
Theorem failed_join_marks_nothing {T} `{Intent.Homeserver T} (s : Intent.state T)
    room_id ignore_cache e s' :
  Intent._ensure_joined room_id ignore_cache s = (Raise e, s') ->
  Intent.state_store s' = Intent.state_store s.
Proof. apply Intent._ensure_joined_Raise. Qed.

(** A handle without a bot whose join is refused for another reason than
    ["M_FORBIDDEN"]. *)
Lemma failed_join_marks_nothing_witness :
  let s := example_intent false [Intent.Ok VNone; Intent.Failed "M_UNKNOWN"] in
  exists e s',
    @Intent._ensure_joined _ scripted "!room:example.org" false s = (Raise e, s') /\
    Intent.state_store s' = Intent.state_store s.
Proof.
  intros s.
  exists (IntentError "Failed to join room !room:example.org as @telegram_1:example.org"
            (MatrixRequestError "M_UNKNOWN")).
  exists (snd (@Intent._ensure_joined _ scripted "!room:example.org" false s)).
  assert (Hrun : @Intent._ensure_joined _ scripted "!room:example.org" false s
                 = (Raise (IntentError
                             "Failed to join room !room:example.org as @telegram_1:example.org"
                             (MatrixRequestError "M_UNKNOWN")),
                    snd (@Intent._ensure_joined _ scripted "!room:example.org" false s)))
    by (vm_compute; reflexivity).
  split; [exact Hrun|].
  exact (@failed_join_marks_nothing _ scripted s _ _ _ _ Hrun).
Defined.

(** A homeserver like [scripted] on which no power level allows
    anything. *)
Definition strict : Intent.Homeserver (list Intent.answer) :=
  {| Intent.respond := fun script _ _ =>
       match script with
       | [] => (Intent.Ok VNone, [])
       | ans :: script' => (ans, script')
       end;
     Intent.json_errcode := fun _ => None;
     Intent.magic_from_buffer := fun _ => VStr "application/octet-stream";
     Intent.level_allows := fun _ _ _ => false |}.

(** A registered handle that the state store has in the room, with the
    power levels of the room. *)
Definition example_member (script : list Intent.answer)
  : Intent.state (list Intent.answer) :=
  {| Intent.self :=
       {| Intent.mxid := "@telegram_1:example.org"; Intent.localpart := "telegram_1";
          Intent.bot := true; Intent.domain := "example.org";
          Intent.identity := "@telegram_1:example.org"; Intent.registered := true |};
     Intent.state_store :=
       {| Intent.members :=
            {[("!room:example.org", "@telegram_1:example.org") :=
                {| Intent.is_member := true; Intent.is_invited := false |}]};
          Intent.power_levels := {["!room:example.org" := VMap {["users_default" := VInt 0]}]} |};
     Intent.remote := script;
     Intent.trace := [] |}.

(** X24.  The power levels are looked at and not enforced.  For a handle
    that the state store has in the room, with the power levels of the
    room at hand, the check returns without a request whatever the levels
    allow, and [send_event] is the one request that sends the event. *)
Theorem power_levels_are_not_enforced {T} `{Intent.Homeserver T} (s : Intent.state T)
    room_id type body txn_id :
  Intent.is_joined (Intent.state_store s) room_id (Intent.mxid (Intent.self s)) = true ->
  Intent.has_power_level_data (Intent.state_store s) room_id = true ->
  Intent._ensure_has_power_level_for room_id type s = (Ret tt, s) /\
  Intent.send_event room_id type body txn_id s =
    Intent.request Intent.Client (Intent.SendMessageEvent room_id type body txn_id) s.
Proof.
  intros Hjoined Hknown. split.
  - by apply Intent._ensure_has_power_level_for_known.
  - by apply Intent.send_event_run.
Qed.

(** On a homeserver whose power levels allow nothing, the event is sent
    all the same. *)
Lemma power_levels_are_not_enforced_witness :
  @Intent.send_event _ strict "!room:example.org" "m.room.message" (VStr "hello") VNone
    (example_member [Intent.Ok (VStr "$event")])
  = (Ret (VStr "$event"),
     Intent.sent Intent.Client
       (Intent.SendMessageEvent "!room:example.org" "m.room.message" (VStr "hello") VNone)
       [] (example_member [Intent.Ok (VStr "$event")])).
Proof.
  destruct (@power_levels_are_not_enforced _ strict
              (example_member [Intent.Ok (VStr "$event")])
              "!room:example.org" "m.room.message" (VStr "hello") VNone)
    as [_ Hsend]; [vm_compute; reflexivity|vm_compute; reflexivity|].
  rewrite Hsend. reflexivity.
Defined.

(** X25.  [get_power_levels] that returns has put the levels it got in
    the state store, and from then on the check of the power levels asks
    the homeserver nothing. *)
Theorem get_power_levels_fills_the_store {T} `{Intent.Homeserver T} (s : Intent.state T)
    room_id levels s' :
  Intent.get_power_levels room_id s = (Ret levels, s') ->
  Intent.power_levels (Intent.state_store s') !! room_id = Some levels /\
  (forall event_type,
     Intent._ensure_has_power_level_for room_id event_type s' = (Ret tt, s')).
Proof.
  intros Hrun. destruct (Intent.get_power_levels_Ret _ _ _ _ Hrun) as [Hlevels _].
  split; [exact Hlevels|]. intros event_type.
  apply Intent._ensure_has_power_level_for_known.
  unfold Intent.has_power_level_data. rewrite Hlevels. by apply bool_decide_eq_true_2.
Qed.

(** A fresh handle: registration, join, and the levels. *)
Lemma get_power_levels_fills_the_store_witness :
  let s := example_intent true
             [Intent.Ok VNone; Intent.Ok VNone;
              Intent.Ok (VMap {["users_default" := VInt 0]})] in
  exists s',
    @Intent.get_power_levels _ scripted "!room:example.org" s
      = (Ret (VMap {["users_default" := VInt 0]}), s') /\
    Intent.power_levels (Intent.state_store s') !! "!room:example.org"
      = Some (VMap {["users_default" := VInt 0]}).
Proof.
  intros s. exists (snd (@Intent.get_power_levels _ scripted "!room:example.org" s)).
  assert (Hrun : @Intent.get_power_levels _ scripted "!room:example.org" s
                 = (Ret (VMap {["users_default" := VInt 0]}),
                    snd (@Intent.get_power_levels _ scripted "!room:example.org" s)))
    by (vm_compute; reflexivity).
  split; [exact Hrun|].
  exact (proj1 (@get_power_levels_fills_the_store _ scripted s _ _ _ Hrun)).
Defined.

(** X26.  [set_power_levels] writes the levels to the state store only
    after the homeserver took them: when it returns, the state store holds
    the content for the room, written after the state event was sent; when
    it raises, for a handle in the room with the levels at hand, the state
    store is as it was. *)
Theorem set_power_levels_records_after_sending {T} `{Intent.Homeserver T}
    (s : Intent.state T) room_id content :
  (forall response s',
     Intent.set_power_levels room_id content s = (Ret response, s') ->
     Intent.power_levels (Intent.state_store s') !! room_id = Some content /\
     exists tr,
       Intent.trace s' =
         (tr ++ [Intent.Sent Intent.Client
                   (Intent.SendStateEvent room_id "m.room.power_levels" content "");
                 Intent.Stored (Intent.SetPowerLevels room_id content)])%list) /\
  (forall e s',
     Intent.is_joined (Intent.state_store s) room_id (Intent.mxid (Intent.self s)) = true ->
     Intent.has_power_level_data (Intent.state_store s) room_id = true ->
     Intent.set_power_levels room_id content s = (Raise e, s') ->
     Intent.state_store s' = Intent.state_store s).
Proof.
  split.
  - intros response s'. apply Intent.set_power_levels_Ret.
  - intros e s'. apply Intent.set_power_levels_Raise.
Qed.

(** The homeserver refuses the state event: the levels of the state
    store stay. *)
Lemma set_power_levels_records_after_sending_witness :
  let s := example_member [Intent.Failed "M_FORBIDDEN"] in
  exists s',
    @Intent.set_power_levels _ scripted "!room:example.org"
      (VMap {["users_default" := VInt 50]}) s
      = (Raise (MatrixRequestError "M_FORBIDDEN"), s') /\
    Intent.power_levels (Intent.state_store s') !! "!room:example.org"
      = Some (VMap {["users_default" := VInt 0]}).
Proof.
  intros s.
  exists (snd (@Intent.set_power_levels _ scripted "!room:example.org"
                 (VMap {["users_default" := VInt 50]}) s)).
  assert (Hrun : @Intent.set_power_levels _ scripted "!room:example.org"
                   (VMap {["users_default" := VInt 50]}) s
                 = (Raise (MatrixRequestError "M_FORBIDDEN"),
                    snd (@Intent.set_power_levels _ scripted "!room:example.org"
                           (VMap {["users_default" := VInt 50]}) s)))
    by (vm_compute; reflexivity).
  split; [exact Hrun|].
  destruct (@set_power_levels_records_after_sending _ scripted s "!room:example.org"
              (VMap {["users_default" := VInt 50]})) as [_ Hraise].
  rewrite (Hraise _ _ ltac:(vm_compute; reflexivity) ltac:(vm_compute; reflexivity) Hrun).
  vm_compute. reflexivity.
Defined.

(** X27.  [get_room_members] sends one request, whatever the state store
    and the flag of the handle say.  When the answer holds a chunk of
    membership events, each with a state key and a membership kind in its
    content, the call returns the state keys of the events whose kind is
    among the allowed ones, in the order of the chunk. *)
Theorem get_room_members_picks_allowed_kinds {T} `{Intent.Homeserver T}
    (s : Intent.state T) room_id allowed_memberships m chunk l t :
  Intent.respond (Intent.remote s) Intent.Client (Intent.GetRoomMembers room_id)
    = (Intent.Ok (VMap m), t) ->
  m !! "chunk" = Some (VList chunk) ->
  Forall2 (fun mem (kk : value * string) => Intent.membership_event mem kk.1 kk.2) chunk l ->
  Intent.get_room_members room_id allowed_memberships s =
    (Ret (VList (Intent.picked allowed_memberships l)),
     Intent.sent Intent.Client (Intent.GetRoomMembers room_id) t s) /\
  (forall key, key ∈ Intent.picked allowed_memberships l <->
     exists kind, (key, kind) ∈ l /\ kind ∈ allowed_memberships).
Proof.
  intros Hanswer Hchunk Hevents. split.
  - eapply Intent.get_room_members_run; eassumption.
  - intros key. unfold Intent.picked. rewrite list_elem_of_fmap. split.
    + intros ([key' kind] & -> & Hin). apply list_elem_of_In, filter_In in Hin as [Hin Hkind].
      exists kind. split; [by apply list_elem_of_In|].
      apply existsb_exists in Hkind as (a & Ha & Heq).
      apply String.eqb_eq in Heq. simpl in Heq. subst a. by apply list_elem_of_In.
    + intros (kind & Hin & Hkind). exists (key, kind). split; [done|].
      apply list_elem_of_In, filter_In. split; [by apply list_elem_of_In|].
      apply existsb_exists. exists kind. split; [by apply list_elem_of_In|].
      apply String.eqb_refl.
Qed.

(** A room with one member who joined and one who left. *)
Lemma get_room_members_picks_allowed_kinds_witness :
  let joined := VMap {["state_key" := VStr "@alice:example.org"; "type" := VStr "m.room.member";
                       "content" := VMap {["membership" := VStr "join"]}]} in
  let gone := VMap {["state_key" := VStr "@bob:example.org"; "type" := VStr "m.room.member";
                     "content" := VMap {["membership" := VStr "leave"]}]} in
  let s := example_intent true [Intent.Ok (VMap {["chunk" := VList [joined; gone]]})] in
  fst (@Intent.get_room_members _ scripted "!room:example.org" ["join"] s)
    = Ret (VList [VStr "@alice:example.org"]).
Proof.
  intros joined gone s.
  destruct (@get_room_members_picks_allowed_kinds _ scripted s "!room:example.org" ["join"]
              {["chunk" := VList [joined; gone]]} [joined; gone]
              [(VStr "@alice:example.org", "join"); (VStr "@bob:example.org", "leave")] [])
    as [Hrun _].
  - reflexivity.
  - vm_compute. reflexivity.
  - constructor; [|constructor; [|constructor]].
    + do 2 eexists. split; [reflexivity|]. repeat split; vm_compute; reflexivity.
    + do 2 eexists. split; [reflexivity|]. repeat split; vm_compute; reflexivity.
  - rewrite Hrun. reflexivity.
Defined.

(** X28.  [error_and_leave] that returns has left the room: the state
    store says "not joined" for the handle, and the call ended with the
    write of "left" and the leave request, in this order. *)
Theorem error_and_leave_leaves_the_room {T} `{Intent.Homeserver T} (s : Intent.state T)
    room_id text html v s' :
  Intent.error_and_leave room_id text html s = (Ret v, s') ->
  Intent.is_joined (Intent.state_store s') room_id (Intent.mxid (Intent.self s)) = false /\
  exists tr,
    Intent.trace s' =
      (tr ++ [Intent.Stored (Intent.Left room_id (Intent.mxid (Intent.self s)));
              Intent.Sent Intent.Client (Intent.LeaveRoom room_id)])%list.
Proof. apply Intent.error_and_leave_Ret. Qed.

(** A member says why and leaves. *)
Lemma error_and_leave_leaves_the_room_witness :
  let s := example_member [] in
  exists s',
    @Intent.error_and_leave _ scripted "!room:example.org" (VStr "Not allowed") VNone s
      = (Ret VNone, s') /\
    Intent.is_joined (Intent.state_store s') "!room:example.org" "@telegram_1:example.org"
      = false.
Proof.
  intros s.
  exists (snd (@Intent.error_and_leave _ scripted "!room:example.org"
                 (VStr "Not allowed") VNone s)).
  assert (Hrun : @Intent.error_and_leave _ scripted "!room:example.org"
                   (VStr "Not allowed") VNone s
                 = (Ret VNone,
                    snd (@Intent.error_and_leave _ scripted "!room:example.org"
                           (VStr "Not allowed") VNone s)))
    by (vm_compute; reflexivity).
  split; [exact Hrun|].
  exact (proj1 (@error_and_leave_leaves_the_room _ scripted s _ _ _ _ _ Hrun)).
Defined.

(** X29.  The user actions, [create_room] and the two alias actions
    begin with the registration: on a handle that is not registered, the
    first request is the registration of its localpart, whatever follows
    comes after it, and the handle is registered when the call ends,
    returned or raised. *)
Theorem user_actions_register_first {T} `{Intent.Homeserver T} op (s : Intent.state T) :
  Intent.registers_first op = true ->
  Intent.registered (Intent.self s) = false ->
  Intent.registered (Intent.self (snd (Intent.run op s))) = true /\
  exists rest,
    Intent.trace (snd (Intent.run op s)) =
      (Intent.trace s ++
       Intent.Sent Intent.Client
         (Intent.Register (VMap {["username" := VStr (Intent.localpart (Intent.self s))]}))
       :: rest)%list.
Proof.
  intros Hop Hfresh. destruct (Intent.run op s) as [r s'] eqn:Hrun.
  destruct (Intent.registers_first_run op s r s' Hop Hrun) as [Hreg [rest Hrest]].
  split; [exact Hreg|]. exists rest. simpl. rewrite Hrest.
  unfold Intent.after_registration. rewrite Hfresh. simpl.
  by rewrite <- app_assoc.
Qed.

(** A fresh handle sets its display name. *)
Lemma user_actions_register_first_witness :
  let s := example_intent true [] in
  Intent.registered
    (Intent.self (snd (@Intent.run _ scripted (Intent.OpSetDisplayName (VStr "Alice")) s)))
    = true /\
  exists rest,
    Intent.trace (snd (@Intent.run _ scripted (Intent.OpSetDisplayName (VStr "Alice")) s)) =
      (Intent.trace s ++
       Intent.Sent Intent.Client
         (Intent.Register (VMap {["username" := VStr (Intent.localpart (Intent.self s))]}))
       :: rest)%list.
Proof.
  intros s.
  apply (@user_actions_register_first _ scripted (Intent.OpSetDisplayName (VStr "Alice")) s);
    reflexivity.
Defined.

(** X30.  Once the state store says that a user is in a room, it says so
    after every operation of the handle but [leave_room] and
    [error_and_leave] on that very room. *)
Theorem joined_until_the_room_is_left {T} `{Intent.Homeserver T} op (s : Intent.state T)
    room_id user_id :
  Intent.op_leave_ok (fun r => r <> room_id) op ->
  Intent.is_joined (Intent.state_store s) room_id user_id = true ->
  Intent.is_joined (Intent.state_store (snd (Intent.run op s))) room_id user_id = true.
Proof.
  intros Hop Hjoined. destruct (Intent.run op s) as [r s'] eqn:Hrun.
  exact (Intent.steady_run (Intent.stays_joined room_id user_id) (fun r0 => r0 <> room_id)
           (Invariant0 := Intent.stays_joined_invariant room_id user_id)
           op Hop s r s' Hrun Hjoined).
Qed.

(** A member leaves another room. *)
Lemma joined_until_the_room_is_left_witness :
  let s := example_member [] in
  Intent.is_joined
    (Intent.state_store (snd (@Intent.run _ scripted (Intent.OpLeaveRoom "!other:example.org") s)))
    "!room:example.org" "@telegram_1:example.org" = true.
Proof.
  intros s.
  apply (@joined_until_the_room_is_left _ scripted (Intent.OpLeaveRoom "!other:example.org") s).
  - simpl. discriminate.
  - vm_compute. reflexivity.
Defined.
